(** * refresh_modules.py: the parameter model of the module generator

    A shallow embedding of the core of [refresh_modules.py]: the resource
    namer ([path_to_name]), the reference resolver ([Definitions.get]),
    the schema flattener ([_property_to_parameter], [_flatten_parameter]),
    the operation index ([SwaggerFile.init_resources]) and the parameter
    merger ([AnsibleModuleBase.parameters]).

    Modelling conventions.
    - Python [str] is [string] (a sequence of bytes); [len], [lower] and
      the comparison of strings are those of ASCII text.
    - A Python [dict] is an association list in insertion order
      ([dict]); JSON objects of the input document are records with one
      optional field per key the program reads.
    - An exception is a value of [exn]; a function that can raise returns
      [pyresult].  Generators are consumed to the end by their callers
      ([sorted], [list]), so they are modelled by the list they yield.
    - [parameters] updates in place the dictionaries and lists it is
      given.  The model is of one call on a freshly loaded document and
      takes every list by its value: the enum list of a definition, which
      line 312 hands to every descriptor built from it, is a list of its
      own in each of them.
    - Line numbers are those of [refresh_modules.py]. *)

From Stdlib Require Import String Ascii List Bool Arith NArith Lia.
From Stdlib Require Import Sorting.Sorted Sorting.Permutation.
Import ListNotations.
Open Scope string_scope.

Set Implicit Arguments.

(** ** Exceptions *)

Inductive exn : Type :=
| KeyError (key : string)
| IndexError
| TypeError
| RecursionError
| DuplicateOperationError (resource verb : string).

Inductive pyresult (A : Type) : Type :=
| Ok (a : A)
| Raise (e : exn).

Arguments Ok {A} a.
Arguments Raise {A} e.

Definition bind {A B : Type} (m : pyresult A) (f : A -> pyresult B) : pyresult B :=
  match m with
  | Ok a => f a
  | Raise e => Raise e
  end.

Notation "x <- m ;; k" := (bind m (fun x => k))
  (at level 61, m at next level, right associativity).

Fixpoint mapM {A B : Type} (f : A -> pyresult B) (l : list A) : pyresult (list B) :=
  match l with
  | [] => Ok []
  | a :: l' => b <- f a ;; bs <- mapM f l' ;; Ok (b :: bs)
  end.

(** A loop over [l] threading an accumulator, stopped by the first
    exception. *)
Fixpoint foldM {A S : Type} (f : S -> A -> pyresult S) (l : list A) (s : S) : pyresult S :=
  match l with
  | [] => Ok s
  | a :: l' => s' <- f s a ;; foldM f l' s'
  end.

(** ** Python string methods *)

Module Py.

(** [c in s] for a one-character [c]. *)
Fixpoint contains (c : ascii) (s : string) : bool :=
  match s with
  | EmptyString => false
  | String a s' => Ascii.eqb a c || contains c s'
  end.

(** [s.replace(old, new)] for a one-character [old]. *)
Fixpoint replace (old : ascii) (new : string) (s : string) : string :=
  match s with
  | EmptyString => EmptyString
  | String a s' =>
      if Ascii.eqb a old then new ++ replace old new s'
      else String a (replace old new s')
  end.

Definition lower_ascii (a : ascii) : ascii :=
  let n := nat_of_ascii a in
  if ((65 <=? n) && (n <=? 90))%nat then ascii_of_nat (n + 32) else a.

(** [s.lower()] on ASCII text. *)
Fixpoint lower (s : string) : string :=
  match s with
  | EmptyString => EmptyString
  | String a s' => String (lower_ascii a) (lower s')
  end.

(** [s.split(sep)] for a one-character [sep]: never empty, and empty
    fields are kept. *)
Fixpoint split (sep : ascii) (s : string) : list string :=
  match s with
  | EmptyString => [EmptyString]
  | String a s' =>
      if Ascii.eqb a sep then EmptyString :: split sep s'
      else match split sep s' with
           | [] => [String a EmptyString]
           | w :: ws => String a w :: ws
           end
  end.

(** [sep.join(l)]. *)
Definition join (sep : string) (l : list string) : string := String.concat sep l.

(** [s.startswith(p)]. *)
Fixpoint starts_with (p s : string) : bool :=
  match p, s with
  | EmptyString, _ => true
  | String a p', String b s' => Ascii.eqb a b && starts_with p' s'
  | String _ _, EmptyString => false
  end.

(** [s.replace(old, new)] for a non-empty [old] of any length: the
    occurrences are taken from the left and do not overlap.  [skip] counts
    the characters of an occurrence that are still to be passed over. *)
Fixpoint replace_from (old new : string) (skip : nat) (s : string) : string :=
  match s with
  | EmptyString => EmptyString
  | String c s' =>
      match skip with
      | S k => replace_from old new k s'
      | O =>
          if starts_with old s
          then new ++ replace_from old new (String.length old - 1) s'
          else String c (replace_from old new 0 s')
      end
  end.

Definition replace_str (old new s : string) : string := replace_from old new 0 s.

Definition line_feed : ascii := ascii_of_nat 10.

End Py.

(** ** The pattern of [list_index] *)

(** [re.search(r"{([-\w]+)}$", path)] on ASCII text: the group of the
    leftmost match.  The class holds neither brace, so the group is the
    longest run of class characters after a [{], and [$] is the end of
    the text or the line feed that ends it. *)
Module Re.

Definition is_word (a : ascii) : bool :=
  let n := nat_of_ascii a in
  (((48 <=? n) && (n <=? 57)) || ((65 <=? n) && (n <=? 90))
   || ((97 <=? n) && (n <=? 122)) || (n =? 95))%nat.

Definition in_class (a : ascii) : bool := Ascii.eqb a "-" || is_word a.

Fixpoint span_class (s : string) : string * string :=
  match s with
  | EmptyString => (EmptyString, EmptyString)
  | String c s' =>
      if in_class c then let (g, rest) := span_class s' in (String c g, rest)
      else (EmptyString, s)
  end.

Definition at_end (rest : string) : bool :=
  (rest =? "}") || (rest =? String "}" (String Py.line_feed EmptyString)).

Definition match_here (s : string) : option string :=
  match s with
  | String c s' =>
      if Ascii.eqb c "{" then
        let (g, rest) := span_class s' in
        if negb (g =? "") && at_end rest then Some g else None
      else None
  | EmptyString => None
  end.

Fixpoint search (s : string) : option string :=
  match match_here s with
  | Some g => Some g
  | None =>
      match s with
      | EmptyString => None
      | String _ s' => search s'
      end
  end.

End Re.

(** ** Resource namer *)

(** The rewriting of one path element that holds a placeholder
    (lines 129-135). *)
Definition by_element (element : string) : string :=
  Py.lower
    (Py.replace ":" "_"
       (Py.replace "=" "_eq_"
          (Py.replace "}" "" (Py.replace "{" "" ("by_" ++ element))))).

Definition path_to_name (path : string) : string :=
  let _path := hd "" (Py.split "?" path) in
  let elements := filter (fun i => negb (i =? "")) (Py.split "/" _path) in
  let elements :=
    map (fun element => if Py.contains "{" element then by_element element else element)
        elements in
  let elements :=
    match elements with
    | first :: rest => if first =? "data" then rest else elements
    | [] => elements
    end in
  Py.lower (Py.replace ":" "_" (Py.replace "-" "_" (Py.join "_" elements))).

(** The algorithm of the specification, step by step as it is worded:
    split into non-empty segments, rewrite the placeholder segments, drop
    a leading [data], join with [_], replace [-] by [_], lowercase. *)
Module NamerSpec.

Definition segments (path : string) : list string :=
  filter (fun i => negb (String.length i =? 0)%nat) (Py.split "/" path).

Definition rewrite_segment (seg : string) : string :=
  if Py.contains "{" seg then
    Py.lower
      (Py.replace ":" "_"
         (Py.replace "=" "_eq_" (Py.replace "}" "" (Py.replace "{" "" ("by_" ++ seg)))))
  else seg.

Definition drop_data (segs : list string) : list string :=
  match segs with
  | seg :: rest => if String.eqb "data" seg then rest else segs
  | [] => []
  end.

Definition path_to_name_spec (path : string) : string :=
  Py.lower (Py.replace "-" "_" (Py.join "_" (drop_data (map rewrite_segment (segments path))))).

End NamerSpec.

(** ** Sorting and dictionaries *)

Module PyList.

(** [sorted] is stable and only asks whether one element is smaller than
    another ([lt b a] reads [key(b) < key(a)]). *)
Fixpoint insert {A : Type} (lt : A -> A -> bool) (x : A) (l : list A) : list A :=
  match l with
  | [] => [x]
  | y :: l' => if lt y x then y :: insert lt x l' else x :: l
  end.

Definition sorted {A : Type} (lt : A -> A -> bool) (l : list A) : list A :=
  fold_right (insert lt) [] l.

(** The same with a comparison that can raise. *)
Fixpoint insertM {A : Type} (lt : A -> A -> pyresult bool) (x : A) (l : list A)
  : pyresult (list A) :=
  match l with
  | [] => Ok [x]
  | y :: l' =>
      b <- lt y x ;;
      if b then (r <- insertM lt x l' ;; Ok (y :: r)) else Ok (x :: l)
  end.

Fixpoint sortedM {A : Type} (lt : A -> A -> pyresult bool) (l : list A)
  : pyresult (list A) :=
  match l with
  | [] => Ok []
  | x :: l' => r <- sortedM lt l' ;; insertM lt x r
  end.

(** [x in l] for strings. *)
Definition mem (x : string) (l : list string) : bool := existsb (String.eqb x) l.

(** [sorted(set(l))] for strings: the distinct elements in increasing
    order, whatever the iteration order of the set. *)
Definition sorted_set (l : list string) : list string :=
  sorted String.ltb (nodup string_dec l).

(** [repr] of a string without quotes, backslashes or control
    characters, as the operation identifiers are. *)
Definition repr_str (s : string) : string := "'" ++ s ++ "'".

(** [str] of a list of strings. *)
Definition str_list (l : list string) : string :=
  "[" ++ String.concat ", " (map repr_str l) ++ "]".

End PyList.

(** The order in which [sorted] leaves a list: [le_of lt a b] when [b]
    is not smaller than [a]. *)
Definition le_of {A : Type} (lt : A -> A -> bool) (a b : A) : Prop := lt b a = false.

Definition dict (V : Type) : Type := list (string * V).

Fixpoint dict_get {V : Type} (k : string) (d : dict V) : option V :=
  match d with
  | [] => None
  | (k', v) :: d' => if k' =? k then Some v else dict_get k d'
  end.

Definition dict_has {V : Type} (k : string) (d : dict V) : bool :=
  match dict_get k d with
  | Some _ => true
  | None => false
  end.

(** [d[k] = v]: an existing key keeps its position, a new one goes last. *)
Fixpoint dict_set {V : Type} (k : string) (v : V) (d : dict V) : dict V :=
  match d with
  | [] => [(k, v)]
  | (k', v') :: d' => if k' =? k then (k, v) :: d' else (k', v') :: dict_set k v d'
  end.

Definition dict_keys {V : Type} (d : dict V) : list string := map fst d.
Definition dict_values {V : Type} (d : dict V) : list V := map snd d.

(** ** Data model *)

(** The [schema] member of a raw parameter: its [$ref] and [type] keys. *)
Record Schema : Type := mkSchema {
  s_ref : option string;
  s_type : option string
}.

(** The value stored under [required]: a JSON boolean on a raw parameter
    and on an expanded property, the [required] list of a definition when
    line 312 copies it. *)
Inductive RequiredValue : Type :=
| ReqBool (b : bool)
| ReqList (l : list string).

Definition truthy_required (r : option RequiredValue) : bool :=
  match r with
  | Some (ReqBool b) => b
  | Some (ReqList l) => negb (Nat.eqb (List.length l) 0)
  | None => false
  end.

(** A parameter descriptor: the dictionary the program passes around,
    one optional field per key ([name] is always there).  Enum members
    are strings, on which [str] is the identity. *)
#[warnings="-register-all"] Inductive Descriptor : Type := mkDescriptor {
  p_name : string;
  p_type : option string;
  p_description : option string;
  p_required : option RequiredValue;
  p_in : option string;
  p_enum : option (list string);
  p_default : option string;
  p_schema : option Schema;
  p_subkeys : option (list Descriptor);
  p_operationIds : option (list string)
}.

Definition set_type (t : option string) (p : Descriptor) : Descriptor :=
  mkDescriptor (p_name p) t (p_description p) (p_required p) (p_in p) (p_enum p)
              (p_default p) (p_schema p) (p_subkeys p) (p_operationIds p).

Definition set_description (d : option string) (p : Descriptor) : Descriptor :=
  mkDescriptor (p_name p) (p_type p) d (p_required p) (p_in p) (p_enum p)
              (p_default p) (p_schema p) (p_subkeys p) (p_operationIds p).

Definition set_required (r : option RequiredValue) (p : Descriptor) : Descriptor :=
  mkDescriptor (p_name p) (p_type p) (p_description p) r (p_in p) (p_enum p)
              (p_default p) (p_schema p) (p_subkeys p) (p_operationIds p).

Definition set_enum (e : option (list string)) (p : Descriptor) : Descriptor :=
  mkDescriptor (p_name p) (p_type p) (p_description p) (p_required p) (p_in p) e
              (p_default p) (p_schema p) (p_subkeys p) (p_operationIds p).

Definition set_subkeys (k : option (list Descriptor)) (p : Descriptor) : Descriptor :=
  mkDescriptor (p_name p) (p_type p) (p_description p) (p_required p) (p_in p) (p_enum p)
              (p_default p) (p_schema p) k (p_operationIds p).

Definition set_operationIds (o : option (list string)) (p : Descriptor) : Descriptor :=
  mkDescriptor (p_name p) (p_type p) (p_description p) (p_required p) (p_in p) (p_enum p)
              (p_default p) (p_schema p) (p_subkeys p) o.

(** A member of a [properties] table. *)
Record Property : Type := mkProperty {
  v_type : option string;
  v_description : option string;
  v_ref : option string
}.

(** An entry of the [definitions] table. *)
Record SchemaBody : Type := mkSchemaBody {
  d_properties : option (dict Property);
  d_required : option (list string);
  d_type : option string;
  d_description : option string;
  d_enum : option (list string)
}.

(** The tuple [(verb, path, parameters, basePath)] of [load_paths]. *)
Record Operation : Type := mkOperation {
  o_verb : string;
  o_path : string;
  o_parameters : list Descriptor;
  o_basePath : string
}.

Record Resource : Type := mkResource {
  r_name : string;
  r_operations : dict Operation
}.

Record Path : Type := mkPath {
  path : string;
  basePath : string;
  operations : dict Operation
}.

(** ** Reference resolver *)

Module Definitions.

Definition _ref_to_dotted (ref : string) : pyresult string :=
  match nth_error (Py.split "/" ref) 2 with
  | Some dotted => Ok dotted
  | None => Raise IndexError
  end.

Definition get (definitions : dict SchemaBody) (ref : string) : pyresult SchemaBody :=
  dotted <- _ref_to_dotted ref ;;
  match dict_get dotted definitions with
  | Some v => Ok v
  | None => Raise (KeyError dotted)
  end.

End Definitions.

(** ** Schema flattener and parameter merger *)

Module AnsibleModuleBase.

Definition or_default {A : Type} (o : option A) (d : A) : A :=
  match o with
  | Some a => a
  | None => d
  end.

(** The dictionary built at lines 294-299. *)
Definition new_parameter (required_keys : list string) (name : string) (v : Property)
  : Descriptor :=
  mkDescriptor name
    (Some (or_default (v_type v) "str"))
    (Some (or_default (v_description v) ""))
    (Some (ReqBool (PyList.mem name required_keys)))
    None None None None None None.

(** Lines 311-312: every key of the referenced definition is stored on the
    descriptor. *)
Definition copy_items (ref : SchemaBody) (parameter : Descriptor) : Descriptor :=
  let parameter :=
    match d_required ref with
    | Some l => set_required (Some (ReqList l)) parameter
    | None => parameter
    end in
  let parameter :=
    match d_type ref with
    | Some t => set_type (Some t) parameter
    | None => parameter
    end in
  let parameter :=
    match d_description ref with
    | Some t => set_description (Some t) parameter
    | None => parameter
    end in
  match d_enum ref with
  | Some e => set_enum (Some e) parameter
  | None => parameter
  end.

Definition name_lt (a b : Descriptor) : bool := (p_name a <? p_name b)%string.

(** The body of the loop of lines 293-314 for one [(name, v)] of the
    properties table.  [recurse] is the nested call of line 304, absent
    when the recursion depth is used up. *)
Definition expand_property
    (recurse : option (SchemaBody -> pyresult (list Descriptor)))
    (definitions : dict SchemaBody) (required_keys : list string)
    (item : string * Property) : pyresult Descriptor :=
  let (name, v) := item in
  let parameter := new_parameter required_keys name v in
  match v_ref v with
  | None => Ok parameter
  | Some r =>
      ref <- Definitions.get definitions r ;;
      match d_properties ref with
      | Some _ =>
          match recurse with
          | None => Raise RecursionError
          | Some _property_to_parameter =>
              unsorted_subkeys <- _property_to_parameter ref ;;
              let parameter := set_type (Some "dict") parameter in
              let subkeys := PyList.sorted name_lt unsorted_subkeys in
              Ok (set_subkeys (Some subkeys) parameter)
          end
      | None => Ok (copy_items ref parameter)
      end
  end.

(** A generator: without a properties table it yields nothing (the
    [return prop_struct] of line 291 only ends the iteration).  [fuel]
    bounds the depth of nested references; running out of it is the
    [RecursionError] of a cyclic definitions table. *)
Fixpoint _property_to_parameter (fuel : nat) (prop_struct : SchemaBody)
    (definitions : dict SchemaBody) {struct fuel} : pyresult (list Descriptor) :=
  let required_keys := or_default (d_required prop_struct) [] in
  match d_properties prop_struct with
  | None => Ok []
  | Some properties =>
      mapM (expand_property
              match fuel with
              | O => None
              | S fuel' => Some (fun ref => _property_to_parameter fuel' ref definitions)
              end
              definitions required_keys)
           properties
  end.

(** What one raw parameter contributes (the body of the loop of
    [_flatten_parameter]). *)
Definition flatten_one (fuel : nat) (definitions : dict SchemaBody) (i : Descriptor)
  : pyresult (list Descriptor) :=
  match p_schema i with
  | Some sch =>
      match s_ref sch with
      | Some r =>
          schema <- Definitions.get definitions r ;;
          _property_to_parameter fuel schema definitions
      | None =>
          match s_type sch with
          | Some t => Ok [set_type (Some t) i]
          | None => Ok []
          end
      end
  | None => Ok [i]
  end.

Definition _flatten_parameter (fuel : nat) (parameter_structure : list Descriptor)
    (definitions : dict SchemaBody) : pyresult (list Descriptor) :=
  yielded <- mapM (flatten_one fuel definitions) parameter_structure ;;
  Ok (concat yielded).

(** The module object: [default_operationIds] is the set of line 476 in
    the order in which the loop of line 216 enumerates it. *)
Record t : Type := mk {
  resource : Resource;
  definitions : dict SchemaBody;
  default_operationIds : list string
}.

(** An enumeration of the set built from [elems]. *)
Definition enumerates (elems order : list string) : Prop :=
  NoDup order /\ forall x, In x order <-> In x elems.

Definition itera (fuel : nat) (self : t) (operationId : string)
  : pyresult (list Descriptor) :=
  match dict_get operationId (r_operations (resource self)) with
  | None => Raise (KeyError operationId)
  | Some op =>
      flat <- _flatten_parameter fuel (o_parameters op) (definitions self) ;;
      yielded <- mapM (fun parameter =>
                   if p_name parameter =? "spec" then
                     match p_subkeys parameter with
                     | Some subkeys => Ok subkeys
                     | None => Raise (KeyError "subkeys")
                     end
                   else Ok [parameter]) flat ;;
      Ok (concat yielded)
  end.

(** [key(b) < key(a)] for the key [(item["name"], item.get("description"))]
    of line 222: [None] and a string cannot be ordered. *)
Definition key_lt (b a : Descriptor) : pyresult bool :=
  if p_name b =? p_name a then
    match p_description b, p_description a with
    | None, None => Ok false
    | Some db, Some da => Ok (db <? da)%string
    | _, _ => Raise TypeError
    end
  else Ok (p_name b <? p_name a)%string.

(** Lines 229-239. *)
Definition merge_description (stored parameter : Descriptor) : Descriptor :=
  match p_description parameter with
  | None => stored
  | Some d =>
      match p_description stored with
      | None => set_description (Some d) stored
      | Some d0 =>
          if negb (d0 =? d) then
            if (String.length d0 <? String.length d)%nat
            then set_description (Some d) stored
            else stored
          else stored
      end
  end.

(** Lines 240-244. *)
Definition merge_enum (stored parameter : Descriptor) : Descriptor :=
  match p_enum parameter with
  | None => stored
  | Some e =>
      match p_enum stored with
      | None => set_enum (Some e) stored
      | Some e0 => set_enum (Some (e0 ++ e)%list) stored
      end
  end.

(** The body of the inner loop (lines 224-247).  On the first sight of a
    name the stored descriptor is the parameter itself, which lines
    229-244 then merge with itself. *)
Definition merge_parameter (operationId : string) (results : dict Descriptor)
    (parameter : Descriptor) : pyresult (dict Descriptor) :=
  let name := p_name parameter in
  let first_sight := negb (dict_has name results) in
  let parameter :=
    if first_sight then set_operationIds (Some []) parameter else parameter in
  let results :=
    if first_sight then dict_set name parameter results else results in
  match dict_get name results with
  | None => Raise (KeyError name)
  | Some stored =>
      let stored := merge_description stored parameter in
      let stored := merge_enum stored parameter in
      match p_operationIds stored with
      | None => Raise (KeyError "operationIds")
      | Some ids =>
          let ids := PyList.sorted String.ltb (ids ++ [operationId])%list in
          Ok (dict_set name (set_operationIds (Some ids) stored) results)
      end
  end.

(** The body of the outer loop (lines 216-247). *)
Definition merge_operation (fuel : nat) (self : t) (results : dict Descriptor)
    (operationId : string) : pyresult (dict Descriptor) :=
  if negb (dict_has operationId (r_operations (resource self))) then Ok results
  else
    yielded <- itera fuel self operationId ;;
    ordered <- PyList.sortedM key_lt yielded ;;
    foldM (merge_parameter operationId) ordered results.

Definition merged (fuel : nat) (self : t) : pyresult (dict Descriptor) :=
  foldM (merge_operation fuel self) (default_operationIds self) [].

Definition required_sentence (ids : list string) : string :=
  "Required with I(state=" ++ PyList.str_list (PyList.sorted_set ids) ++ ")".

Definition newline : string := String (ascii_of_nat 10) EmptyString.

(** Lines 250-254: a non-empty enum becomes the sorted set of its
    members. *)
Definition collapse_enum (result : Descriptor) : Descriptor :=
  match p_enum result with
  | Some (item :: items) => set_enum (Some (PyList.sorted_set (item :: items))) result
  | _ => result
  end.

(** Lines 255-264. *)
Definition required_to_sentence (result : Descriptor) : pyresult Descriptor :=
  if truthy_required (p_required result) then
    match p_operationIds result with
    | None => Raise (KeyError "operationIds")
    | Some ids =>
        let result :=
          match p_description result with
          | Some d => set_description (Some (d ++ newline ++ required_sentence ids)) result
          | None => set_description (Some (required_sentence ids)) result
          end in
        Ok (set_required None result)
    end
  else Ok result.

(** The body of the loop of lines 249-264. *)
Definition finalize (result : Descriptor) : pyresult Descriptor :=
  required_to_sentence (collapse_enum result).

Definition finalized (results : dict Descriptor) : pyresult (dict Descriptor) :=
  mapM (fun item : string * Descriptor =>
          let (name, result) := item in
          result' <- finalize result ;; Ok (name, result'))
       results.

(** Lines 266-271. *)
Definition state_parameter (self : t) : Descriptor :=
  mkDescriptor "state" (Some "str") None None None
    (Some (PyList.sorted String.ltb (default_operationIds self)))
    (Some "present") None None None.

Definition parameters (fuel : nat) (self : t) : pyresult (list Descriptor) :=
  results <- merged fuel self ;;
  results <- finalized results ;;
  let results := dict_set "state" (state_parameter self) results in
  Ok (PyList.sorted name_lt (dict_values results)).

(** Lines 190-201: the placeholder that ends the path of the first of
    [get], [update] and [delete] that the resource has. *)
Definition list_index (self : t) : option string :=
  match find (fun i => dict_has i (r_operations (resource self)))
             ["get"; "update"; "delete"] with
  | None => None
  | Some i =>
      match dict_get i (r_operations (resource self)) with
      | Some op => Re.search (o_path op)
      | None => None
      end
  end.

Definition in_query (p : Descriptor) : bool :=
  match p_in p with
  | Some w => w =? "query"
  | None => false
  end.

Definition in_query_parameters (fuel : nat) (self : t) : pyresult (list string) :=
  l <- parameters fuel self ;;
  Ok (map p_name (filter in_query l)).

End AnsibleModuleBase.

(** [AnsibleModule.__init__]: the operation identifiers are the keys of
    the resource's operations, as a set; [order] is how that set is
    enumerated. *)
Module AnsibleModule.

Definition init (resource : Resource) (definitions : dict SchemaBody)
    (order : list string) : AnsibleModuleBase.t :=
  AnsibleModuleBase.mk resource definitions order.

Definition valid_order (resource : Resource) (order : list string) : Prop :=
  AnsibleModuleBase.enumerates (dict_keys (r_operations resource)) order.

Definition in_path_or_query (p : Descriptor) : bool :=
  match p_in p with
  | Some w => PyList.mem w ["path"; "query"]
  | None => false
  end.

(** Lines 525-532 of [gen_entry_point_func]: the fields of the request
    body of one operation, from the list that [parameters] returned. *)
Definition accepted (parameters : list Descriptor) (operation : string) : list string :=
  flat_map (fun p =>
              match p_operationIds p with
              | Some ids =>
                  if PyList.mem operation ids then
                    if negb (in_path_or_query p) then [p_name p]
                    else if PyList.mem operation ["post"; "patch"; "put"] then [p_name p]
                    else []
                  else []
              | None => []
              end)
           parameters.

Definition data_accepted_fields (fuel : nat) (self : AnsibleModuleBase.t)
    (operation : string) : pyresult (list string) :=
  l <- AnsibleModuleBase.parameters fuel self ;;
  Ok (accepted l operation).

End AnsibleModule.

(** ** Documentation and argument specification *)

Definition normalize_parameter_name (name : string) : string :=
  Py.replace "." "_" name.

(** The generator [_transform] of lines 18-24; the pattern of line 23
    holds no special character, so [re.sub] replaces the text itself. *)
Definition _transform (my_list : list string) : list string :=
  flat_map (fun i =>
              if i =? "" then []
              else [Py.replace_str "{@name DayOfWeek}" "day of the week"
                      (Py.replace_str " {@term enumerated type}" "" i)])
           my_list.

Definition normalize_description (string_list : list string) : list string :=
  let with_no_line_break :=
    flat_map (fun l => if Py.contains Py.line_feed l then Py.split Py.line_feed l else [l])
             string_list in
  _transform with_no_line_break.

Definition python_type (value : string) : string :=
  if value =? "array" then "list"
  else if value =? "boolean" then "bool"
  else if value =? "integer" then "int"
  else if value =? "object" then "dict"
  else if value =? "string" then "str"
  else value.

(** One entry of [documentation["options"]]; [required] and [choices]
    are keys that may be absent. *)
Record DocOption : Type := mkDocOption {
  opt_type : string;
  opt_required : option bool;
  opt_description : list string;
  opt_choices : option (list string)
}.

(** Lines 73-77: the line that documents one subkey. *)
Definition subkey_line (subkey : Descriptor) : pyresult string :=
  match p_type subkey with
  | None => Raise (KeyError "type")
  | Some t =>
      match p_description subkey with
      | None => Raise (KeyError "description")
      | Some d =>
          Ok (" - C(" ++ p_name subkey ++ ") (" ++ python_type t ++ "): " ++ d)
      end
  end.

(** The body of the loop of lines 63-87. *)
Definition gen_option (parameter : Descriptor) : pyresult DocOption :=
  let described :=
    match p_description parameter with
    | Some d => if d =? "" then [] else [d]
    | None => []
    end in
  subkeys <-
    match p_subkeys parameter with
    | Some (subkey :: subkeys) =>
        lines <- mapM subkey_line (subkey :: subkeys) ;;
        Ok ("Validate attributes are:" :: lines)
    | _ => Ok []
    end ;;
  let used :=
    match p_operationIds parameter with
    | Some ids => ["Used by I(state=" ++ PyList.str_list (PyList.sorted_set ids) ++ ")"]
    | None => []
    end in
  Ok (mkDocOption
        (python_type (AnsibleModuleBase.or_default (p_type parameter) "string"))
        (if truthy_required (p_required parameter) then Some true else None)
        (normalize_description (described ++ subkeys ++ used)%list)
        (option_map (PyList.sorted String.ltb) (p_enum parameter))).

Record Documentation : Type := mkDocumentation {
  doc_module : string;
  doc_description : string;
  doc_short_description : string;
  doc_options : dict DocOption
}.

Definition gen_documentation (name description : string) (parameters : list Descriptor)
  : pyresult Documentation :=
  options <- foldM (fun options parameter =>
                      option <- gen_option parameter ;;
                      Ok (dict_set (p_name parameter) option options))
                   parameters [] ;;
  Ok (mkDocumentation name description description options).

(** A constant of the generated [argument_spec]. *)
Inductive ArgValue : Type :=
| ArgBool (b : bool)
| ArgStr (s : string)
| ArgList (l : list string).

(** The assignment [argument_spec[name] = {...}] that [gen_arguments_py]
    yields for one parameter: the name and the keys with their values, in
    the order in which [_add_key] appends them. *)
Definition gen_argument (list_index : option string) (parameter : Descriptor)
  : string * list (string * ArgValue) :=
  let name := normalize_parameter_name (p_name parameter) in
  (name,
   ((if PyList.mem name ["user_name"; "username"; "password"]
     then [("nolog", ArgBool true)] else [])
    ++ (if truthy_required (p_required parameter) then
          match list_index with
          | Some index => if index =? name then [] else [("required", ArgBool true)]
          | None => [("required", ArgBool true)]
          end
        else [])
    ++ [("type", ArgStr (python_type (AnsibleModuleBase.or_default (p_type parameter) "string")))]
    ++ match p_enum parameter with
       | Some e => [("choices", ArgList (PyList.sorted String.ltb e))]
       | None => []
       end
    ++ match p_operationIds parameter with
       | Some ids => [("operationIds", ArgList (PyList.sorted String.ltb ids))]
       | None => []
       end)%list).

Definition gen_arguments_py (parameters : list Descriptor) (list_index : option string)
  : list (string * list (string * ArgValue)) :=
  map (gen_argument list_index) parameters.

(** ** Operation index *)

Module SwaggerFile.

(** Lines 597-599: the base path of the document. *)
Definition base_path_of (basePath : option string) : string :=
  let base_path := AnsibleModuleBase.or_default basePath "" in
  if base_path =? "/" then "" else base_path.

(** [load_paths]: [paths] is the [paths] object of the document, each
    verb with the [parameters] member of its description when it has
    one.  The test of line 609 looks for a [Path] object among the keys of
    [paths], which are strings, and is always true. *)
Definition load_path (base_path : string)
    (item : string * dict (option (list Descriptor))) : Path :=
  mkPath (fst item) base_path
    (fold_left (fun operations vd =>
                  dict_set (fst vd)
                    (mkOperation (fst vd) (fst item)
                       (AnsibleModuleBase.or_default (snd vd) []) base_path)
                    operations)
               (snd item) []).

Definition load_paths (paths : dict (dict (option (list Descriptor)))) (base_path : string)
  : dict Path :=
  fold_left (fun result item => dict_set (fst item) (load_path base_path item) result)
            paths [].

(** Lines 631-636 for one [(verb, v)] of [path.operations]. *)
Definition register (name : string) (resources : dict Resource)
    (item : string * Operation) : pyresult (dict Resource) :=
  let (verb, v) := item in
  match dict_get name resources with
  | None => Raise (KeyError name)
  | Some r =>
      if dict_has verb (r_operations r) then Raise (DuplicateOperationError name verb)
      else Ok (dict_set name (mkResource (r_name r) (dict_set verb v (r_operations r)))
                        resources)
  end.

(** The body of the loop of line 624. *)
Definition index_path (resources : dict Resource) (p : Path) : pyresult (dict Resource) :=
  let name := path_to_name (path p) in
  let resources :=
    if dict_has name resources then resources
    else dict_set name (mkResource name []) resources in
  foldM (register name) (operations p) resources.

Definition init_resources (paths : list Path) : pyresult (dict Resource) :=
  foldM index_path paths [].

(** [main] for one document (lines 650-669): the index is built first,
    then one module is rendered for every resource that has an
    operation.  [renderer] stands for the emission of a module. *)
Definition main_document {Output : Type} (renderer : Resource -> Output)
    (paths : list Path) : pyresult (list Output) :=
  resources <- init_resources paths ;;
  Ok (map renderer
          (filter (fun resource => negb (Nat.eqb (List.length (r_operations resource)) 0))
                  (dict_values resources))).

End SwaggerFile.

(** ** Invariant of the results table of [parameters] *)

(** Keys are distinct, every descriptor is stored under its own name and
    carries its [operationIds]. *)
Definition well_formed (results : dict Descriptor) : Prop :=
  NoDup (dict_keys results)
  /\ forall k v, In (k, v) results -> p_name v = k /\ p_operationIds v <> None.

Definition is_state (d : Descriptor) : bool := p_name d =? "state".

(** ** Statement of the second merge *)

Module Idempotence.

Definition ids_of (d : Descriptor) : list string :=
  AnsibleModuleBase.or_default (p_operationIds d) [].

(** The merged descriptors that record the operation in their
    [operationIds]. *)
Definition view (merged : list Descriptor) (operationId : string) : list Descriptor :=
  filter (fun d => PyList.mem operationId (ids_of d)) merged.

Definition with_parameters (parameters : list Descriptor) (op : Operation) : Operation :=
  mkOperation (o_verb op) (o_path op) parameters (o_basePath op).

(** The resource whose operations have the merged list as their
    parameters: each operation the descriptors that record it. *)
Definition feed_back (merged : list Descriptor) (resource : Resource) : Resource :=
  mkResource (r_name resource)
    (map (fun item : string * Operation =>
            (fst item, with_parameters (view merged (fst item)) (snd item)))
         (r_operations resource)).

(** The same with the whole merged list for every operation. *)
Definition feed_back_all (merged : list Descriptor) (resource : Resource) : Resource :=
  mkResource (r_name resource)
    (map (fun item : string * Operation => (fst item, with_parameters merged (snd item)))
         (r_operations resource)).

Definition again (self : AnsibleModuleBase.t) (resource : Resource) : AnsibleModuleBase.t :=
  AnsibleModuleBase.mk resource (AnsibleModuleBase.definitions self)
                       (AnsibleModuleBase.default_operationIds self).

(** A descriptor that the flattener passes on as it is: it has no
    schema, or an inline schema type that is its type. *)
Definition flat (d : Descriptor) : Prop :=
  match p_schema d with
  | None => True
  | Some sch => s_ref sch = None /\ exists t, s_type sch = Some t /\ p_type d = Some t
  end.

(** What the second merge has stored for [d] once the operations [c]
    that record it have been visited. *)
Definition evolve (c : list string) (d : Descriptor) : Descriptor :=
  set_operationIds (Some (PyList.sorted String.ltb c))
    (set_enum (option_map (fun e => concat (repeat e (S (List.length c)))) (p_enum d)) d).

Definition named (k : string) (d : Descriptor) : bool := p_name d =? k.

(** The results table of the second merge after the operations [done]. *)
Definition expected (merged : list Descriptor) (done : list string) (k : string)
  : option Descriptor :=
  match find (named k) merged with
  | Some d =>
      match filter (fun o => PyList.mem o (ids_of d)) done with
      | [] => None
      | c => Some (evolve c d)
      end
  | None => None
  end.

(** The stored descriptor after one step of the inner loop. *)
Definition merge_step (operationId : string) (stored : option Descriptor)
    (parameter : Descriptor) : Descriptor :=
  match stored with
  | None =>
      set_operationIds (Some [operationId])
        (AnsibleModuleBase.merge_enum (set_operationIds (Some []) parameter) parameter)
  | Some s =>
      set_operationIds
        (Some (PyList.sorted String.ltb (ids_of s ++ [operationId])%list))
        (AnsibleModuleBase.merge_enum
           (AnsibleModuleBase.merge_description s parameter) parameter)
  end.

(** The operation identifiers recorded by the merge loop: in increasing
    order, at least one, all of them operations of the resource that the
    loop visits. *)
Definition recorded (self : AnsibleModuleBase.t) (ids : list string) : Prop :=
  StronglySorted (le_of String.ltb) ids
  /\ ids <> []
  /\ forall x, In x ids ->
       In x (AnsibleModuleBase.default_operationIds self)
       /\ dict_has x (r_operations (AnsibleModuleBase.resource self)) = true.

Definition tracked (self : AnsibleModuleBase.t) (results : dict Descriptor) : Prop :=
  forall k v, In (k, v) results ->
    exists ids, p_operationIds v = Some ids /\ recorded self ids.

(** A merged descriptor as the closing loop leaves it. *)
Definition final (self : AnsibleModuleBase.t) (d : Descriptor) : Prop :=
  (exists ids, p_operationIds d = Some ids /\ recorded self ids)
  /\ AnsibleModuleBase.finalize d = Ok d.

(** The results table of the second merge agrees with [expected]. *)
Definition agrees (merged : list Descriptor) (done : list string)
    (results : dict Descriptor) : Prop :=
  well_formed results /\ forall k, dict_get k results = expected merged done k.

End Idempotence.

(** ** Statement of the duplicate registration *)

Module Index.

(** Two path entries that derive the same resource name and define the
    same verb. *)
Definition clash (p q : Path) : Prop :=
  path_to_name (path p) = path_to_name (path q)
  /\ exists verb, In verb (dict_keys (operations p)) /\ In verb (dict_keys (operations q)).

Definition duplicate_registration (paths : list Path) : Prop :=
  exists l1 p l2 q l3, paths = (l1 ++ p :: l2 ++ q :: l3)%list /\ clash p q.

(** The verb is an operation of the resource [name] in the table. *)
Definition registered (resources : dict Resource) (name verb : string) : Prop :=
  exists r, dict_get name resources = Some r /\ In verb (dict_keys (r_operations r)).

(** A clash of a path still to come with the table, or among the paths
    still to come. *)
Definition collision (resources : dict Resource) (paths : list Path) : Prop :=
  (exists p verb, In p paths /\ In verb (dict_keys (operations p))
                  /\ registered resources (path_to_name (path p)) verb)
  \/ duplicate_registration paths.

(** The loaded document: a Python dictionary has each key once. *)
Definition loaded (paths : list Path) : Prop :=
  forall p, In p paths -> NoDup (dict_keys (operations p)).

End Index.

(** ** Statement of Property Expansion *)

Module Expansion.

Import AnsibleModuleBase.

(** What the descriptor [d] yielded for the property [(name, v)] of a
    schema with the given [required] list looks like. *)
Definition expands (definitions : dict SchemaBody) (required_keys : list string)
    (item : string * Property) (d : Descriptor) : Prop :=
  p_name d = fst item /\
  match v_ref (snd item) with
  | None =>
      p_type d = Some (or_default (v_type (snd item)) "str") /\
      p_description d = Some (or_default (v_description (snd item)) "") /\
      (exists b, p_required d = Some (ReqBool b) /\
                 (b = true <-> In (fst item) required_keys)) /\
      p_subkeys d = None /\ p_enum d = None
  | Some r =>
      exists ref, Definitions.get definitions r = Ok ref /\
      match d_properties ref with
      | Some _ =>
          p_type d = Some "dict" /\
          p_description d = Some (or_default (v_description (snd item)) "") /\
          (exists b, p_required d = Some (ReqBool b) /\
                     (b = true <-> In (fst item) required_keys)) /\
          exists subkeys,
            p_subkeys d = Some subkeys /\ StronglySorted (le_of name_lt) subkeys
      | None => d = copy_items ref (new_parameter required_keys (fst item) (snd item))
      end
  end.

Definition plain (item : string * Property) : Prop := v_ref (snd item) = None.

End Expansion.

(** ** Statements about strings and the index *)

Module Text.

(** The number of occurrences of a character. *)
Fixpoint count (c : ascii) (s : string) : nat :=
  match s with
  | EmptyString => 0
  | String a s' => (if Ascii.eqb a c then 1 else 0) + count c s'
  end.

Definition is_upper (a : ascii) : bool :=
  let n := nat_of_ascii a in ((65 <=? n) && (n <=? 90))%nat.

(** Every character is a hyphen or a word character. *)
Fixpoint all_class (s : string) : bool :=
  match s with
  | EmptyString => true
  | String a s' => Re.in_class a && all_class s'
  end.


End Text.

(** [resources[name].operations[verb]]. *)
Definition lookup (resources : dict Resource) (name verb : string) : option Operation :=
  match dict_get name resources with
  | Some r => dict_get verb (r_operations r)
  | None => None
  end.

(** ** Example documents *)

Module Examples.

Definition raw (name : string) : Descriptor :=
  mkDescriptor name None None None None None None None None None.

Definition with_schema (sch : Schema) (p : Descriptor) : Descriptor :=
  mkDescriptor (p_name p) (p_type p) (p_description p) (p_required p) (p_in p) (p_enum p)
               (p_default p) (Some sch) (p_subkeys p) (p_operationIds p).

Definition reference (r : string) : Schema := mkSchema (Some r) None.

(** [{"properties": {"name": {"type": "string"}, "tags": {"type": "array"}},
      "required": ["name"]}] *)
Definition spec_definition : SchemaBody :=
  mkSchemaBody
    (Some [("name", mkProperty (Some "string") None None);
           ("tags", mkProperty (Some "array") None None)])
    (Some ["name"]) None None None.

Definition spec_parameter : Descriptor :=
  with_schema (reference "#/definitions/vm_create_spec") (raw "spec").

Definition spec_definitions : dict SchemaBody :=
  [("vm_create_spec", spec_definition)].

Definition name_descriptor : Descriptor :=
  mkDescriptor "name" (Some "string") (Some "") (Some (ReqBool true))
               None None None None None None.

Definition tags_descriptor : Descriptor :=
  mkDescriptor "tags" (Some "array") (Some "") (Some (ReqBool false))
               None None None None None None.

(** A definition without a properties table, and a parameter that
    refers to it. *)
Definition enum_definition : SchemaBody :=
  mkSchemaBody None None (Some "string") None (Some ["ON"; "OFF"]).

Definition enum_definitions : dict SchemaBody := [("power_state", enum_definition)].

Definition enum_parameter : Descriptor :=
  with_schema (reference "#/definitions/power_state") (raw "state").

(** A schema with one property that declares no type. *)
Definition untyped_schema : SchemaBody :=
  mkSchemaBody (Some [("comment", mkProperty None None None)]) None None None None.

Definition with_enum (e : list string) (p : Descriptor) : Descriptor :=
  set_enum (Some e) p.

Definition operation (verb : string) (parameters : list Descriptor) : Operation :=
  mkOperation verb "/vcenter/vm/{vm}/power" parameters "/rest".


(** The same parameter described in two ways of the same length. *)
Definition tie_resource : Resource :=
  mkResource "vcenter_vm_by_vm_power"
    [("get", operation "get" [set_description (Some "VM to read") (raw "vm")]);
     ("patch", operation "patch" [set_description (Some "VM to edit") (raw "vm")])].

(** Three operations, one of which declares a parameter named [state]. *)
Definition three_resource : Resource :=
  mkResource "vcenter_vm_by_vm_power"
    [("get", operation "get" [raw "vm"]);
     ("delete", operation "delete" [raw "vm"]);
     ("update", operation "update" [raw "vm"; raw "state"])].


(** Two templates with the same derived name that both define [get]. *)
Definition colliding_paths : list Path :=
  [mkPath "/vcenter/vm" "/rest" [("get", operation "get" []); ("post", operation "post" [])];
   mkPath "/data/vcenter/vm" "/rest" [("get", operation "get" [])]].

Definition distinct_paths : list Path :=
  [mkPath "/vcenter/vm" "/rest" [("get", operation "get" []); ("post", operation "post" [])];
   mkPath "/data/vcenter/vm" "/rest" [("delete", operation "delete" [])]].

Definition in_ (where_ : string) (p : Descriptor) : Descriptor :=
  mkDescriptor (p_name p) (p_type p) (p_description p) (p_required p) (Some where_)
               (p_enum p) (p_default p) (p_schema p) (p_subkeys p) (p_operationIds p).

(** One operation with the parameter [vm] both in the path and in the
    query. *)
Definition twice_resource : Resource :=
  mkResource "vcenter_vm_by_vm_power"
    [("get", operation "get" [in_ "path" (raw "vm"); in_ "query" (raw "vm")])].

Definition described (d : string) (p : Descriptor) : Descriptor :=
  set_description (Some d) p.

(** Two operations with overlapping parameters: a required path
    parameter described twice, an enum given twice, and a request body. *)
Definition mixed_resource : Resource :=
  mkResource "vcenter_vm_by_vm_power"
    [("get",
      operation "get"
        [set_required (Some (ReqBool true))
           (described "Identifier of the virtual machine." (in_ "path" (raw "vm")));
         with_enum ["on"; "off"] (raw "power_state")]);
     ("update",
      operation "update"
        [set_required (Some (ReqBool true)) (described "VM" (in_ "path" (raw "vm")));
         with_enum ["off"; "suspended"] (raw "power_state");
         with_schema (reference "#/definitions/vm_create_spec") (raw "spec")])].

Definition mixed_module : AnsibleModuleBase.t :=
  AnsibleModule.init mixed_resource spec_definitions ["update"; "get"].

(** What [parameters] returns for [mixed_module]. *)
Definition mixed_merged : list Descriptor :=
  [mkDescriptor "name" (Some "string")
     (Some (AnsibleModuleBase.newline ++ "Required with I(state=['update'])"))
     None None None None None None (Some ["update"]);
   mkDescriptor "power_state" None None None None
     (Some ["off"; "on"; "suspended"]) None None None (Some ["get"; "update"]);
   mkDescriptor "state" (Some "str") None None None
     (Some ["get"; "update"]) (Some "present") None None None;
   mkDescriptor "tags" (Some "array") (Some "") (Some (ReqBool false))
     None None None None None (Some ["update"]);
   mkDescriptor "vm" None
     (Some ("Identifier of the virtual machine." ++ AnsibleModuleBase.newline
            ++ "Required with I(state=['get', 'update'])"))
     None (Some "path") None None None None (Some ["get"; "update"])].

(** The merged [power_state] of [power_resource] and its [state]. *)
Definition power_state_merged : Descriptor :=
  mkDescriptor "power_state" None None None None
    (Some ["off"; "on"; "suspended"]) None None None (Some ["get"; "update"]).



(** A request body whose [spec] has itself a property named [spec]. *)
Definition nested_definitions : dict SchemaBody :=
  [("vm_create", mkSchemaBody
       (Some [("spec", mkProperty None None (Some "#/definitions/vm_create_spec"))])
       None None None None);
   ("vm_create_spec", mkSchemaBody
       (Some [("spec", mkProperty (Some "string") None None);
              ("name", mkProperty (Some "string") None None)])
       None None None None)].

Definition nested_module : AnsibleModuleBase.t :=
  AnsibleModule.init
    (mkResource "vcenter_vm"
       [("post", mkOperation "post" "/vcenter/vm"
                   [with_schema (reference "#/definitions/vm_create") (raw "request_body")]
                   "/rest")])
    nested_definitions ["post"].

(** A raw parameter [spec] that brings its own subkeys, one of them with a
    schema reference. *)
Definition subkeys_module : AnsibleModuleBase.t :=
  AnsibleModule.init
    (mkResource "vcenter_vm"
       [("post", mkOperation "post" "/vcenter/vm"
                   [set_subkeys
                      (Some [with_schema (reference "#/definitions/vm_create_spec")
                                         (raw "placement")])
                      (raw "spec")]
                   "/rest")])
    spec_definitions ["post"].

Definition spec_operation : Operation :=
  mkOperation "post" "/vcenter/vm" [spec_parameter] "/rest".

Definition spec_module : AnsibleModuleBase.t :=
  AnsibleModule.init (mkResource "vcenter_vm" [("post", spec_operation)])
                     spec_definitions ["post"].

(** One operation with two query parameters, one of them named
    [state], and a path parameter. *)
Definition query_module : AnsibleModuleBase.t :=
  AnsibleModule.init
    (mkResource "vcenter_vm"
       [("get", mkOperation "get" "/vcenter/vm"
                  [in_ "query" (raw "filter.names"); in_ "query" (raw "state");
                   in_ "path" (raw "vm")]
                  "/rest")])
    [] ["get"].

(** The [paths] object of a document with two paths of the same derived
    name. *)
Definition document_paths : dict (dict (option (list Descriptor))) :=
  [("/vcenter/vm", [("get", None); ("post", Some [raw "spec"])]);
   ("/vcenter/VM?action=list", [("delete", None)])].

(** A resource whose [update] comes before its [get]; the path of [get]
    ends in a placeholder, that of [update] does not. *)
Definition by_vm_module : AnsibleModuleBase.t :=
  AnsibleModule.init
    (mkResource "vcenter_vm_by_vm"
       [("update", mkOperation "update" "/vcenter/vm/{vm}/" [] "/rest");
        ("get", mkOperation "get" "/vcenter/vm/{vm}" [] "/rest")])
    [] ["get"; "update"].

(** A definition with a property that refers to the definition itself. *)
Definition folder_definition : SchemaBody :=
  mkSchemaBody
    (Some [("name", mkProperty (Some "string") None None);
           ("parent", mkProperty None None (Some "#/definitions/folder"))])
    None None None None.

Definition cyclic_definitions : dict SchemaBody := [("folder", folder_definition)].

End Examples.

(* ------------------------------------------------------------------ *)
(** * Properties *)

Unset Implicit Arguments.

Import AnsibleModuleBase Index Idempotence.

(** ** Order of strings *)

Lemma ascii_compare_refl (a : ascii) : Ascii.compare a a = Eq.
Proof. unfold Ascii.compare. apply N.compare_refl. Qed.

Lemma ascii_compare_lt_trans (a b c : ascii) :
  Ascii.compare a b = Lt -> Ascii.compare b c = Lt -> Ascii.compare a c = Lt.
Proof.
  unfold Ascii.compare. rewrite !N.compare_lt_iff. apply N.lt_trans.
Qed.

Lemma string_compare_refl (a : string) : (a ?= a) = Eq.
Proof. induction a as [|x a IH]; simpl; [reflexivity|]. now rewrite ascii_compare_refl. Qed.

Lemma string_compare_lt_trans (a b c : string) :
  (a ?= b) = Lt -> (b ?= c) = Lt -> (a ?= c) = Lt.
Proof.
  revert b c. induction a as [|x a IH]; intros [|y b] [|z c]; simpl; try congruence.
  destruct (Ascii.compare x y) eqn:Hxy; try discriminate;
    destruct (Ascii.compare y z) eqn:Hyz; try discriminate; intros H1 H2.
  - apply Ascii.compare_eq_iff in Hxy, Hyz. subst.
    rewrite ascii_compare_refl. eauto.
  - apply Ascii.compare_eq_iff in Hxy. subst. now rewrite Hyz.
  - apply Ascii.compare_eq_iff in Hyz. subst. now rewrite Hxy.
  - now rewrite (ascii_compare_lt_trans _ _ _ Hxy Hyz).
Qed.

Lemma ltb_asym (a b : string) : (a <? b) = true -> (b <? a) = false.
Proof.
  unfold String.ltb. rewrite (String.compare_antisym a b).
  destruct (b ?= a); simpl; congruence.
Qed.

Lemma ltb_irrefl (a : string) : (a <? a) = false.
Proof. unfold String.ltb. now rewrite string_compare_refl. Qed.

Lemma ltb_trans (a b c : string) : (a <? b) = true -> (b <? c) = true -> (a <? c) = true.
Proof.
  unfold String.ltb. intros H1 H2.
  destruct (a ?= b) eqn:Hab; try discriminate.
  destruct (b ?= c) eqn:Hbc; try discriminate.
  now rewrite (string_compare_lt_trans _ _ _ Hab Hbc).
Qed.

Lemma ltb_antisym (a b : string) : (b <? a) = false -> (a <? b) = false -> a = b.
Proof.
  unfold String.ltb. rewrite (String.compare_antisym a b).
  destruct (b ?= a) eqn:Hba; simpl; try discriminate.
  intros _ _. symmetry. now apply String.compare_eq_iff.
Qed.

Lemma ltb_total (a b : string) : a <> b -> (a <? b) = true \/ (b <? a) = true.
Proof.
  intros Hne. destruct (a <? b) eqn:H1; [now left|].
  destruct (b <? a) eqn:H2; [now right|].
  exfalso. apply Hne. now apply ltb_antisym.
Qed.

Lemma geb_trans (a b c : string) :
  (b <? a) = false -> (c <? b) = false -> (c <? a) = false.
Proof.
  intros H1 H2. destruct (c <? a) eqn:H; [|reflexivity].
  destruct (string_dec a b) as [->|Hab]; [congruence|].
  destruct (ltb_total a b Hab) as [Hlt|Hlt]; [|congruence].
  rewrite (ltb_trans _ _ _ H Hlt) in H2. discriminate.
Qed.

(** ** Sorting *)

Section Sorting.

Variable A : Type.
Variable lt : A -> A -> bool.

Hypothesis lt_asym : forall a b, lt a b = true -> lt b a = false.
Hypothesis le_trans : forall a b c, le_of lt a b -> le_of lt b c -> le_of lt a c.

Lemma insert_perm (x : A) (l : list A) : Permutation (PyList.insert lt x l) (x :: l).
Proof.
  induction l as [|y l IH]; simpl; [reflexivity|].
  destruct (lt y x); [|reflexivity].
  rewrite IH. apply perm_swap.
Qed.

Lemma sorted_perm (l : list A) : Permutation (PyList.sorted lt l) l.
Proof.
  induction l as [|x l IH]; simpl; [reflexivity|].
  rewrite insert_perm. now constructor.
Qed.

Lemma insert_sorted (x : A) (l : list A) :
  StronglySorted (le_of lt) l -> StronglySorted (le_of lt) (PyList.insert lt x l).
Proof.
  induction 1 as [|y l Hs IH Hy]; simpl.
  - repeat constructor.
  - destruct (lt y x) eqn:Hyx.
    + constructor; [assumption|].
      rewrite Forall_forall in *. intros z Hz.
      apply (Permutation_in _ (insert_perm x l)) in Hz.
      destruct Hz as [<-|Hz]; [now apply lt_asym|now apply Hy].
    + constructor; [now constructor|].
      constructor; [exact Hyx|].
      rewrite Forall_forall in *. intros z Hz.
      apply le_trans with y; [exact Hyx|now apply Hy].
Qed.

Lemma sorted_sorted (l : list A) : StronglySorted (le_of lt) (PyList.sorted lt l).
Proof.
  induction l as [|x l IH]; simpl; [constructor|now apply insert_sorted].
Qed.

Lemma insert_least (x : A) (l : list A) :
  Forall ((le_of lt) x) l -> PyList.insert lt x l = x :: l.
Proof.
  destruct l as [|y l]; simpl; [reflexivity|].
  intros H. inversion H; subst. unfold le_of in *. now rewrite H2.
Qed.

Lemma sorted_of_sorted (l : list A) : StronglySorted (le_of lt) l -> PyList.sorted lt l = l.
Proof.
  induction 1 as [|x l Hs IH Hx]; simpl; [reflexivity|].
  rewrite IH. now apply insert_least.
Qed.

Lemma sorted_unique (l1 l2 : list A) :
  (forall a b, In a l1 -> In b l1 -> le_of lt a b -> le_of lt b a -> a = b) ->
  StronglySorted (le_of lt) l1 -> StronglySorted (le_of lt) l2 ->
  Permutation l1 l2 -> l1 = l2.
Proof.
  revert l2. induction l1 as [|a l1 IH]; intros l2 Hanti H1 H2 Hp.
  - apply Permutation_nil in Hp. now subst.
  - destruct l2 as [|b l2]; [apply Permutation_sym, Permutation_nil in Hp; discriminate|].
    inversion H1 as [|? ? Hs1 Ha]; subst. inversion H2 as [|? ? Hs2 Hb]; subst.
    rewrite Forall_forall in Ha, Hb.
    assert (Hab : a = b).
    { assert (Hin_a : In a (b :: l2)) by (apply (Permutation_in _ Hp); now left).
      assert (Hin_b : In b (a :: l1))
        by (apply (Permutation_in _ (Permutation_sym Hp)); now left).
      destruct Hin_a as [->|Hin_a]; [reflexivity|].
      destruct Hin_b as [->|Hin_b]; [reflexivity|].
      apply Hanti; [now left|now right|now apply Ha|now apply Hb]. }
    subst b. f_equal. apply IH; try assumption.
    + intros x y Hx Hy. apply Hanti; now right.
    + now apply Permutation_cons_inv in Hp.
Qed.

Lemma sorted_permutation_invariant (l1 l2 : list A) :
  (forall a b, In a l1 -> In b l1 -> le_of lt a b -> le_of lt b a -> a = b) ->
  Permutation l1 l2 -> PyList.sorted lt l1 = PyList.sorted lt l2.
Proof.
  intros Hanti Hp. apply sorted_unique.
  - intros a b Ha Hb. apply Hanti; eapply Permutation_in; try eassumption;
      apply sorted_perm.
  - apply sorted_sorted.
  - apply sorted_sorted.
  - rewrite !sorted_perm. exact Hp.
Qed.

End Sorting.

Lemma sorted_strings_sorted (l : list string) :
  StronglySorted (le_of String.ltb) (PyList.sorted String.ltb l).
Proof. apply sorted_sorted; [exact ltb_asym|]. intros a b c. apply geb_trans. Qed.

Lemma sorted_strings_invariant (l1 l2 : list string) :
  Permutation l1 l2 -> PyList.sorted String.ltb l1 = PyList.sorted String.ltb l2.
Proof.
  apply sorted_permutation_invariant; [exact ltb_asym| |].
  - intros a b c. apply geb_trans.
  - intros a b _ _. unfold le_of. intros H1 H2. now apply ltb_antisym.
Qed.

Example path_to_name_ex1 :
  path_to_name "/data/vm/{vm}/guest/networking-interfaces" = "vm_by_vm_guest_networking_interfaces".
Proof. reflexivity. Qed.

Example path_to_name_ex2 :
  path_to_name "/com/vmware/cis/tagging/tag/id:{tag_id}?~action=add-to-used-by"
  = "com_vmware_cis_tagging_tag_by_id_tag_id".
Proof. reflexivity. Qed.

Lemma name_lt_asym (a b : Descriptor) : name_lt a b = true -> name_lt b a = false.
Proof. apply ltb_asym. Qed.

Lemma name_le_trans (a b c : Descriptor) :
  le_of name_lt a b -> le_of name_lt b c -> le_of name_lt a c.
Proof. unfold le_of, name_lt. apply geb_trans. Qed.

Lemma sorted_by_name_sorted (l : list Descriptor) :
  StronglySorted (le_of name_lt) (PyList.sorted name_lt l).
Proof. apply sorted_sorted; [exact name_lt_asym|exact name_le_trans]. Qed.

(** ** Resource namer *)

Lemma lower_ascii_colon (a : ascii) :
  Ascii.eqb (Py.lower_ascii a) ":" = Ascii.eqb a ":".
Proof. destruct a as [[] [] [] [] [] [] [] []]; reflexivity. Qed.

Lemma lower_replace_colon (s : string) :
  Py.lower (Py.replace ":" "_" s) = Py.replace ":" "_" (Py.lower s).
Proof.
  induction s as [|a s IH]; simpl; [reflexivity|].
  rewrite lower_ascii_colon.
  destruct (Ascii.eqb a ":"); simpl; now rewrite IH.
Qed.

Lemma is_empty_length (i : string) : (i =? "") = (String.length i =? 0)%nat.
Proof. destruct i; reflexivity. Qed.

Lemma drop_data_inline (l : list string) :
  NamerSpec.drop_data l =
  match l with
  | first :: rest => if first =? "data" then rest else l
  | [] => l
  end.
Proof.
  destruct l as [|first rest]; simpl; [reflexivity|].
  now rewrite String.eqb_sym.
Qed.

(** C7 (as the claim words it, against the code): on a path with a query
    part the described algorithm and [path_to_name] give different
    names. *)
Lemma path_to_name_spec_differs :
  path_to_name "/vcenter/vm?~action=list"
  <> NamerSpec.path_to_name_spec "/vcenter/vm?~action=list".
Proof. vm_compute. discriminate. Qed.

(** C7 (amended): [path_to_name] is the described algorithm run on the
    part of the path before the first [?], followed by the replacement of
    every remaining [:] by [_]; the two named cases hold.  The name is a
    function of the path alone. *)
Theorem path_to_name_refines (p : string) :
  path_to_name p
  = Py.replace ":" "_" (NamerSpec.path_to_name_spec (hd "" (Py.split "?" p)))
  /\ path_to_name "/vcenter/vm" = "vcenter_vm"
  /\ path_to_name "/data/vcenter/vm" = "vcenter_vm".
Proof.
  split; [|split; reflexivity].
  unfold path_to_name, NamerSpec.path_to_name_spec, NamerSpec.segments.
  rewrite lower_replace_colon. do 2 f_equal. f_equal. f_equal.
  rewrite drop_data_inline.
  erewrite filter_ext; [reflexivity|].
  intros i. simpl. now rewrite is_empty_length.
Qed.

(** ** Error monad *)

Lemma mapM_Forall2 {A B : Type} (f : A -> pyresult B) (R : A -> B -> Prop) (l : list A) :
  (forall a b, In a l -> f a = Ok b -> R a b) ->
  forall bs, mapM f l = Ok bs -> Forall2 R l bs.
Proof.
  induction l as [|a l IH]; simpl; intros HR bs H.
  - inversion H. constructor.
  - destruct (f a) as [b|e] eqn:Hfa; simpl in H; [|discriminate].
    destruct (mapM f l) as [bs'|e] eqn:Hl; simpl in H; [|discriminate].
    inversion H; subst. constructor; [now apply HR; auto|].
    apply IH; auto.
Qed.

Lemma mapM_total {A B : Type} (f : A -> pyresult B) (l : list A) :
  (forall a, In a l -> exists b, f a = Ok b) -> exists bs, mapM f l = Ok bs.
Proof.
  induction l as [|a l IH]; simpl; intros H; [now eexists|].
  destruct (H a) as [b Hb]; [now left|]. rewrite Hb. simpl.
  destruct IH as [bs Hbs]; [intros; apply H; now right|].
  rewrite Hbs. simpl. now eexists.
Qed.

Lemma mapM_app {A B : Type} (f : A -> pyresult B) (l1 l2 : list A) :
  mapM f (l1 ++ l2)%list
  = (a <- mapM f l1 ;; b <- mapM f l2 ;; Ok (a ++ b)%list).
Proof.
  induction l1 as [|x l1 IH]; simpl.
  - destruct (mapM f l2); reflexivity.
  - destruct (f x); simpl; [|reflexivity].
    rewrite IH. destruct (mapM f l1); simpl; [|reflexivity].
    destruct (mapM f l2); reflexivity.
Qed.

Lemma mapM_In {A B : Type} (f : A -> pyresult B) (l : list A) (bs : list B) (a : A) :
  mapM f l = Ok bs -> In a l -> exists b, f a = Ok b /\ In b bs.
Proof.
  revert bs. induction l as [|x l IH]; simpl; intros bs H Hin; [destruct Hin|].
  destruct (f x) as [b|e] eqn:Hfx; simpl in H; [|discriminate].
  destruct (mapM f l) as [bs'|e] eqn:Hl; simpl in H; [|discriminate].
  inversion H; subst. destruct Hin as [->|Hin].
  - exists b. split; [assumption|now left].
  - destruct (IH bs' eq_refl Hin) as [b' [H1 H2]]. exists b'. split; [assumption|now right].
Qed.

(** ** Schema flattener *)


Lemma mem_In (x : string) (l : list string) : PyList.mem x l = true <-> In x l.
Proof.
  unfold PyList.mem. rewrite existsb_exists. split.
  - intros [y [Hy E]]. apply String.eqb_eq in E. now subst.
  - intros H. exists x. split; [assumption|apply String.eqb_refl].
Qed.

Lemma _property_to_parameter_unfold (fuel : nat) (prop_struct : SchemaBody)
    (definitions : dict SchemaBody) :
  _property_to_parameter fuel prop_struct definitions =
  match d_properties prop_struct with
  | None => Ok []
  | Some properties =>
      mapM (expand_property
              match fuel with
              | O => None
              | S fuel' => Some (fun ref => _property_to_parameter fuel' ref definitions)
              end
              definitions (or_default (d_required prop_struct) []))
           properties
  end.
Proof. destruct fuel; reflexivity. Qed.

Lemma expand_property_expands recurse definitions required_keys item d :
  expand_property recurse definitions required_keys item = Ok d ->
  Expansion.expands definitions required_keys item d.
Proof.
  destruct item as [name v]. unfold expand_property, Expansion.expands. simpl.
  destruct (v_ref v) as [r|].
  - destruct (Definitions.get definitions r) as [ref|e]; simpl; [|discriminate].
    destruct (d_properties ref) as [props|] eqn:Hprops.
    + destruct recurse as [rec|]; [|discriminate].
      destruct (rec ref) as [subs|e]; simpl; [|discriminate].
      intros H. inversion H; subst; clear H. simpl.
      split; [reflexivity|]. exists ref. split; [reflexivity|]. rewrite Hprops.
      repeat split; try (eexists; split; [reflexivity|apply mem_In]).
      eexists. split; [reflexivity|apply sorted_by_name_sorted].
    + intros H. inversion H; subst; clear H.
      split.
      * unfold copy_items.
        destruct (d_required ref), (d_type ref), (d_description ref), (d_enum ref);
          reflexivity.
      * exists ref. rewrite Hprops. now split.
  - intros H. inversion H; subst; clear H. simpl.
    repeat split. eexists; split; [reflexivity|apply mem_In].
Qed.

(** C4 (as stated): a property that declares no type does not get the
    type ["string"]. *)
Lemma property_default_type_is_not_string :
  exists d,
    _property_to_parameter 0 Examples.untyped_schema [] = Ok [d]
    /\ p_name d = "comment"
    /\ p_type d <> Some "string".
Proof. eexists. split; [reflexivity|]. split; [reflexivity|]. discriminate. Qed.

(** C4 (amended): the expansion of a schema with a properties table, when
    it returns, yields one descriptor per property, in the order of the
    table and named after the property.  A property that is not a
    reference gets its declared type, ["str"] when it declares none, its
    declared description, empty when it declares none, and [required] true
    exactly when its name is in the schema's [required] list; a reference
    to an object schema gets the type ["dict"] and subkeys in increasing
    order of their names; a reference to
    another definition takes over the keys of that definition.  When no
    property is a reference the expansion always returns. *)
Theorem property_expansion (fuel : nat) (schema : SchemaBody)
    (definitions : dict SchemaBody) (properties : dict Property) :
  d_properties schema = Some properties ->
  (forall ds, _property_to_parameter fuel schema definitions = Ok ds ->
     Forall2 (Expansion.expands definitions (or_default (d_required schema) []))
             properties ds)
  /\ (Forall Expansion.plain properties ->
      exists ds, _property_to_parameter fuel schema definitions = Ok ds).
Proof.
  intros Hp. rewrite _property_to_parameter_unfold, Hp. split.
  - intros ds H. eapply mapM_Forall2; [|exact H].
    intros a b _. apply expand_property_expands.
  - intros Hplain. apply mapM_total. intros [name v] Hin.
    rewrite Forall_forall in Hplain. specialize (Hplain _ Hin).
    unfold Expansion.plain in Hplain. simpl in Hplain.
    unfold expand_property. rewrite Hplain. now eexists.
Qed.

Lemma property_expansion_witness :
  exists ds,
    _property_to_parameter 0 Examples.spec_definition [] = Ok ds
    /\ Forall2 (Expansion.expands [] ["name"])
               [("name", mkProperty (Some "string") None None);
                ("tags", mkProperty (Some "array") None None)] ds.
Proof.
  destruct (@property_expansion 0 Examples.spec_definition [] _ eq_refl) as [H1 H2].
  destruct H2 as [ds Hds].
  - repeat constructor.
  - exists ds. split; [exact Hds|]. apply (H1 ds Hds).
Defined.

(** C10: a raw parameter whose schema refers to a definition without a
    properties table contributes nothing: the expansion of that
    definition is the empty sequence, not an error, and the flattening of
    a parameter list is the same with or without the parameter. *)
Theorem reference_without_properties_is_dropped
    (fuel : nat) (definitions : dict SchemaBody) (i : Descriptor)
    (sch : Schema) (r : string) (schema : SchemaBody) (before after : list Descriptor) :
  p_schema i = Some sch ->
  s_ref sch = Some r ->
  Definitions.get definitions r = Ok schema ->
  d_properties schema = None ->
  _property_to_parameter fuel schema definitions = Ok []
  /\ _flatten_parameter fuel [i] definitions = Ok []
  /\ _flatten_parameter fuel (before ++ i :: after)%list definitions
     = _flatten_parameter fuel (before ++ after)%list definitions.
Proof.
  intros Hs Hr Hget Hp.
  assert (H0 : _property_to_parameter fuel schema definitions = Ok []).
  { rewrite _property_to_parameter_unfold, Hp. reflexivity. }
  assert (H1 : flatten_one fuel definitions i = Ok []).
  { unfold flatten_one. rewrite Hs, Hr, Hget. exact H0. }
  split; [exact H0|]. split.
  - unfold _flatten_parameter. simpl. rewrite H1. reflexivity.
  - unfold _flatten_parameter. rewrite !mapM_app. simpl. rewrite H1. simpl.
    destruct (mapM (flatten_one fuel definitions) before) as [a|e]; simpl; [|reflexivity].
    destruct (mapM (flatten_one fuel definitions) after) as [b|e]; simpl; [|reflexivity].
    rewrite !concat_app. reflexivity.
Qed.

Lemma reference_without_properties_is_dropped_witness :
  _property_to_parameter 0 Examples.enum_definition Examples.enum_definitions = Ok []
  /\ _flatten_parameter 0 [Examples.enum_parameter] Examples.enum_definitions = Ok []
  /\ _flatten_parameter 0 ([Examples.raw "vm"] ++ Examples.enum_parameter :: [])%list
       Examples.enum_definitions
     = _flatten_parameter 0 ([Examples.raw "vm"] ++ [])%list Examples.enum_definitions.
Proof.
  apply (@reference_without_properties_is_dropped 0 Examples.enum_definitions
           Examples.enum_parameter (Examples.reference "#/definitions/power_state")
           "#/definitions/power_state" Examples.enum_definition);
    reflexivity.
Defined.

(** C5: a raw parameter named [spec] whose schema refers to the
    definition with the properties [name] (string, required) and [tags]
    (array) is flattened into exactly the two descriptors [name], required,
    and [tags], not required; what the merge loop receives for an
    operation with that parameter list are the same two descriptors, none
    of them named [spec]. *)
Theorem spec_reference_is_flattened
    (fuel : nat) (self : AnsibleModuleBase.t) (operationId : string) (op : Operation)
    (i : Descriptor) (sch : Schema) (r : string) :
  p_name i = "spec" ->
  p_schema i = Some sch ->
  s_ref sch = Some r ->
  Definitions.get (definitions self) r = Ok Examples.spec_definition ->
  dict_get operationId (r_operations (resource self)) = Some op ->
  o_parameters op = [i] ->
  _flatten_parameter fuel [i] (definitions self)
  = Ok [Examples.name_descriptor; Examples.tags_descriptor]
  /\ itera fuel self operationId
     = Ok [Examples.name_descriptor; Examples.tags_descriptor]
  /\ p_required Examples.name_descriptor = Some (ReqBool true)
  /\ p_required Examples.tags_descriptor = Some (ReqBool false)
  /\ forall d, In d [Examples.name_descriptor; Examples.tags_descriptor] ->
               p_name d <> "spec".
Proof.
  intros _ Hs Hr Hget Hop Hpar.
  assert (H : _flatten_parameter fuel [i] (definitions self)
              = Ok [Examples.name_descriptor; Examples.tags_descriptor]).
  { unfold _flatten_parameter, flatten_one. simpl. rewrite Hs, Hr, Hget. simpl.
    rewrite _property_to_parameter_unfold. reflexivity. }
  split; [exact H|]. split.
  - unfold itera. rewrite Hop, Hpar, H. reflexivity.
  - split; [reflexivity|]. split; [reflexivity|].
    intros d [<-|[<-|[]]]; discriminate.
Qed.

Lemma spec_reference_is_flattened_witness :
  _flatten_parameter 0 [Examples.spec_parameter] Examples.spec_definitions
  = Ok [Examples.name_descriptor; Examples.tags_descriptor]
  /\ itera 0 Examples.spec_module "post"
     = Ok [Examples.name_descriptor; Examples.tags_descriptor].
Proof.
  destruct (@spec_reference_is_flattened 0 Examples.spec_module "post"
              Examples.spec_operation Examples.spec_parameter
              (Examples.reference "#/definitions/vm_create_spec")
              "#/definitions/vm_create_spec"
              eq_refl eq_refl eq_refl eq_refl eq_refl eq_refl) as [H1 [H2 _]].
  split; [exact H1|exact H2].
Defined.

(** ** Dictionaries *)

Lemma dict_get_set_same {V : Type} (k : string) (v : V) (d : dict V) :
  dict_get k (dict_set k v d) = Some v.
Proof.
  induction d as [|[k' v'] d IH]; simpl.
  - now rewrite String.eqb_refl.
  - destruct (k' =? k) eqn:E; simpl; [now rewrite String.eqb_refl|now rewrite E].
Qed.

Lemma dict_set_set {V : Type} (k : string) (v v' : V) (d : dict V) :
  dict_set k v (dict_set k v' d) = dict_set k v d.
Proof.
  induction d as [|[k0 v0] d IH]; simpl.
  - now rewrite String.eqb_refl.
  - destruct (k0 =? k) eqn:E; simpl.
    + now rewrite String.eqb_refl.
    + now rewrite E, IH.
Qed.

Lemma dict_get_set_other {V : Type} (k k0 : string) (v : V) (d : dict V) :
  k0 <> k -> dict_get k0 (dict_set k v d) = dict_get k0 d.
Proof.
  intros Hne. induction d as [|[k' v'] d IH]; simpl.
  - destruct (String.eqb_spec k k0); [congruence|reflexivity].
  - destruct (String.eqb_spec k' k) as [->|Hk]; simpl.
    + destruct (String.eqb_spec k k0); [congruence|reflexivity].
    + destruct (k' =? k0); [reflexivity|exact IH].
Qed.

Lemma dict_get_In {V : Type} (k : string) (v : V) (d : dict V) :
  dict_get k d = Some v -> In (k, v) d.
Proof.
  induction d as [|[k' v'] d IH]; simpl; [discriminate|].
  destruct (String.eqb_spec k' k) as [->|Hk].
  - intros H. inversion H. now left.
  - intros H. right. now apply IH.
Qed.

Lemma dict_get_None {V : Type} (k : string) (d : dict V) :
  dict_get k d = None -> ~ In k (dict_keys d).
Proof.
  induction d as [|[k' v'] d IH]; simpl; [tauto|].
  destruct (String.eqb_spec k' k) as [->|Hk]; [discriminate|].
  intros H [E|Hin]; [congruence|now apply IH].
Qed.

Lemma In_dict_get {V : Type} (k : string) (v : V) (d : dict V) :
  NoDup (dict_keys d) -> In (k, v) d -> dict_get k d = Some v.
Proof.
  induction d as [|[k' v'] d IH]; simpl; [tauto|].
  intros Hnd [E|Hin].
  - inversion E; subst. now rewrite String.eqb_refl.
  - inversion Hnd; subst.
    destruct (String.eqb_spec k' k) as [->|Hk]; [|now apply IH].
    exfalso. apply H1. change k with (fst (k, v)). now apply in_map.
Qed.

Lemma In_dict_set {V : Type} (k k0 : string) (v v0 : V) (d : dict V) :
  In (k0, v0) (dict_set k v d) -> (k0 = k /\ v0 = v) \/ (k0 <> k /\ In (k0, v0) d)
                                  \/ (k0 = k /\ In (k0, v0) d).
Proof.
  induction d as [|[k' v'] d IH]; simpl.
  - intros [E|[]]. inversion E. now left.
  - destruct (String.eqb_spec k' k) as [->|Hk]; simpl.
    + intros [E|Hin]; [inversion E; now left|].
      destruct (string_dec k0 k) as [->|Hne]; [right; right|right; left]; auto.
    + intros [E|Hin].
      * inversion E; subst. right. left. auto.
      * destruct (IH Hin) as [H|[[H1 H2]|[H1 H2]]]; auto.
Qed.

Lemma dict_keys_set {V : Type} (k : string) (v : V) (d : dict V) :
  dict_keys (dict_set k v d)
  = if dict_has k d then dict_keys d else (dict_keys d ++ [k])%list.
Proof.
  unfold dict_has. induction d as [|[k' v'] d IH]; simpl; [reflexivity|].
  destruct (String.eqb_spec k' k) as [->|Hk]; simpl; [reflexivity|].
  rewrite IH. now destruct (dict_get k d).
Qed.

Lemma dict_set_NoDup {V : Type} (k : string) (v : V) (d : dict V) :
  NoDup (dict_keys d) -> NoDup (dict_keys (dict_set k v d)).
Proof.
  intros Hnd. rewrite dict_keys_set. unfold dict_has.
  destruct (dict_get k d) eqn:E; [assumption|].
  apply dict_get_None in E.
  apply (Permutation_NoDup (l := k :: dict_keys d)).
  - apply Permutation_cons_append.
  - now constructor.
Qed.

Lemma In_dict_set_NoDup {V : Type} (k k0 : string) (v v0 : V) (d : dict V) :
  NoDup (dict_keys d) ->
  In (k0, v0) (dict_set k v d) -> (k0 = k /\ v0 = v) \/ (k0 <> k /\ In (k0, v0) d).
Proof.
  intros Hnd Hin.
  assert (Hnd' := dict_set_NoDup k v d Hnd).
  apply In_dict_get in Hin; [|assumption].
  destruct (string_dec k0 k) as [->|Hne].
  - rewrite dict_get_set_same in Hin. inversion Hin. now left.
  - rewrite dict_get_set_other in Hin by assumption.
    right. split; [assumption|now apply dict_get_In].
Qed.

Lemma foldM_invariant {A S : Type} (f : S -> A -> pyresult S) (P : S -> Prop) (l : list A) :
  (forall s a s', In a l -> P s -> f s a = Ok s' -> P s') ->
  forall s s', P s -> foldM f l s = Ok s' -> P s'.
Proof.
  induction l as [|a l IH]; simpl; intros Hf s s' Hs H.
  - inversion H; now subst.
  - destruct (f s a) as [s1|e] eqn:E; simpl in H; [|discriminate].
    apply (IH (fun s a s' Hin => Hf s a s' (or_intror Hin)) s1 s'); [|assumption].
    eapply Hf; eauto.
Qed.

(** ** Parameter merger: one step *)

Lemma set_operationIds_name o p : p_name (set_operationIds o p) = p_name p.
Proof. reflexivity. Qed.

Lemma merge_description_name stored parameter :
  p_name (merge_description stored parameter) = p_name stored.
Proof.
  unfold merge_description.
  destruct (p_description parameter); [|reflexivity].
  destruct (p_description stored); [|reflexivity].
  destruct (negb _); [|reflexivity]. now destruct (_ <? _)%nat.
Qed.

Lemma merge_description_operationIds stored parameter :
  p_operationIds (merge_description stored parameter) = p_operationIds stored.
Proof.
  unfold merge_description.
  destruct (p_description parameter); [|reflexivity].
  destruct (p_description stored); [|reflexivity].
  destruct (negb _); [|reflexivity]. now destruct (_ <? _)%nat.
Qed.

Lemma merge_enum_name stored parameter :
  p_name (merge_enum stored parameter) = p_name stored.
Proof.
  unfold merge_enum. destruct (p_enum parameter); [|reflexivity].
  now destruct (p_enum stored).
Qed.

Lemma merge_enum_operationIds stored parameter :
  p_operationIds (merge_enum stored parameter) = p_operationIds stored.
Proof.
  unfold merge_enum. destruct (p_enum parameter); [|reflexivity].
  now destruct (p_enum stored).
Qed.



(** The step on a name that is already stored. *)
Lemma merge_parameter_seen operationId results parameter stored ids :
  dict_get (p_name parameter) results = Some stored ->
  p_operationIds stored = Some ids ->
  merge_parameter operationId results parameter
  = Ok (dict_set (p_name parameter)
          (set_operationIds
             (Some (PyList.sorted String.ltb (ids ++ [operationId])%list))
             (merge_enum (merge_description stored parameter) parameter))
          results).
Proof.
  intros Hget Hids. unfold merge_parameter, dict_has. rewrite Hget. simpl.
  rewrite Hget. rewrite merge_enum_operationIds, merge_description_operationIds, Hids.
  reflexivity.
Qed.

(** The step on a name seen for the first time. *)
Lemma merge_parameter_first operationId results parameter :
  dict_get (p_name parameter) results = None ->
  merge_parameter operationId results parameter
  = Ok (dict_set (p_name parameter)
          (set_operationIds (Some [operationId])
             (merge_enum (set_operationIds (Some []) parameter) parameter))
          results).
Proof.
  intros Hget. unfold merge_parameter, dict_has. rewrite Hget. simpl.
  rewrite dict_get_set_same.
  assert (Hd : merge_description (set_operationIds (Some []) parameter)
                 (set_operationIds (Some []) parameter)
               = set_operationIds (Some []) parameter).
  { unfold merge_description. simpl. destruct (p_description parameter); [|reflexivity].
    now rewrite String.eqb_refl. }
  rewrite Hd.
  assert (He : merge_enum (set_operationIds (Some []) parameter)
                 (set_operationIds (Some []) parameter)
               = merge_enum (set_operationIds (Some []) parameter) parameter)
    by reflexivity.
  rewrite He, merge_enum_operationIds. simpl.
  now rewrite dict_set_set.
Qed.

(** ** Enumerations of a set *)


Lemma enumerates_permutation (elems order : list string) :
  NoDup elems -> enumerates elems order -> Permutation order elems.
Proof. intros Hnd [Hnd' Hin]. now apply NoDup_Permutation. Qed.

(** ** Parameter merger: the claims on one step *)



(** ** Parameter merger: the closing loop *)

Lemma sorted_set_spec (l : list string) :
  StronglySorted (le_of String.ltb) (PyList.sorted_set l)
  /\ NoDup (PyList.sorted_set l)
  /\ forall x, In x (PyList.sorted_set l) <-> In x l.
Proof.
  unfold PyList.sorted_set.
  assert (Hp := sorted_perm string String.ltb (nodup string_dec l)).
  split; [apply sorted_strings_sorted|]. split.
  - apply (Permutation_NoDup (Permutation_sym Hp)). apply NoDup_nodup.
  - intros x. rewrite <- (nodup_In string_dec l x). split; apply Permutation_in;
      [exact Hp|exact (Permutation_sym Hp)].
Qed.





(** ** Parameter merger: invariant of the results table *)

Lemma well_formed_set (results : dict Descriptor) (v : Descriptor) :
  well_formed results -> p_operationIds v <> None ->
  well_formed (dict_set (p_name v) v results).
Proof.
  intros [Hnd Hall] Hv. split; [now apply dict_set_NoDup|].
  intros k0 v0 Hin. apply In_dict_set_NoDup in Hin; [|assumption].
  destruct Hin as [[-> ->]|[_ Hin]]; [now split|now apply Hall].
Qed.

Lemma merge_parameter_well_formed operationId results parameter :
  well_formed results ->
  exists results',
    merge_parameter operationId results parameter = Ok results'
    /\ well_formed results'.
Proof.
  intros Hwf. destruct (dict_get (p_name parameter) results) as [stored|] eqn:Hget.
  - destruct Hwf as [Hnd Hall].
    destruct (Hall _ _ (dict_get_In _ _ _ Hget)) as [Hname Hids].
    destruct (p_operationIds stored) as [ids|] eqn:E; [|congruence].
    rewrite (@merge_parameter_seen operationId results parameter stored ids Hget E).
    eexists. split; [reflexivity|].
    set (kept := set_operationIds _ _).
    assert (Hk : p_name kept = p_name parameter).
    { subst kept. simpl. now rewrite merge_enum_name, merge_description_name. }
    rewrite <- Hk. apply well_formed_set; [now split|]. subst kept. discriminate.
  - rewrite (@merge_parameter_first operationId results parameter Hget).
    eexists. split; [reflexivity|].
    set (kept := set_operationIds _ _).
    assert (Hk : p_name kept = p_name parameter).
    { subst kept. simpl. now rewrite merge_enum_name. }
    rewrite <- Hk. apply well_formed_set; [assumption|]. subst kept. discriminate.
Qed.

Lemma foldM_merge_parameter_well_formed operationId ordered results :
  well_formed results ->
  exists results',
    foldM (merge_parameter operationId) ordered results = Ok results'
    /\ well_formed results'.
Proof.
  revert results. induction ordered as [|p l IH]; simpl; intros results Hwf.
  - now exists results.
  - destruct (merge_parameter_well_formed operationId results p Hwf) as [r1 [H1 Hwf1]].
    rewrite H1. simpl. now apply IH.
Qed.

Lemma merge_operation_well_formed fuel self results operationId results' :
  well_formed results ->
  merge_operation fuel self results operationId = Ok results' ->
  well_formed results'.
Proof.
  intros Hwf. unfold merge_operation.
  destruct (negb _); [intros H; inversion H; now subst|].
  destruct (itera fuel self operationId) as [yielded|e]; simpl; [|discriminate].
  destruct (PyList.sortedM key_lt yielded) as [ordered|e]; simpl; [|discriminate].
  destruct (foldM_merge_parameter_well_formed operationId ordered results Hwf)
    as [r [H1 H2]].
  rewrite H1. intros H. inversion H. now subst.
Qed.

Lemma merged_well_formed fuel self results :
  merged fuel self = Ok results -> well_formed results.
Proof.
  unfold merged. apply foldM_invariant.
  - intros s a s' _. apply merge_operation_well_formed.
  - split; [constructor|]. intros k v [].
Qed.

Lemma finalize_name result result' :
  finalize result = Ok result' -> p_name result' = p_name result.
Proof.
  unfold finalize, required_to_sentence.
  set (r := collapse_enum result).
  assert (Hr : p_name r = p_name result).
  { subst r. unfold collapse_enum. destruct (p_enum result) as [[|? ?]|]; reflexivity. }
  destruct (truthy_required (p_required r)).
  - destruct (p_operationIds r); [|discriminate].
    intros H. inversion H. rewrite <- Hr. now destruct (p_description r).
  - intros H. inversion H. now subst.
Qed.

Lemma finalized_keys results results' :
  finalized results = Ok results' ->
  dict_keys results' = dict_keys results
  /\ forall k v, In (k, v) results' ->
       exists v0, In (k, v0) results /\ finalize v0 = Ok v.
Proof.
  unfold finalized. revert results'.
  induction results as [|[k0 v0] d IH]; simpl; intros results' H.
  - inversion H. split; [reflexivity|]. intros k v [].
  - destruct (finalize v0) as [v1|e] eqn:Hf; simpl in H; [|discriminate].
    destruct (mapM _ d) as [d'|e] eqn:Hd; simpl in H; [|discriminate].
    inversion H; subst. destruct (IH d' eq_refl) as [IH1 IH2]. simpl. split.
    + now rewrite IH1.
    + intros k v [E|Hin].
      * inversion E; subst. exists v0. split; [now left|assumption].
      * destruct (IH2 k v Hin) as [v2 [H1 H2]]. exists v2. split; [now right|assumption].
Qed.

Lemma finalized_names results results' :
  well_formed results -> finalized results = Ok results' ->
  NoDup (dict_keys results') /\ forall k v, In (k, v) results' -> p_name v = k.
Proof.
  intros [Hnd Hall] H. destruct (finalized_keys results results' H) as [Hk Hv].
  split; [now rewrite Hk|].
  intros k v Hin. destruct (Hv k v Hin) as [v0 [H0 Hf]].
  rewrite (finalize_name _ _ Hf). now apply Hall.
Qed.



Lemma filter_state_absent (results : dict Descriptor) :
  ~ In "state" (dict_keys results) ->
  (forall k v, In (k, v) results -> p_name v = k) ->
  filter is_state (dict_values results) = [].
Proof.
  induction results as [|[k v] d IH]; simpl; intros Hk Hall; [reflexivity|].
  assert (Hv : p_name v = k) by (apply Hall; now left).
  unfold is_state at 1. rewrite Hv.
  destruct (String.eqb_spec k "state") as [->|Hne]; [exfalso; apply Hk; now left|].
  apply IH; [tauto|]. intros k0 v0 H0. apply Hall. now right.
Qed.

(** The values of a table in which [state] has been stored hold exactly
    one descriptor named [state]. *)
Lemma filter_state_set (st : Descriptor) (results : dict Descriptor) :
  p_name st = "state" ->
  NoDup (dict_keys results) ->
  (forall k v, In (k, v) results -> p_name v = k) ->
  filter is_state (dict_values (dict_set "state" st results)) = [st].
Proof.
  intros Hst. induction results as [|[k v] d IH]; simpl; intros Hnd Hall.
  - unfold is_state. now rewrite Hst.
  - inversion Hnd as [|? ? Hk Hnd']; subst.
    assert (Hall' : forall k0 v0, In (k0, v0) d -> p_name v0 = k0)
      by (intros k0 v0 H0; apply Hall; now right).
    destruct (String.eqb_spec k "state") as [->|Hne]; simpl.
    + unfold is_state at 1. rewrite Hst. simpl. f_equal.
      now apply filter_state_absent.
    + unfold is_state at 1. rewrite (Hall k v (or_introl eq_refl)).
      apply String.eqb_neq in Hne. rewrite Hne. now apply IH.
Qed.

(** ** Parameter merger: the synthetic [state] parameter *)

Lemma filter_permutation {A : Type} (f : A -> bool) (l l' : list A) :
  Permutation l l' -> Permutation (filter f l) (filter f l').
Proof.
  induction 1 as [|x l l' _ IH|x y l|l l' l'' _ IH1 _ IH2]; simpl.
  - constructor.
  - destruct (f x); [now constructor|assumption].
  - destruct (f x), (f y); try reflexivity. apply perm_swap.
  - now transitivity (filter f l').
Qed.

(** C6: the list returned by [parameters] holds exactly one descriptor
    named [state], the synthetic one, also when an operation declares a
    parameter of that name; its default is ["present"], its type ["str"],
    its enum the operation identifiers in increasing order (for the
    operations get, delete and update: delete, get, update); and the
    returned list is in increasing order of the names. *)
Theorem state_parameter_once (fuel : nat) (self : AnsibleModuleBase.t) (l : list Descriptor) :
  parameters fuel self = Ok l ->
  filter is_state l = [state_parameter self]
  /\ p_default (state_parameter self) = Some "present"
  /\ p_type (state_parameter self) = Some "str"
  /\ (exists enum,
        p_enum (state_parameter self) = Some enum
        /\ StronglySorted (le_of String.ltb) enum
        /\ Permutation enum (default_operationIds self))
  /\ StronglySorted (le_of name_lt) l
  /\ (forall definitions order,
        AnsibleModule.valid_order Examples.three_resource order ->
        p_enum (state_parameter (AnsibleModule.init Examples.three_resource definitions order))
        = Some ["delete"; "get"; "update"]).
Proof.
  unfold parameters. intros H.
  destruct (merged fuel self) as [results|e] eqn:Hm; simpl in H; [|discriminate].
  destruct (finalized results) as [results'|e] eqn:Hf; simpl in H; [|discriminate].
  inversion H; subst l; clear H.
  destruct (finalized_names results results' (merged_well_formed fuel self results Hm) Hf)
    as [Hnd Hnames].
  split; [|split; [reflexivity|split; [reflexivity|split; [|split]]]].
  - apply Permutation_length_1_inv.
    rewrite <- (filter_state_set (state_parameter self) results' eq_refl Hnd Hnames).
    apply filter_permutation, Permutation_sym, sorted_perm.
  - eexists. split; [reflexivity|]. split; [apply sorted_strings_sorted|apply sorted_perm].
  - apply sorted_by_name_sorted.
  - intros definitions order Horder. simpl.
    apply enumerates_permutation in Horder.
    + rewrite (sorted_strings_invariant _ _ Horder). reflexivity.
    + simpl. repeat constructor; simpl; intuition discriminate.
Qed.

Lemma state_parameter_once_witness :
  exists l,
    parameters 0 (AnsibleModule.init Examples.three_resource [] ["update"; "get"; "delete"])
    = Ok l
    /\ filter is_state l
       = [mkDescriptor "state" (Some "str") None None None
            (Some ["delete"; "get"; "update"]) (Some "present") None None None]
    /\ StronglySorted (le_of name_lt) l.
Proof.
  eexists. split; [reflexivity|].
  destruct (state_parameter_once 0
              (AnsibleModule.init Examples.three_resource [] ["update"; "get"; "delete"])
              _ eq_refl) as [H1 [_ [_ [_ [H5 _]]]]].
  split; [exact H1|exact H5].
Defined.

(** ** Operation index *)


Lemma dict_has_In {V : Type} (k : string) (d : dict V) :
  dict_has k d = true <-> In k (dict_keys d).
Proof.
  unfold dict_has. induction d as [|[k' v'] d IH]; simpl.
  - split; [discriminate|tauto].
  - destruct (String.eqb_spec k' k) as [->|Hne].
    + split; auto.
    + rewrite IH. split; [auto|]. intros [E|H]; [congruence|assumption].
Qed.

Lemma In_keys_set {V : Type} (k k' : string) (v : V) (d : dict V) :
  In k' (dict_keys (dict_set k v d)) <-> In k' (dict_keys d) \/ k' = k.
Proof.
  rewrite dict_keys_set. destruct (dict_has k d) eqn:E.
  - apply dict_has_In in E. split; [auto|]. intros [H| ->]; assumption.
  - rewrite in_app_iff. simpl. intuition (subst; auto).
Qed.

Lemma registered_set resources name r verb v n v' :
  dict_get name resources = Some r ->
  registered (dict_set name (mkResource (r_name r) (dict_set verb v (r_operations r)))
                       resources) n v'
  <-> registered resources n v' \/ (n = name /\ v' = verb).
Proof.
  intros Hget. unfold registered. destruct (string_dec n name) as [->|Hne].
  - rewrite dict_get_set_same. split.
    + intros [r' [E Hin]]. inversion E; subst r'. simpl in Hin.
      apply In_keys_set in Hin. destruct Hin as [Hin| ->]; [left|right; auto].
      now exists r.
    + intros [[r' [E Hin]]|[_ ->]]; eexists; (split; [reflexivity|]); simpl;
        apply In_keys_set; [|now right].
      rewrite Hget in E. inversion E. subst r'. now left.
  - rewrite dict_get_set_other by assumption. split; [auto|].
    intros [H|[H _]]; [assumption|contradiction].
Qed.

Lemma register_loop name ops :
  NoDup (dict_keys ops) ->
  forall resources r,
    dict_get name resources = Some r ->
    ((exists verb, In verb (dict_keys ops) /\ registered resources name verb)
     /\ exists verb,
          foldM (SwaggerFile.register name) ops resources
          = Raise (DuplicateOperationError name verb))
    \/ (~ (exists verb, In verb (dict_keys ops) /\ registered resources name verb)
        /\ exists resources',
             foldM (SwaggerFile.register name) ops resources = Ok resources'
             /\ forall n v, registered resources' n v
                            <-> registered resources n v \/ (n = name /\ In v (dict_keys ops))).
Proof.
  induction ops as [|[verb v] ops IH]; simpl; intros Hnd resources r Hget.
  - right. split; [intros [verb [[] _]]|].
    exists resources. split; [reflexivity|]. intros n v. tauto.
  - inversion Hnd as [|? ? Hverb Hnd']; subst. rewrite Hget.
    destruct (dict_has verb (r_operations r)) eqn:Hhas.
    + left. split.
      * exists verb. split; [now left|]. exists r. split; [assumption|].
        now apply dict_has_In.
      * now exists verb.
    + simpl.
      set (resources1 := dict_set name _ resources).
      assert (Hreg : forall n v', registered resources1 n v'
                                  <-> registered resources n v' \/ (n = name /\ v' = verb))
        by (intros n v'; now apply registered_set).
      destruct (IH Hnd' resources1 _ (dict_get_set_same name _ resources))
        as [[[verb' [Hin Hr]] Hraise]|[Hno [resources' [Hok Hiff]]]].
      * left. split; [|exact Hraise].
        exists verb'. split; [now right|].
        apply Hreg in Hr. destruct Hr as [Hr|[_ ->]]; [assumption|contradiction].
      * right. split.
        -- intros [verb0 [[<-|Hin] Hr]].
           ++ destruct Hr as [r0 [E Hin0]]. rewrite Hget in E. inversion E; subst r0.
              apply dict_has_In in Hin0. congruence.
           ++ apply Hno. exists verb0. split; [assumption|]. apply Hreg. now left.
        -- exists resources'. split; [exact Hok|].
           intros n v0. rewrite Hiff, Hreg. intuition (subst; auto).
Qed.

Lemma index_path_step resources p :
  NoDup (dict_keys (operations p)) ->
  ((exists verb, In verb (dict_keys (operations p))
                 /\ registered resources (path_to_name (path p)) verb)
   /\ exists verb,
        SwaggerFile.index_path resources p
        = Raise (DuplicateOperationError (path_to_name (path p)) verb))
  \/ (~ (exists verb, In verb (dict_keys (operations p))
                      /\ registered resources (path_to_name (path p)) verb)
      /\ exists resources',
           SwaggerFile.index_path resources p = Ok resources'
           /\ forall n v, registered resources' n v
                          <-> registered resources n v
                              \/ (n = path_to_name (path p)
                                  /\ In v (dict_keys (operations p)))).
Proof.
  intros Hnd. unfold SwaggerFile.index_path, dict_has.
  set (name := path_to_name (path p)).
  destruct (dict_get name resources) as [r|] eqn:Hget.
  - now apply register_loop with (r := r).
  - set (resources0 := dict_set name (mkResource name []) resources).
    assert (Hreg : forall n v, registered resources0 n v <-> registered resources n v).
    { intros n v. unfold registered, resources0.
      destruct (string_dec n name) as [->|Hne].
      - rewrite dict_get_set_same, Hget. split.
        + intros [r [E Hin]]. inversion E; subst r. destruct Hin.
        + intros [r [E _]]. discriminate.
      - now rewrite dict_get_set_other. }
    destruct (register_loop name (operations p) Hnd resources0 _
                (dict_get_set_same name _ resources))
      as [[[verb [Hin Hr]] Hraise]|[Hno [resources' [Hok Hiff]]]].
    + left. split; [|exact Hraise]. exists verb. split; [assumption|now apply Hreg].
    + right. split.
      * intros [verb [Hin Hr]]. apply Hno. exists verb. split; [assumption|now apply Hreg].
      * exists resources'. split; [exact Hok|]. intros n v. now rewrite Hiff, Hreg.
Qed.

Lemma duplicate_registration_cons p paths :
  duplicate_registration (p :: paths)
  <-> (exists q, In q paths /\ clash p q) \/ duplicate_registration paths.
Proof.
  unfold duplicate_registration. split.
  - intros [l1 [p0 [l2 [q [l3 [E Hc]]]]]]. destruct l1 as [|x l1]; simpl in E.
    + inversion E; subst. left. exists q. split; [|assumption].
      apply in_or_app. right. now left.
    + inversion E; subst. right. now exists l1, p0, l2, q, l3.
  - intros [[q [Hin Hc]]|[l1 [p0 [l2 [q [l3 [E Hc]]]]]]].
    + apply in_split in Hin. destruct Hin as [l2 [l3 ->]].
      now exists [], p, l2, q, l3.
    + subst. now exists (p :: l1), p0, l2, q, l3.
Qed.


Lemma collision_step resources resources' p paths :
  ~ (exists verb, In verb (dict_keys (operations p))
                  /\ registered resources (path_to_name (path p)) verb) ->
  (forall n v, registered resources' n v
               <-> registered resources n v
                   \/ (n = path_to_name (path p) /\ In v (dict_keys (operations p)))) ->
  collision resources (p :: paths) <-> collision resources' paths.
Proof.
  intros Hno Hiff. unfold collision. rewrite duplicate_registration_cons. split.
  - intros [[q [verb [[<-|Hq] [Hin Hr]]]]|[[q [Hq [Hname [verb [H1 H2]]]]]|Hd]].
    + exfalso. apply Hno. now exists verb.
    + left. exists q, verb. split; [assumption|]. split; [assumption|].
      apply Hiff. now left.
    + left. exists q, verb. split; [assumption|]. split; [assumption|].
      apply Hiff. right. split; [now symmetry|assumption].
    + now right.
  - intros [[q [verb [Hq [Hin Hr]]]]|Hd].
    + apply Hiff in Hr. destruct Hr as [Hr|[Hname Hv]].
      * left. exists q, verb. split; [now right|]. now split.
      * right. left. exists q. split; [assumption|]. split; [now symmetry|].
        now exists verb.
    + right. now right.
Qed.

Lemma index_loop paths :
  loaded paths ->
  forall resources,
    (collision resources paths ->
     exists name verb,
       foldM SwaggerFile.index_path paths resources
       = Raise (DuplicateOperationError name verb))
    /\ (~ collision resources paths ->
        exists resources', foldM SwaggerFile.index_path paths resources = Ok resources').
Proof.
  induction paths as [|p paths IH]; intros Hl resources.
  - split.
    + intros [[p [verb [[] _]]]|[l1 [p [l2 [q [l3 [E _]]]]]]].
      now apply app_cons_not_nil in E.
    + intros _. now exists resources.
  - assert (Hl' : loaded paths) by (intros q Hq; apply Hl; now right).
    destruct (index_path_step resources p (Hl p (or_introl eq_refl)))
      as [[[verb0 [Hin Hr]] [verb Hraise]]|[Hno [resources' [Hok Hiff]]]]; simpl.
    + rewrite Hraise. simpl. split; [intros _; now eexists; eexists|].
      intros Hn. exfalso. apply Hn. left. exists p, verb0. split; [now left|now split].
    + rewrite Hok. simpl.
      destruct (IH Hl' resources') as [IH1 IH2].
      assert (Hc := collision_step resources resources' p paths Hno Hiff).
      split; intros H; [apply IH1|apply IH2]; tauto.
Qed.

(** C8: on a loaded document, [init_resources] raises the error of a
    duplicate operation exactly when two path entries derive the same
    resource name and define the same verb; the error ends the run for
    the document before any module is rendered. *)
Theorem duplicate_registration_is_fatal (paths : list Path) :
  loaded paths ->
  (duplicate_registration paths ->
   exists name verb,
     SwaggerFile.init_resources paths = Raise (DuplicateOperationError name verb)
     /\ forall (Output : Type) (renderer : Resource -> Output),
          SwaggerFile.main_document renderer paths
          = Raise (DuplicateOperationError name verb))
  /\ (~ duplicate_registration paths ->
      exists resources, SwaggerFile.init_resources paths = Ok resources).
Proof.
  intros Hl. destruct (index_loop paths Hl []) as [H1 H2]. split.
  - intros Hd. destruct (H1 (or_intror Hd)) as [name [verb H]].
    exists name, verb. split; [exact H|].
    intros Output renderer. unfold SwaggerFile.main_document.
    unfold SwaggerFile.init_resources in *. now rewrite H.
  - intros Hd. apply H2. intros [[p [verb [_ [_ [r [E _]]]]]]|H]; [discriminate|].
    now apply Hd.
Qed.

Lemma colliding_paths_loaded : loaded Examples.colliding_paths.
Proof.
  intros p [<-|[<-|[]]]; simpl; repeat constructor; simpl; intuition discriminate.
Qed.

Lemma distinct_paths_loaded : loaded Examples.distinct_paths.
Proof.
  intros p [<-|[<-|[]]]; simpl; repeat constructor; simpl; intuition discriminate.
Qed.

Lemma duplicate_registration_is_fatal_witness :
  (exists name verb,
     SwaggerFile.init_resources Examples.colliding_paths
     = Raise (DuplicateOperationError name verb))
  /\ (~ duplicate_registration Examples.distinct_paths
      /\ exists resources, SwaggerFile.init_resources Examples.distinct_paths = Ok resources).
Proof.
  split.
  - destruct (duplicate_registration_is_fatal Examples.colliding_paths colliding_paths_loaded)
      as [H _].
    destruct H as [name [verb [H _]]].
    + exists [], (nth 0 Examples.colliding_paths (mkPath "" "" [])), [],
        (nth 1 Examples.colliding_paths (mkPath "" "" [])), [].
      split; [reflexivity|]. split; [reflexivity|].
      exists "get". simpl. auto.
    + now exists name, verb.
  - destruct (duplicate_registration_is_fatal Examples.distinct_paths distinct_paths_loaded)
      as [H1 H2].
    assert (Hn : ~ duplicate_registration Examples.distinct_paths).
    { intros Hd. destruct (H1 Hd) as [name [verb [H _]]]. discriminate H. }
    split; [exact Hn|exact (H2 Hn)].
Defined.

(** ** Parameter merger: the order of the operations *)

(** C1 (the code at the failing input): a resource with the operations
    [get] and [patch], which describe the parameter [vm] in two different
    ways of the same length.  Both enumerations of the set of its
    operation identifiers are possible, and [parameters] returns the
    description of whichever operation comes first. *)
Theorem parameters_depend_on_iteration_order :
  AnsibleModule.valid_order Examples.tie_resource ["get"; "patch"]
  /\ AnsibleModule.valid_order Examples.tie_resource ["patch"; "get"]
  /\ forall fuel,
       (exists state vm,
          parameters fuel (AnsibleModule.init Examples.tie_resource [] ["get"; "patch"])
          = Ok [state; vm]
          /\ p_name vm = "vm" /\ p_description vm = Some "VM to read")
       /\ (exists state vm,
             parameters fuel (AnsibleModule.init Examples.tie_resource [] ["patch"; "get"])
             = Ok [state; vm]
             /\ p_name vm = "vm" /\ p_description vm = Some "VM to edit")
       /\ parameters fuel (AnsibleModule.init Examples.tie_resource [] ["get"; "patch"])
          <> parameters fuel (AnsibleModule.init Examples.tie_resource [] ["patch"; "get"]).
Proof.
  split; [|split].
  - split; [repeat constructor; simpl; intuition discriminate|].
    intros x. simpl. tauto.
  - split; [repeat constructor; simpl; intuition discriminate|].
    intros x. simpl. tauto.
  - intros fuel. split; [|split].
    + do 2 eexists. split; [reflexivity|]. split; reflexivity.
    + do 2 eexists. split; [reflexivity|]. split; reflexivity.
    + intros H. apply (f_equal (fun r => match r with
                                         | Ok [_; vm] => p_description vm
                                         | _ => None
                                         end)) in H.
      discriminate H.
Qed.

(** ** Parameter merger: merging twice *)


(** C9 (as stated): when an operation lists the same parameter name
    twice, the merged list fed back to the operation, whether whole or by
    the recorded operation identifiers, is not merged into itself. *)
Lemma second_merge_differs :
  exists l,
    parameters 0 (AnsibleModule.init Examples.twice_resource [] ["get"]) = Ok l
    /\ parameters 0 (again (AnsibleModule.init Examples.twice_resource [] ["get"])
                          (feed_back_all l Examples.twice_resource)) <> Ok l
    /\ parameters 0 (again (AnsibleModule.init Examples.twice_resource [] ["get"])
                          (feed_back l Examples.twice_resource)) <> Ok l.
Proof.
  eexists.
  split; [reflexivity|]. split; intros H;
    apply (f_equal (fun r => match r with
                             | Ok [_; vm] => p_operationIds vm
                             | _ => None
                             end)) in H;
    discriminate H.
Qed.

(** The two other ways in which a second merge can differ: a merged
    descriptor named [spec], which the second merge tries to open, and a
    merged descriptor that still carries a schema reference, which the
    second merge expands. *)
Lemma second_merge_other_failures :
  (exists l,
     parameters 1 Examples.nested_module = Ok l
     /\ parameters 1 (again Examples.nested_module
                            (feed_back l (resource Examples.nested_module)))
        = Raise (KeyError "subkeys"))
  /\ (exists l,
        parameters 1 Examples.subkeys_module = Ok l
        /\ parameters 1 (again Examples.subkeys_module
                               (feed_back l (resource Examples.subkeys_module)))
           <> Ok l).
Proof.
  split; eexists; (split; [cbv; reflexivity|]).
  - vm_compute. reflexivity.
  - intros H.
    apply (f_equal (fun r => match r with
                             | Ok l => List.length l
                             | Raise _ => 0
                             end)) in H.
    vm_compute in H. discriminate H.
Qed.

(** *** What the first merge leaves *)

Lemma recorded_snoc self ids o :
  ids = [] \/ recorded self ids ->
  In o (default_operationIds self) ->
  dict_has o (r_operations (resource self)) = true ->
  recorded self (PyList.sorted String.ltb (ids ++ [o])%list).
Proof.
  intros Hids Ho Hhas.
  assert (Hp := sorted_perm string String.ltb (ids ++ [o])%list).
  split; [apply sorted_strings_sorted|]. split.
  - intros E. rewrite E in Hp. apply Permutation_nil in Hp.
    symmetry in Hp. now apply app_cons_not_nil in Hp.
  - intros x Hx. apply (Permutation_in _ Hp), in_app_iff in Hx.
    destruct Hx as [Hx|[<-|[]]]; [|now split].
    destruct Hids as [->|[_ [_ H]]]; [destruct Hx|now apply H].
Qed.

Lemma merge_parameter_tracked self o results parameter results' :
  In o (default_operationIds self) ->
  dict_has o (r_operations (resource self)) = true ->
  well_formed results -> tracked self results ->
  merge_parameter o results parameter = Ok results' ->
  tracked self results'.
Proof.
  intros Ho Hhas [Hnd Hall] Htr.
  destruct (dict_get (p_name parameter) results) as [stored|] eqn:Hget.
  - destruct (Htr _ _ (dict_get_In _ _ _ Hget)) as [ids [E Hrec]].
    rewrite (merge_parameter_seen o results parameter stored ids Hget E).
    intros H. inversion H; subst results'; clear H.
    intros k v Hin. apply In_dict_set_NoDup in Hin; [|assumption].
    destruct Hin as [[_ ->]|[_ Hin]]; [|now apply (Htr k)].
    eexists. split; [reflexivity|]. apply recorded_snoc; auto.
  - rewrite (merge_parameter_first o results parameter Hget).
    intros H. inversion H; subst results'; clear H.
    intros k v Hin. apply In_dict_set_NoDup in Hin; [|assumption].
    destruct Hin as [[_ ->]|[_ Hin]]; [|now apply (Htr k)].
    eexists. split; [reflexivity|].
    apply (recorded_snoc self [] o); auto.
Qed.

Lemma foldM_merge_parameter_tracked self o ordered results results' :
  In o (default_operationIds self) ->
  dict_has o (r_operations (resource self)) = true ->
  well_formed results -> tracked self results ->
  foldM (merge_parameter o) ordered results = Ok results' ->
  well_formed results' /\ tracked self results'.
Proof.
  intros Ho Hhas. revert results.
  induction ordered as [|p ps IH]; simpl; intros results Hwf Htr H.
  - inversion H; subst. now split.
  - destruct (merge_parameter_well_formed o results p Hwf) as [r1 [H1 Hwf1]].
    rewrite H1 in H. simpl in H.
    apply (IH r1); [assumption| |assumption].
    now apply (merge_parameter_tracked self o results p r1).
Qed.

Lemma merge_operation_tracked fuel self results o results' :
  In o (default_operationIds self) ->
  well_formed results -> tracked self results ->
  merge_operation fuel self results o = Ok results' ->
  well_formed results' /\ tracked self results'.
Proof.
  intros Ho Hwf Htr. unfold merge_operation.
  destruct (dict_has o (r_operations (resource self))) eqn:Hhas; simpl.
  - destruct (itera fuel self o) as [yielded|e]; simpl; [|discriminate].
    destruct (PyList.sortedM key_lt yielded) as [ordered|e]; simpl; [|discriminate].
    now apply foldM_merge_parameter_tracked.
  - intros H. inversion H; subst. now split.
Qed.

Lemma merged_tracked fuel self results :
  merged fuel self = Ok results -> well_formed results /\ tracked self results.
Proof.
  unfold merged.
  apply (foldM_invariant (merge_operation fuel self)
           (fun r => well_formed r /\ tracked self r)).
  - intros r a r' Ha [Hwf Htr]. now apply merge_operation_tracked.
  - split; [split; [constructor|intros k v []]|intros k v []].
Qed.

Lemma finalize_operationIds result result' :
  finalize result = Ok result' -> p_operationIds result' = p_operationIds result.
Proof.
  unfold finalize, required_to_sentence.
  set (r := collapse_enum result).
  assert (Hr : p_operationIds r = p_operationIds result).
  { subst r. unfold collapse_enum. destruct (p_enum result) as [[|? ?]|]; reflexivity. }
  destruct (truthy_required (p_required r)).
  - destruct (p_operationIds r) eqn:E; [|discriminate].
    intros H. inversion H; subst result'; clear H. rewrite <- Hr.
    now destruct (p_description r).
  - intros H. inversion H. now subst.
Qed.

Lemma sorted_set_idempotent (e : list string) :
  PyList.sorted_set (PyList.sorted_set e) = PyList.sorted_set e.
Proof.
  destruct (sorted_set_spec e) as [Hs [Hnd _]].
  unfold PyList.sorted_set at 1. rewrite (nodup_fixed_point string_dec Hnd).
  apply sorted_of_sorted. exact Hs.
Qed.

Lemma collapse_enum_idempotent (r : Descriptor) :
  collapse_enum (collapse_enum r) = collapse_enum r.
Proof.
  unfold collapse_enum. destruct (p_enum r) as [[|x xs]|] eqn:E; simpl; rewrite ?E;
    try reflexivity.
  destruct (PyList.sorted_set (x :: xs)) as [|y ys] eqn:Es; [reflexivity|].
  rewrite <- Es, sorted_set_idempotent. reflexivity.
Qed.

Lemma collapse_enum_setters (q : option RequiredValue) (X : option string) (r : Descriptor) :
  collapse_enum (set_required q (set_description X r))
  = set_required q (set_description X (collapse_enum r)).
Proof.
  unfold collapse_enum. simpl. destruct (p_enum r) as [[|x xs]|]; reflexivity.
Qed.

Lemma finalize_idempotent result result' :
  finalize result = Ok result' -> finalize result' = Ok result'.
Proof.
  unfold finalize. assert (Hc := collapse_enum_idempotent result).
  set (r := collapse_enum result) in *. clearbody r.
  unfold required_to_sentence at 1.
  destruct (truthy_required (p_required r)) eqn:Hreq.
  - destruct (p_operationIds r) as [ids|]; [|discriminate].
    intros H. inversion H; subst result'; clear H.
    destruct (p_description r); rewrite collapse_enum_setters, Hc; reflexivity.
  - intros H. inversion H; subst result'; clear H.
    rewrite Hc. unfold required_to_sentence. now rewrite Hreq.
Qed.

Lemma parameters_structure fuel self l :
  parameters fuel self = Ok l ->
  exists table,
    NoDup (dict_keys table)
    /\ (forall k v, In (k, v) table -> p_name v = k /\ final self v)
    /\ l = PyList.sorted name_lt
             (dict_values (dict_set "state" (state_parameter self) table)).
Proof.
  unfold parameters. intros H.
  destruct (merged fuel self) as [results|e] eqn:Hm; simpl in H; [|discriminate].
  destruct (finalized results) as [table|e] eqn:Hf; simpl in H; [|discriminate].
  inversion H; subst l; clear H.
  destruct (merged_tracked fuel self results Hm) as [Hwf Htr].
  destruct (finalized_names results table Hwf Hf) as [Hnd Hnames].
  destruct (finalized_keys results table Hf) as [_ Hfrom].
  exists table. split; [assumption|]. split; [|reflexivity].
  intros k v Hin. split; [now apply Hnames|].
  destruct (Hfrom k v Hin) as [v0 [Hin0 Hfin]].
  destruct (Htr k v0 Hin0) as [ids [Hids Hrec]]. split.
  - exists ids. split; [|assumption].
    now rewrite (finalize_operationIds v0 v Hfin).
  - now apply (finalize_idempotent v0).
Qed.

(** *** Lists with distinct names *)

Lemma find_named_In (k : string) (l : list Descriptor) (d : Descriptor) :
  find (named k) l = Some d -> In d l /\ p_name d = k.
Proof.
  intros H. apply find_some in H. destruct H as [H1 H2].
  split; [assumption|]. now apply String.eqb_eq.
Qed.

Lemma find_named_None (k : string) (l : list Descriptor) :
  find (named k) l = None -> ~ In k (map p_name l).
Proof.
  intros H Hin. apply in_map_iff in Hin. destruct Hin as [d [E Hd]].
  apply (find_none _ _ H) in Hd. unfold named in Hd. rewrite E in Hd.
  now rewrite String.eqb_refl in Hd.
Qed.

Lemma In_find_named (l : list Descriptor) (d : Descriptor) :
  NoDup (map p_name l) -> In d l -> find (named (p_name d)) l = Some d.
Proof.
  induction l as [|x l IH]; simpl; intros Hnd Hin; [destruct Hin|].
  inversion Hnd as [|? ? Hx Hnd']; subst. unfold named at 1.
  destruct (String.eqb_spec (p_name x) (p_name d)) as [E|Hne].
  - destruct Hin as [->|Hin]; [reflexivity|].
    exfalso. apply Hx. rewrite E. now apply in_map.
  - destruct Hin as [->|Hin]; [congruence|now apply IH].
Qed.

Lemma find_named_filter (k : string) (g : Descriptor -> bool) (l : list Descriptor) :
  NoDup (map p_name l) ->
  find (named k) (filter g l)
  = match find (named k) l with
    | Some d => if g d then Some d else None
    | None => None
    end.
Proof.
  induction l as [|x l IH]; simpl; intros Hnd; [reflexivity|].
  inversion Hnd as [|? ? Hx Hnd']; subst.
  destruct (named k x) eqn:Hk.
  - destruct (g x) eqn:Hg; simpl; [now rewrite Hk|].
    rewrite (IH Hnd').
    destruct (find (named k) l) as [d|] eqn:Hf; [|reflexivity].
    exfalso. apply find_named_In in Hf. destruct Hf as [Hd Hname].
    apply Hx. apply String.eqb_eq in Hk. rewrite Hk, <- Hname. now apply in_map.
  - destruct (g x); simpl; [rewrite Hk|]; now apply IH.
Qed.

Lemma NoDup_map_filter {A B : Type} (f : A -> B) (g : A -> bool) (l : list A) :
  NoDup (map f l) -> NoDup (map f (filter g l)).
Proof.
  induction l as [|x l IH]; simpl; intros Hnd; [constructor|].
  inversion Hnd as [|? ? Hx Hnd']; subst.
  destruct (g x); simpl; [|now apply IH].
  constructor; [|now apply IH].
  intros Hin. apply Hx. apply in_map_iff in Hin. destruct Hin as [y [E Hy]].
  apply filter_In in Hy. rewrite <- E. apply in_map. tauto.
Qed.

Lemma StronglySorted_filter {A : Type} (R : A -> A -> Prop) (g : A -> bool) (l : list A) :
  StronglySorted R l -> StronglySorted R (filter g l).
Proof.
  induction 1 as [|x l Hs IH Hx]; simpl; [constructor|].
  destruct (g x); [|assumption].
  constructor; [assumption|].
  rewrite Forall_forall in *. intros y Hy. apply Hx. apply filter_In in Hy. tauto.
Qed.

Lemma mapM_pure {A B : Type} (f : A -> pyresult B) (g : A -> B) (l : list A) :
  (forall a, In a l -> f a = Ok (g a)) -> mapM f l = Ok (map g l).
Proof.
  induction l as [|a l IH]; simpl; intros H; [reflexivity|].
  rewrite (H a (or_introl eq_refl)). simpl.
  rewrite IH by (intros; apply H; now right). reflexivity.
Qed.

Lemma concat_map_singleton {A : Type} (l : list A) : concat (map (fun a => [a]) l) = l.
Proof. induction l as [|a l IH]; simpl; [reflexivity|now rewrite IH]. Qed.

(** A list in increasing order of distinct names is left as it is by the
    sort of line 220, which then compares no two descriptions. *)
Lemma sortedM_sorted (l : list Descriptor) :
  StronglySorted (le_of name_lt) l -> NoDup (map p_name l) ->
  PyList.sortedM key_lt l = Ok l.
Proof.
  induction 1 as [|x l Hs IH Hx]; simpl; intros Hnd; [reflexivity|].
  inversion Hnd as [|? ? Hnx Hnd']; subst.
  rewrite (IH Hnd'). simpl.
  destruct l as [|y l]; simpl; [reflexivity|].
  inversion Hx as [|? ? Hxy _]; subst.
  unfold key_lt. destruct (String.eqb_spec (p_name y) (p_name x)) as [E|Hne].
  - exfalso. apply Hnx. rewrite <- E. now left.
  - unfold le_of, name_lt in Hxy. now rewrite Hxy.
Qed.

Lemma dict_get_map {V W : Type} (g : string -> V -> W) (k : string) (d : dict V) :
  dict_get k (map (fun item : string * V => (fst item, g (fst item) (snd item))) d)
  = option_map (g k) (dict_get k d).
Proof.
  induction d as [|[k' v'] d IH]; simpl; [reflexivity|].
  destruct (String.eqb_spec k' k) as [->|Hne]; [reflexivity|exact IH].
Qed.

Lemma names_are_keys (table : dict Descriptor) :
  (forall k v, In (k, v) table -> p_name v = k) ->
  map p_name (dict_values table) = dict_keys table.
Proof.
  induction table as [|[k v] d IH]; simpl; intros H; [reflexivity|].
  rewrite (H k v (or_introl eq_refl)). f_equal. apply IH.
  intros k0 v0 H0. apply H. now right.
Qed.

Lemma In_dict_values {V : Type} (v : V) (d : dict V) :
  In v (dict_values d) <-> exists k, In (k, v) d.
Proof.
  unfold dict_values. rewrite in_map_iff. split.
  - intros [[k v'] [E H]]. simpl in E. subst. now exists k.
  - intros [k H]. now exists (k, v).
Qed.

(** *** One operation of the second merge *)

Lemma flat_flatten_one fuel definitions d :
  flat d -> flatten_one fuel definitions d = Ok [d].
Proof.
  unfold flat, flatten_one. destruct (p_schema d) as [sch|] eqn:E; [|reflexivity].
  intros [Hr [t [Ht Hp]]]. rewrite Hr, Ht. do 2 f_equal.
  destruct d; simpl in *. now subst.
Qed.

Lemma merge_step_get o results p :
  well_formed results ->
  exists results',
    merge_parameter o results p = Ok results'
    /\ well_formed results'
    /\ forall k, dict_get k results'
                 = if p_name p =? k then Some (merge_step o (dict_get k results) p)
                   else dict_get k results.
Proof.
  intros Hwf.
  destruct (merge_parameter_well_formed o results p Hwf) as [results' [H Hwf']].
  exists results'. split; [assumption|]. split; [assumption|].
  intros k. destruct (dict_get (p_name p) results) as [stored|] eqn:Hget.
  - destruct Hwf as [Hnd Hall].
    destruct (Hall _ _ (dict_get_In _ _ _ Hget)) as [_ Hids].
    destruct (p_operationIds stored) as [ids|] eqn:E; [|congruence].
    rewrite (merge_parameter_seen o results p stored ids Hget E) in H.
    inversion H; subst results'; clear H.
    destruct (String.eqb_spec (p_name p) k) as [<-|Hne].
    + rewrite dict_get_set_same, Hget. unfold merge_step, ids_of. now rewrite E.
    + rewrite dict_get_set_other; auto.
  - rewrite (merge_parameter_first o results p Hget) in H.
    inversion H; subst results'; clear H.
    destruct (String.eqb_spec (p_name p) k) as [<-|Hne].
    + rewrite dict_get_set_same, Hget. reflexivity.
    + rewrite dict_get_set_other; auto.
Qed.

(** The inner loop over descriptors with distinct names, key by key. *)
Lemma foldM_merge_distinct o ps :
  NoDup (map p_name ps) ->
  forall results,
    well_formed results ->
    exists results',
      foldM (merge_parameter o) ps results = Ok results'
      /\ well_formed results'
      /\ forall k, dict_get k results'
                   = match find (named k) ps with
                     | Some p => Some (merge_step o (dict_get k results) p)
                     | None => dict_get k results
                     end.
Proof.
  induction ps as [|p ps IH]; simpl; intros Hnd results Hwf.
  - now exists results.
  - inversion Hnd as [|? ? Hp Hnd']; subst.
    destruct (merge_step_get o results p Hwf) as [r1 [H1 [Hwf1 Hget1]]].
    rewrite H1. simpl.
    destruct (IH Hnd' r1 Hwf1) as [results' [H2 [Hwf2 Hget2]]].
    exists results'. split; [assumption|]. split; [assumption|].
    intros k. rewrite Hget2, Hget1. unfold named at 2.
    destruct (String.eqb_spec (p_name p) k) as [<-|Hne]; [|reflexivity].
    destruct (find (named (p_name p)) ps) as [q|] eqn:Hf; [|reflexivity].
    exfalso. apply find_named_In in Hf. destruct Hf as [Hq Hname].
    apply Hp. rewrite <- Hname. now apply in_map.
Qed.

Lemma concat_repeat_snoc {A : Type} (e : list A) (n : nat) :
  (concat (repeat e n) ++ e)%list = (e ++ concat (repeat e n))%list.
Proof.
  induction n as [|n IH]; simpl; [now rewrite app_nil_r|].
  now rewrite <- app_assoc, IH.
Qed.

Lemma merge_step_first o d : merge_step o None d = evolve [o] d.
Proof.
  unfold merge_step, evolve, merge_enum. destruct d as [? ? ? ? ? [e|] ? ? ? ?]; simpl;
    rewrite ?app_nil_r; reflexivity.
Qed.

Lemma merge_step_seen o c d : merge_step o (Some (evolve c d)) d = evolve (c ++ [o])%list d.
Proof.
  unfold merge_step.
  assert (Hd : merge_description (evolve c d) d = evolve c d).
  { unfold merge_description. simpl. destruct (p_description d); [|reflexivity].
    now rewrite String.eqb_refl. }
  rewrite Hd. unfold ids_of. simpl.
  rewrite (sorted_strings_invariant (PyList.sorted String.ltb c ++ [o])%list (c ++ [o])%list)
    by (apply Permutation_app_tail, sorted_perm).
  unfold evolve, merge_enum. rewrite length_app, Nat.add_1_r.
  destruct d as [? ? ? ? ? [e|] ? ? ? ?]; simpl; [|reflexivity].
  clear Hd. rewrite <- app_assoc, concat_repeat_snoc. reflexivity.
Qed.

Lemma required_to_sentence_enum r r' :
  required_to_sentence r = Ok r' -> p_enum r' = p_enum r.
Proof.
  unfold required_to_sentence. destruct (truthy_required (p_required r)).
  - destruct (p_operationIds r); [|discriminate].
    intros H. inversion H. now destruct (p_description r).
  - intros H. inversion H. now subst.
Qed.

Lemma finalize_fixed d :
  finalize d = Ok d -> collapse_enum d = d /\ required_to_sentence d = Ok d.
Proof.
  unfold finalize. intros H.
  assert (He := required_to_sentence_enum _ _ H).
  assert (Hc : collapse_enum d = d).
  { unfold collapse_enum in *. destruct (p_enum d) as [[|x xs]|] eqn:E; try reflexivity.
    simpl in He. rewrite <- He. destruct d; simpl in *. now subst. }
  split; [assumption|]. now rewrite Hc in H.
Qed.

Lemma concat_repeat_nil {A : Type} (n : nat) : concat (repeat (@nil A) n) = [].
Proof. induction n; simpl; auto. Qed.

Lemma In_concat_repeat {A : Type} (e : list A) (n : nat) (x : A) :
  In x (concat (repeat e n)) -> In x e.
Proof.
  induction n as [|n IH]; simpl; [tauto|]. rewrite in_app_iff. tauto.
Qed.

Lemma sorted_set_ext (a b : list string) :
  (forall x, In x a <-> In x b) -> PyList.sorted_set a = PyList.sorted_set b.
Proof.
  intros H. unfold PyList.sorted_set. apply sorted_strings_invariant.
  apply NoDup_Permutation; try apply NoDup_nodup.
  intros x. rewrite !nodup_In. apply H.
Qed.

Lemma collapse_evolve c d :
  collapse_enum d = d ->
  p_operationIds d = Some (PyList.sorted String.ltb c) ->
  collapse_enum (evolve c d) = d.
Proof.
  unfold evolve, collapse_enum.
  destruct d as [? ? ? ? ? [[|x xs]|] ? ? ? ?]; simpl; intros Hc Hids.
  - rewrite concat_repeat_nil. now subst.
  - assert (He : PyList.sorted_set (x :: xs) = x :: xs) by (injection Hc; auto).
    clear Hc.
    rewrite (sorted_set_ext (x :: (xs ++ concat (repeat (x :: xs) (List.length c)))%list)
               (x :: xs)).
    + rewrite He. now subst.
    + intros y. simpl. rewrite in_app_iff. split; [|tauto].
      intros [H|[H|H]]; auto. now apply In_concat_repeat in H.
  - now subst.
Qed.

Lemma finalized_get results :
  (forall k v, In (k, v) results -> exists v', finalize v = Ok v') ->
  exists table,
    finalized results = Ok table
    /\ dict_keys table = dict_keys results
    /\ forall k, dict_get k table
                 = match dict_get k results with
                   | Some v => match finalize v with
                               | Ok v' => Some v'
                               | Raise _ => None
                               end
                   | None => None
                   end.
Proof.
  unfold finalized. induction results as [|[k0 v0] d IH]; simpl; intros H.
  - now exists [].
  - destruct (H k0 v0 (or_introl eq_refl)) as [v1 Hv1]. rewrite Hv1. simpl.
    destruct IH as [table [H1 [H2 H3]]]; [intros k v Hin; apply (H k); now right|].
    rewrite H1. simpl. eexists. split; [reflexivity|]. simpl. split; [now rewrite H2|].
    intros k. destruct (k0 =? k); [now rewrite Hv1|apply H3].
Qed.

Lemma filter_none {A : Type} (f : A -> bool) (l : list A) :
  (forall x, f x = false) -> filter f l = [].
Proof.
  intros H. induction l as [|x l IH]; simpl; [reflexivity|]. now rewrite H.
Qed.

(** *** The second merge *)

Section SecondMerge.

Variable fuel : nat.
Variable self : AnsibleModuleBase.t.
Variable l : list Descriptor.

Hypothesis merged_once : parameters fuel self = Ok l.
Hypothesis operations_set : NoDup (default_operationIds self).
Hypothesis recorded_once :
  forall d ids, In d l -> p_operationIds d = Some ids -> NoDup ids.
Hypothesis no_spec : forall d, In d l -> p_name d <> "spec".
Hypothesis all_flat : forall d, In d l -> flat d.

Lemma merged_facts :
  NoDup (map p_name l)
  /\ StronglySorted (le_of name_lt) l
  /\ In (state_parameter self) l
  /\ forall d, In d l -> d = state_parameter self \/ final self d.
Proof.
  destruct (parameters_structure fuel self l merged_once) as [table [Hnd [Hall Hl]]].
  set (X := dict_set "state" (state_parameter self) table) in *.
  assert (HndX : NoDup (dict_keys X)) by now apply dict_set_NoDup.
  assert (HX : forall k v, In (k, v) X ->
                 (k = "state" /\ v = state_parameter self) \/ In (k, v) table).
  { intros k v Hin. apply In_dict_set_NoDup in Hin; [|assumption]. tauto. }
  assert (Hnames : forall k v, In (k, v) X -> p_name v = k).
  { intros k v Hin. destruct (HX k v Hin) as [[-> ->]|Hin']; [reflexivity|].
    now apply Hall. }
  assert (Hp : Permutation l (dict_values X)) by (rewrite Hl; apply sorted_perm).
  split; [|split; [|split]].
  - apply (Permutation_NoDup (Permutation_sym (Permutation_map p_name Hp))).
    now rewrite names_are_keys.
  - rewrite Hl. apply sorted_by_name_sorted.
  - apply (Permutation_in _ (Permutation_sym Hp)). apply In_dict_values.
    exists "state". apply dict_get_In. apply dict_get_set_same.
  - intros d Hd. apply (Permutation_in _ Hp), In_dict_values in Hd.
    destruct Hd as [k Hin]. destruct (HX k d Hin) as [[_ ->]|Hin']; [now left|].
    right. now apply (Hall k).
Qed.

Lemma final_not_state (d : Descriptor) :
  In d l -> final self d -> p_name d <> "state".
Proof.
  intros Hd [[ids [Hids _]] _] Hname.
  destruct merged_facts as [Hnd [_ [Hst _]]].
  assert (E : find (named (p_name d)) l = Some d) by now apply In_find_named.
  assert (E' : find (named (p_name (state_parameter self))) l = Some (state_parameter self))
    by now apply In_find_named.
  simpl in E'. rewrite Hname in E. rewrite E in E'. inversion E'; subst d.
  discriminate Hids.
Qed.

Lemma recorded_operations (d : Descriptor) (o : string) :
  In d l -> PyList.mem o (ids_of d) = true ->
  In o (default_operationIds self)
  /\ dict_has o (r_operations (resource self)) = true.
Proof.
  intros Hd Hmem. destruct merged_facts as [_ [_ [_ Hcases]]].
  destruct (Hcases d Hd) as [->|[[ids [Hids [_ [_ Hval]]]] _]]; [discriminate Hmem|].
  apply Hval. apply mem_In. unfold ids_of in Hmem. now rewrite Hids in Hmem.
Qed.

Lemma itera_again (o : string) :
  dict_has o (r_operations (resource self)) = true ->
  itera fuel (again self (feed_back l (resource self))) o = Ok (view l o).
Proof.
  intros Hhas. unfold itera, dict_has in *. simpl.
  rewrite (dict_get_map (fun k op => with_parameters (view l k) op)).
  destruct (dict_get o (r_operations (resource self))) as [op|]; [|discriminate].
  simpl. unfold _flatten_parameter.
  assert (Hin : forall d, In d (view l o) -> In d l)
    by (intros d Hd; apply filter_In in Hd; tauto).
  rewrite (mapM_pure _ (fun d => [d])).
  - simpl. rewrite concat_map_singleton.
    rewrite (mapM_pure _ (fun d => [d])).
    + simpl. now rewrite concat_map_singleton.
    + intros d Hd. destruct (String.eqb_spec (p_name d) "spec") as [E|_]; [|reflexivity].
      exfalso. now apply (no_spec d (Hin d Hd)).
  - intros d Hd. apply flat_flatten_one. now apply all_flat, Hin.
Qed.

Lemma expected_snoc (done : list string) (o : string) (k : string) :
  expected l (done ++ [o])%list k
  = match find (named k) l with
    | Some d =>
        if PyList.mem o (ids_of d)
        then Some (merge_step o (expected l done k) d)
        else expected l done k
    | None => None
    end.
Proof.
  unfold expected. destruct (find (named k) l) as [d|]; [|reflexivity].
  rewrite filter_app. simpl.
  destruct (PyList.mem o (ids_of d)).
  - destruct (filter (fun o0 => PyList.mem o0 (ids_of d)) done) as [|c0 cs].
    + now rewrite merge_step_first.
    + now rewrite merge_step_seen.
  - now rewrite app_nil_r.
Qed.

Lemma merge_operation_again (done : list string) (results : dict Descriptor) (o : string) :
  agrees l done results ->
  exists results',
    merge_operation fuel (again self (feed_back l (resource self))) results o = Ok results'
    /\ agrees l (done ++ [o])%list results'.
Proof.
  intros [Hwf Hget]. destruct merged_facts as [Hnd [Hsorted _]].
  unfold merge_operation.
  assert (Hhas : dict_has o (r_operations (resource (again self (feed_back l (resource self)))))
                 = dict_has o (r_operations (resource self))).
  { unfold dict_has. simpl.
    rewrite (dict_get_map (fun k op => with_parameters (view l k) op)).
    now destruct (dict_get o (r_operations (resource self))). }
  rewrite Hhas.
  destruct (dict_has o (r_operations (resource self))) eqn:Ho; simpl.
  - rewrite (itera_again o Ho). simpl.
    rewrite sortedM_sorted;
      [|now apply StronglySorted_filter|now apply NoDup_map_filter].
    simpl.
    destruct (foldM_merge_distinct o (view l o)
                (NoDup_map_filter p_name _ l Hnd) results Hwf)
      as [results' [H1 [Hwf' Hget']]].
    exists results'. split; [assumption|]. split; [assumption|].
    intros k. rewrite Hget', expected_snoc. unfold view.
    rewrite (find_named_filter k _ l Hnd).
    destruct (find (named k) l) as [d|] eqn:Hf.
    + destruct (PyList.mem o (ids_of d)); [|apply Hget]. now rewrite Hget.
    + rewrite Hget. unfold expected. now rewrite Hf.
  - exists results. split; [reflexivity|]. split; [assumption|].
    intros k. rewrite expected_snoc, Hget.
    destruct (find (named k) l) as [d|] eqn:Hf; [|unfold expected; now rewrite Hf].
    destruct (PyList.mem o (ids_of d)) eqn:Hmem; [|reflexivity].
    apply find_named_In in Hf.
    destruct (recorded_operations d o (proj1 Hf) Hmem) as [_ H]. congruence.
Qed.

Lemma merge_loop_again (rest done : list string) (results : dict Descriptor) :
  agrees l done results ->
  exists results',
    foldM (merge_operation fuel (again self (feed_back l (resource self)))) rest results
    = Ok results'
    /\ agrees l (done ++ rest)%list results'.
Proof.
  revert done results. induction rest as [|o rest IH]; simpl; intros done results H.
  - exists results. rewrite app_nil_r. now split.
  - destruct (merge_operation_again done results o H) as [r1 [H1 Hagree]].
    rewrite H1. simpl.
    destruct (IH (done ++ [o])%list r1 Hagree) as [results' [H2 H3]].
    exists results'. split; [assumption|]. now rewrite <- app_assoc in H3.
Qed.

Lemma finalize_evolve (d : Descriptor) :
  In d l -> final self d ->
  exists c0 cs,
    filter (fun o => PyList.mem o (ids_of d)) (default_operationIds self) = c0 :: cs
    /\ finalize (evolve (c0 :: cs) d) = Ok d.
Proof.
  intros Hd [[ids [Hids [Hs [Hne Hval]]]] Hfin].
  set (c := filter (fun o => PyList.mem o (ids_of d)) (default_operationIds self)).
  assert (Hp : Permutation c ids).
  { apply NoDup_Permutation.
    - now apply NoDup_filter.
    - now apply (recorded_once d).
    - intros x. unfold c, ids_of. rewrite filter_In, Hids. simpl. rewrite mem_In.
      split; [tauto|]. intros Hx. split; [now apply Hval|assumption]. }
  assert (Hsorted : PyList.sorted String.ltb c = ids).
  { rewrite (sorted_strings_invariant c ids Hp). apply sorted_of_sorted. exact Hs. }
  destruct c as [|c0 cs] eqn:Hc.
  - apply Permutation_nil in Hp. congruence.
  - exists c0, cs. split; [reflexivity|].
    destruct (finalize_fixed d Hfin) as [H1 H2].
    unfold finalize. rewrite collapse_evolve; [assumption|assumption|].
    now rewrite Hsorted.
Qed.
Lemma expected_final (k : string) (v : Descriptor) :
  expected l (default_operationIds self) k = Some v ->
  exists d, In d l /\ p_name d = k /\ final self d /\ finalize v = Ok d.
Proof.
  unfold expected. destruct (find (named k) l) as [d|] eqn:Hf; [|discriminate].
  apply find_named_In in Hf. destruct Hf as [Hd Hname].
  destruct merged_facts as [_ [_ [_ Hcases]]].
  destruct (Hcases d Hd) as [->|Hfinal].
  - rewrite filter_none; [discriminate|]. intros o. reflexivity.
  - destruct (finalize_evolve d Hd Hfinal) as [c0 [cs [Hc Hfin]]].
    rewrite Hc. intros H. inversion H; subst v. now exists d.
Qed.

Lemma final_expected (d : Descriptor) :
  In d l -> final self d ->
  exists v, expected l (default_operationIds self) (p_name d) = Some v
            /\ finalize v = Ok d.
Proof.
  intros Hd Hfinal. destruct merged_facts as [Hnd _].
  unfold expected. rewrite (In_find_named l d Hnd Hd).
  destruct (finalize_evolve d Hd Hfinal) as [c0 [cs [Hc Hfin]]].
  rewrite Hc. now eexists.
Qed.

Lemma second_merge_same :
  parameters fuel (again self (feed_back l (resource self))) = Ok l.
Proof.
  destruct merged_facts as [Hnd [Hsorted [Hst Hcases]]].
  assert (Hnil : agrees l [] []).
  { split; [split; [constructor|intros k v []]|].
    intros k. unfold expected. now destruct (find (named k) l). }
  destruct (merge_loop_again (default_operationIds self) [] [] Hnil)
    as [results [Hm [Hwf Hget]]].
  simpl in Hget.
  unfold parameters, merged. simpl. rewrite Hm. simpl.
  destruct (finalized_get results) as [table [Hf [Hkeys Htable]]].
  { intros k v Hin. apply In_dict_get in Hin; [|apply Hwf].
    rewrite Hget in Hin. destruct (expected_final k v Hin) as [d [_ [_ [_ H]]]].
    now exists d. }
  rewrite Hf. simpl.
  change (state_parameter (again self (feed_back l (resource self))))
    with (state_parameter self).
  set (X := dict_set "state" (state_parameter self) table).
  assert (HndT : NoDup (dict_keys table)) by (rewrite Hkeys; apply Hwf).
  assert (HndX : NoDup (dict_keys X)) by now apply dict_set_NoDup.
  assert (Hentry : forall k v, In (k, v) table ->
                     In v l /\ p_name v = k /\ final self v).
  { intros k v Hin. apply In_dict_get in Hin; [|assumption].
    rewrite Htable, Hget in Hin.
    destruct (expected l (default_operationIds self) k) as [v0|] eqn:He; [|discriminate].
    destruct (expected_final k v0 He) as [d [Hd [Hname [Hfinal Hfin]]]].
    rewrite Hfin in Hin. inversion Hin; subst v. auto. }
  assert (Hnames : forall k v, In (k, v) X -> p_name v = k).
  { intros k v Hin. apply In_dict_set_NoDup in Hin; [|assumption].
    destruct Hin as [[-> ->]|[_ Hin]]; [reflexivity|]. now apply (Hentry k v). }
  assert (Hsame : forall v, In v (dict_values X) <-> In v l).
  { intros v. rewrite In_dict_values. split.
    - intros [k Hin]. apply In_dict_set_NoDup in Hin; [|assumption].
      destruct Hin as [[_ ->]|[_ Hin]]; [assumption|]. now apply (Hentry k v).
    - intros Hv. destruct (Hcases v Hv) as [->|Hfinal].
      + exists "state". apply dict_get_In, dict_get_set_same.
      + exists (p_name v). apply dict_get_In. unfold X.
        rewrite dict_get_set_other by (apply (final_not_state v Hv Hfinal)).
        rewrite Htable, Hget.
        destruct (final_expected v Hv Hfinal) as [v0 [He Hfin]].
        now rewrite He, Hfin. }
  assert (Hperm : Permutation (dict_values X) l).
  { apply NoDup_Permutation; [| |exact Hsame].
    - apply (NoDup_map_inv p_name). now rewrite names_are_keys.
    - now apply (NoDup_map_inv p_name). }
  f_equal.
  rewrite (sorted_permutation_invariant Descriptor name_lt name_lt_asym name_le_trans
             (dict_values X) l).
  - now apply sorted_of_sorted.
  - intros a b Ha Hb H1 H2. apply Hsame in Ha, Hb.
    assert (E : p_name a = p_name b) by (apply ltb_antisym; assumption).
    assert (Ea := In_find_named l a Hnd Ha). assert (Eb := In_find_named l b Hnd Hb).
    rewrite E in Ea. rewrite Ea in Eb. now inversion Eb.
  - exact Hperm.
Qed.

End SecondMerge.

(** C9 (amended): when [parameters] returns a list in which no descriptor
    is named [spec], records an operation identifier twice or carries an
    unresolved schema, merging again, every operation being given the
    merged descriptors that record it in their [operationIds], returns the
    same list. *)
Theorem second_merge_of_recorded_views
    (fuel : nat) (self : AnsibleModuleBase.t) (l : list Descriptor) :
  parameters fuel self = Ok l ->
  NoDup (default_operationIds self) ->
  (forall d ids, In d l -> p_operationIds d = Some ids -> NoDup ids) ->
  (forall d, In d l -> p_name d <> "spec") ->
  (forall d, In d l -> flat d) ->
  parameters fuel (again self (feed_back l (resource self))) = Ok l.
Proof.
  intros Hl Hset Honce Hspec Hflat. now apply second_merge_same.
Qed.

Lemma second_merge_of_recorded_views_witness :
  parameters 0 Examples.mixed_module = Ok Examples.mixed_merged
  /\ parameters 0 (again Examples.mixed_module
                         (feed_back Examples.mixed_merged Examples.mixed_resource))
     = Ok Examples.mixed_merged.
Proof.
  split; [vm_compute; reflexivity|].
  apply (second_merge_of_recorded_views 0 Examples.mixed_module Examples.mixed_merged).
  - vm_compute. reflexivity.
  - repeat constructor; simpl; intuition discriminate.
  - intros d ids Hd H. unfold Examples.mixed_merged in Hd. simpl in Hd.
    repeat (destruct Hd as [<-|Hd]; [inversion H; repeat constructor; simpl;
                                     intuition discriminate|]).
    destruct Hd.
  - intros d Hd. unfold Examples.mixed_merged in Hd. simpl in Hd.
    repeat (destruct Hd as [<-|Hd]; [discriminate|]). destruct Hd.
  - intros d Hd. unfold Examples.mixed_merged in Hd. simpl in Hd.
    repeat (destruct Hd as [<-|Hd]; [exact I|]). destruct Hd.
Defined.

(* ------------------------------------------------------------------ *)
(** * Further properties of the program *)

(** ** Strings *)

Lemma contains_app (c : ascii) (s t : string) :
  Py.contains c (s ++ t) = Py.contains c s || Py.contains c t.
Proof.
  induction s as [|a s IH]; simpl; [reflexivity|]. now rewrite IH, orb_assoc.
Qed.

Lemma contains_replace (c old : ascii) (new s : string) :
  Py.contains c new = false -> Py.contains c s = false ->
  Py.contains c (Py.replace old new s) = false.
Proof.
  intros Hnew. induction s as [|a s IH]; simpl; [reflexivity|].
  intros H. apply orb_false_iff in H. destruct H as [Ha Hs].
  destruct (Ascii.eqb a old).
  - rewrite contains_app, Hnew. now apply IH.
  - simpl. rewrite Ha. now apply IH.
Qed.

Lemma replace_removes (old : ascii) (new s : string) :
  Py.contains old new = false -> Py.contains old (Py.replace old new s) = false.
Proof.
  intros Hnew. induction s as [|a s IH]; simpl; [reflexivity|].
  destruct (Ascii.eqb a old) eqn:E.
  - now rewrite contains_app, Hnew.
  - simpl. now rewrite E.
Qed.

Lemma replace_absent (old : ascii) (new s : string) :
  Py.contains old s = false -> Py.replace old new s = s.
Proof.
  induction s as [|a s IH]; simpl; [reflexivity|].
  intros H. apply orb_false_iff in H. destruct H as [Ha Hs].
  rewrite Ha. now rewrite IH.
Qed.

Lemma replace_length (old : ascii) (c : ascii) (s : string) :
  String.length (Py.replace old (String c EmptyString) s) = String.length s.
Proof.
  induction s as [|a s IH]; simpl; [reflexivity|].
  destruct (Ascii.eqb a old); simpl; now rewrite IH.
Qed.

Lemma split_not_nil (c : ascii) (s : string) : Py.split c s <> [].
Proof.
  induction s as [|a s IH]; simpl; [discriminate|].
  destruct (Ascii.eqb a c); [discriminate|].
  destruct (Py.split c s); [contradiction|discriminate].
Qed.

Lemma split_pieces (c d : ascii) (s x : string) :
  In x (Py.split c s) ->
  Py.contains c x = false /\ (Py.contains d s = false -> Py.contains d x = false).
Proof.
  revert x. induction s as [|a s IH]; simpl; intros x Hin.
  - destruct Hin as [<-|[]]. now split.
  - destruct (Ascii.eqb a c) eqn:E.
    + destruct Hin as [<-|Hin]; [now split|].
      destruct (IH x Hin) as [H1 H2]. split; [assumption|].
      intros H. apply orb_false_iff in H. now apply H2.
    + destruct (Py.split c s) as [|w ws] eqn:Hs; [now elim (split_not_nil c s)|].
      destruct Hin as [<-|Hin].
      * destruct (IH w (or_introl eq_refl)) as [H1 H2]. simpl. rewrite E, H1.
        split; [reflexivity|].
        intros H. apply orb_false_iff in H. destruct H as [Ha Hs']. rewrite Ha.
        now apply H2.
      * destruct (IH x (or_intror Hin)) as [H1 H2]. split; [assumption|].
        intros H. apply orb_false_iff in H. now apply H2.
Qed.

Lemma split_absent (c : ascii) (s : string) :
  Py.contains c s = false -> Py.split c s = [s].
Proof.
  induction s as [|a s IH]; simpl; [reflexivity|].
  intros H. apply orb_false_iff in H. destruct H as [Ha Hs].
  rewrite Ha, (IH Hs). reflexivity.
Qed.

Lemma split_app (c : ascii) (s t : string) :
  Py.contains c s = false ->
  Py.split c (s ++ String c t) = s :: Py.split c t.
Proof.
  induction s as [|a s IH]; simpl.
  - intros _. now rewrite Ascii.eqb_refl.
  - intros H. apply orb_false_iff in H. destruct H as [Ha Hs].
    rewrite Ha, (IH Hs). reflexivity.
Qed.

Lemma split_length (c : ascii) (s : string) :
  List.length (Py.split c s) = S (Text.count c s).
Proof.
  induction s as [|a s IH]; simpl; [reflexivity|].
  destruct (Ascii.eqb a c); simpl; [now rewrite IH|].
  destruct (Py.split c s) as [|w ws] eqn:Hs; [now elim (split_not_nil c s)|].
  simpl in *. exact IH.
Qed.

Lemma contains_join (c : ascii) (sep : string) (l : list string) :
  Py.contains c sep = false ->
  (forall x, In x l -> Py.contains c x = false) ->
  Py.contains c (Py.join sep l) = false.
Proof.
  intros Hsep. unfold Py.join. induction l as [|x l IH]; simpl; intros H; [reflexivity|].
  destruct l as [|y l]; [apply H; now left|].
  rewrite !contains_app, Hsep, (H x (or_introl eq_refl)). simpl.
  apply IH. intros z Hz. apply H. now right.
Qed.

Lemma lower_never_upper (a : ascii) : Text.is_upper (Py.lower_ascii a) = false.
Proof. destruct a as [[] [] [] [] [] [] [] []]; reflexivity. Qed.

Lemma lower_ascii_punctuation (a c : ascii) :
  c = "-"%char \/ c = ":"%char \/ c = "/"%char \/ c = "?"%char ->
  Ascii.eqb (Py.lower_ascii a) c = Ascii.eqb a c.
Proof.
  intros [->|[->|[->| ->]]]; destruct a as [[] [] [] [] [] [] [] []]; reflexivity.
Qed.

Lemma contains_lower (c : ascii) (s : string) :
  (forall a, Ascii.eqb (Py.lower_ascii a) c = Ascii.eqb a c) ->
  Py.contains c (Py.lower s) = Py.contains c s.
Proof.
  intros H. induction s as [|a s IH]; simpl; [reflexivity|]. now rewrite H, IH.
Qed.

Lemma lower_no_upper (c : ascii) (s : string) :
  Text.is_upper c = true -> Py.contains c (Py.lower s) = false.
Proof.
  intros Hc. induction s as [|a s IH]; simpl; [reflexivity|].
  rewrite IH, orb_false_r.
  destruct (Ascii.eqb_spec (Py.lower_ascii a) c) as [E|_]; [|reflexivity].
  rewrite <- E, lower_never_upper in Hc. discriminate.
Qed.

(** ** Resource namer *)

Lemma by_element_free (c : ascii) (y : string) :
  c = "/"%char \/ c = "?"%char ->
  Py.contains c y = false -> Py.contains c (by_element y) = false.
Proof.
  intros Hc Hy. unfold by_element.
  rewrite contains_lower by (intros a; apply lower_ascii_punctuation; tauto).
  repeat apply contains_replace;
    try (destruct Hc as [-> | ->]; reflexivity).
  rewrite contains_app, Hy. destruct Hc as [-> | ->]; reflexivity.
Qed.

Lemma path_elements_free (c : ascii) (p x : string) :
  c = "/"%char \/ c = "?"%char ->
  In x (map (fun element => if Py.contains "{" element then by_element element else element)
            (filter (fun i => negb (i =? ""))
                    (Py.split "/" (hd "" (Py.split "?" p))))) ->
  Py.contains c x = false.
Proof.
  intros Hc Hin. apply in_map_iff in Hin. destruct Hin as [y [<- Hy]].
  apply filter_In in Hy. destruct Hy as [Hy _].
  assert (Hfree : Py.contains c y = false).
  { destruct Hc as [-> | ->].
    - exact (proj1 (split_pieces "/" "/" _ y Hy)).
    - apply (proj2 (split_pieces "/" "?" _ y Hy)).
      assert (Hhd : In (hd "" (Py.split "?" p)) (Py.split "?" p)).
      { destruct (Py.split "?" p) eqn:E; [now elim (split_not_nil "?" p)|now left]. }
      exact (proj1 (split_pieces "?" "?" _ _ Hhd)). }
  destruct (Py.contains "{" y); [now apply by_element_free|assumption].
Qed.

(** X5: the name that [path_to_name] derives holds no hyphen, colon,
    slash, question mark or upper-case letter. *)
Theorem path_to_name_alphabet (p : string) (c : ascii) :
  c = "-"%char \/ c = ":"%char \/ c = "/"%char \/ c = "?"%char \/ Text.is_upper c = true ->
  Py.contains c (path_to_name p) = false.
Proof.
  intros Hc. unfold path_to_name.
  set (elements := map _ (filter _ _)).
  set (kept := match elements with
               | first :: rest => if first =? "data" then rest else elements
               | [] => elements
               end).
  assert (Hkept : forall x, In x kept -> In x elements).
  { subst kept. destruct elements as [|first rest]; [tauto|].
    destruct (first =? "data"); [intros x Hx; now right|tauto]. }
  destruct Hc as [->|[->|[Hc|[Hc|Hc]]]].
  - rewrite contains_lower by (intros a; apply lower_ascii_punctuation; tauto).
    apply contains_replace; [reflexivity|]. now apply replace_removes.
  - rewrite contains_lower by (intros a; apply lower_ascii_punctuation; tauto).
    now apply replace_removes.
  - rewrite contains_lower by (intros a; apply lower_ascii_punctuation; tauto).
    repeat apply contains_replace; try (subst c; reflexivity).
    apply contains_join; [subst c; reflexivity|].
    intros x Hx. apply (path_elements_free c p x); [tauto|now apply Hkept].
  - rewrite contains_lower by (intros a; apply lower_ascii_punctuation; tauto).
    repeat apply contains_replace; try (subst c; reflexivity).
    apply contains_join; [subst c; reflexivity|].
    intros x Hx. apply (path_elements_free c p x); [tauto|now apply Hkept].
  - now apply lower_no_upper.
Qed.

Lemma path_to_name_alphabet_witness :
  Py.contains "-" (path_to_name "/Vcenter/VM-Templates/{item}:deploy?vmw-task=true") = false
  /\ path_to_name "/Vcenter/VM-Templates/{item}:deploy?vmw-task=true"
     = "vcenter_vm_templates_by_item_deploy".
Proof.
  split; [|reflexivity].
  apply (path_to_name_alphabet "/Vcenter/VM-Templates/{item}:deploy?vmw-task=true" "-").
  left. reflexivity.
Defined.

(** X6: the query part of a path does not count: a path followed by [?]
    and anything derives the name of the path alone. *)
Theorem path_to_name_ignores_query (p q : string) :
  Py.contains "?" p = false ->
  path_to_name (p ++ "?" ++ q) = path_to_name p.
Proof.
  intros Hp. unfold path_to_name.
  change (p ++ "?" ++ q) with (p ++ String "?" q).
  now rewrite (split_app "?" p q Hp), (split_absent "?" p Hp).
Qed.

Lemma path_to_name_ignores_query_witness :
  path_to_name ("/com/vmware/cis/session" ++ "?" ++ "~action=get")
  = path_to_name "/com/vmware/cis/session".
Proof.
  apply (path_to_name_ignores_query "/com/vmware/cis/session" "~action=get").
  reflexivity.
Defined.

(** ** Names, types and descriptions *)

(** X1: [python_type] maps the five Swagger type names to Python names
    and nothing to a Swagger type name, so that mapping a type twice (as
    [gen_documentation] does to the subkeys of a parameter it sees again)
    is mapping it once. *)
Theorem python_type_idempotent (value : string) :
  python_type (python_type value) = python_type value
  /\ ~ In (python_type value) ["array"; "boolean"; "integer"; "object"; "string"].
Proof.
  unfold python_type.
  destruct (String.eqb_spec value "array") as [->|H1];
    [split; [reflexivity|intros [E|[E|[E|[E|[E|[]]]]]]; discriminate E]|].
  destruct (String.eqb_spec value "boolean") as [->|H2];
    [split; [reflexivity|intros [E|[E|[E|[E|[E|[]]]]]]; discriminate E]|].
  destruct (String.eqb_spec value "integer") as [->|H3];
    [split; [reflexivity|intros [E|[E|[E|[E|[E|[]]]]]]; discriminate E]|].
  destruct (String.eqb_spec value "object") as [->|H4];
    [split; [reflexivity|intros [E|[E|[E|[E|[E|[]]]]]]; discriminate E]|].
  destruct (String.eqb_spec value "string") as [->|H5];
    [split; [reflexivity|intros [E|[E|[E|[E|[E|[]]]]]]; discriminate E]|].
  split.
  - apply String.eqb_neq in H1, H2, H3, H4, H5. now rewrite H1, H2, H3, H4, H5.
  - intros [E|[E|[E|[E|[E|[]]]]]]; symmetry in E; contradiction.
Qed.

(** X2: a normalized parameter name holds no dot and is as long as the
    name; a name without dot is left as it is. *)
Theorem normalize_parameter_name_no_dot (name : string) :
  Py.contains "." (normalize_parameter_name name) = false
  /\ String.length (normalize_parameter_name name) = String.length name
  /\ (Py.contains "." name = false -> normalize_parameter_name name = name).
Proof.
  unfold normalize_parameter_name. split; [|split].
  - now apply replace_removes.
  - apply replace_length.
  - apply replace_absent.
Qed.

Lemma contains_replace_from (c : ascii) (old new : string) (k : nat) (s : string) :
  Py.contains c new = false -> Py.contains c s = false ->
  Py.contains c (Py.replace_from old new k s) = false.
Proof.
  intros Hnew. revert k. induction s as [|a s IH]; simpl; intros k H; [reflexivity|].
  apply orb_false_iff in H. destruct H as [Ha Hs].
  destruct k as [|k]; [|now apply IH].
  destruct (Py.starts_with old (String a s)).
  - rewrite contains_app, Hnew. now apply IH.
  - simpl. rewrite Ha. now apply IH.
Qed.



Lemma no_line_break_pieces (l : string) (x : string) :
  In x (if Py.contains Py.line_feed l then Py.split Py.line_feed l else [l]) ->
  Py.contains Py.line_feed x = false.
Proof.
  destruct (Py.contains Py.line_feed l) eqn:E.
  - intros Hin. exact (proj1 (split_pieces Py.line_feed Py.line_feed l x Hin)).
  - intros [<-|[]]. exact E.
Qed.

Lemma normalize_description_lines (string_list : list string) (x : string) :
  In x (normalize_description string_list) ->
  Py.contains Py.line_feed x = false.
Proof.
  unfold normalize_description, _transform. intros Hin.
  apply in_flat_map in Hin. destruct Hin as [i [Hi Hx]].
  apply in_flat_map in Hi. destruct Hi as [l [_ Hi]].
  apply no_line_break_pieces in Hi.
  destruct (i =? ""); [destruct Hx|]. destruct Hx as [<-|[]].
  apply contains_replace_from; [reflexivity|].
  now apply contains_replace_from.
Qed.

(** X3: no line that [normalize_description] returns holds a line
    break. *)
Theorem normalize_description_no_line_break (string_list : list string) (x : string) :
  In x (normalize_description string_list) ->
  Py.contains Py.line_feed x = false.
Proof.
  exact (normalize_description_lines string_list x).
Qed.

Lemma normalize_description_no_line_break_witness :
  normalize_description
    ["Power state" ++ String Py.line_feed "of the {@name DayOfWeek}"; ""]
  = ["Power state"; "of the day of the week"]
  /\ Py.contains Py.line_feed "of the day of the week" = false.
Proof.
  split; [vm_compute; reflexivity|].
  apply (normalize_description_no_line_break
           ["Power state" ++ String Py.line_feed "of the {@name DayOfWeek}"; ""]).
  vm_compute. right. left. reflexivity.
Defined.



(** ** Reference resolver *)

(** X7: a reference of three parts separated by slashes is looked up by
    its third part, whatever the first two are and whatever follows a
    fourth slash: the definition of that name is returned, and a name that
    the table does not have raises [KeyError]. *)
Theorem definitions_get_lookup (definitions : dict SchemaBody) (a b name rest : string) :
  Py.contains "/" a = false ->
  Py.contains "/" b = false ->
  Py.contains "/" name = false ->
  Definitions.get definitions (a ++ "/" ++ b ++ "/" ++ name)
  = match dict_get name definitions with
    | Some v => Ok v
    | None => Raise (KeyError name)
    end
  /\ Definitions.get definitions (a ++ "/" ++ b ++ "/" ++ name ++ "/" ++ rest)
     = Definitions.get definitions (a ++ "/" ++ b ++ "/" ++ name).
Proof.
  intros Ha Hb Hn. unfold Definitions.get, Definitions._ref_to_dotted.
  change (a ++ "/" ++ b ++ "/" ++ name) with (a ++ String "/" (b ++ String "/" name)).
  change (a ++ "/" ++ b ++ "/" ++ name ++ "/" ++ rest)
    with (a ++ String "/" (b ++ String "/" (name ++ String "/" rest))).
  rewrite !(split_app "/" a _ Ha), !(split_app "/" b _ Hb).
  rewrite (split_absent "/" name Hn), (split_app "/" name rest Hn).
  split; reflexivity.
Qed.

Lemma definitions_get_lookup_witness :
  Definitions.get Examples.spec_definitions ("#" ++ "/" ++ "definitions" ++ "/" ++ "vm_create_spec")
  = Ok Examples.spec_definition
  /\ Definitions.get Examples.spec_definitions ("#" ++ "/" ++ "definitions" ++ "/" ++ "vm_spec")
     = Raise (KeyError "vm_spec").
Proof.
  split.
  - apply (definitions_get_lookup Examples.spec_definitions "#" "definitions"
             "vm_create_spec" ""); reflexivity.
  - apply (definitions_get_lookup Examples.spec_definitions "#" "definitions"
             "vm_spec" ""); reflexivity.
Defined.

(** X8: a reference raises [IndexError] exactly when it holds fewer than
    two slashes. *)
Theorem ref_to_dotted_index_error (ref : string) :
  Definitions._ref_to_dotted ref = Raise IndexError <-> Text.count "/" ref < 2.
Proof.
  unfold Definitions._ref_to_dotted.
  destruct (nth_error (Py.split "/" ref) 2) as [dotted|] eqn:E.
  - split; [discriminate|]. intros H. exfalso.
    assert (Hlen : 2 < List.length (Py.split "/" ref)).
    { apply nth_error_Some. congruence. }
    rewrite split_length in Hlen. lia.
  - split; [|reflexivity]. intros _.
    apply nth_error_None in E. rewrite split_length in E. lia.
Qed.

(** ** The list returned by [parameters] *)

Lemma final_required (self : AnsibleModuleBase.t) (d : Descriptor) :
  final self d -> truthy_required (p_required d) = false.
Proof.
  intros [_ Hfin]. apply finalize_fixed in Hfin. destruct Hfin as [_ H].
  unfold required_to_sentence in H.
  destruct (truthy_required (p_required d)) eqn:E; [|reflexivity].
  destruct (p_operationIds d); [|discriminate].
  injection H as H. rewrite <- H in E.
  destruct (p_description d); simpl in E; discriminate.
Qed.

Lemma final_enum (self : AnsibleModuleBase.t) (d : Descriptor) (e : list string) :
  final self d -> p_enum d = Some e ->
  StronglySorted (le_of String.ltb) e /\ NoDup e.
Proof.
  intros [_ Hfin] He. apply finalize_fixed in Hfin. destruct Hfin as [Hc _].
  unfold collapse_enum in Hc. rewrite He in Hc. destruct e as [|x xs].
  - split; constructor.
  - assert (E : p_enum (set_enum (Some (PyList.sorted_set (x :: xs))) d) = Some (x :: xs))
      by now rewrite Hc.
    simpl in E. injection E as E. rewrite <- E.
    destruct (sorted_set_spec (x :: xs)) as [H1 [H2 _]]. now split.
Qed.

(** X9: the descriptors returned by [parameters] have distinct names. *)
Theorem parameters_names_distinct
    (fuel : nat) (self : AnsibleModuleBase.t) (l : list Descriptor) :
  parameters fuel self = Ok l -> NoDup (map p_name l).
Proof.
  intros Hl. exact (proj1 (merged_facts fuel self l Hl)).
Qed.

Lemma parameters_names_distinct_witness :
  NoDup (map p_name Examples.mixed_merged).
Proof.
  apply (parameters_names_distinct 0 Examples.mixed_module).
  vm_compute. reflexivity.
Defined.

(** X10: in the list returned by [parameters] the descriptor named
    [state] has no [operationIds]; every other one has them: in increasing
    order, at least one, each of them an operation of the resource that
    the loop has visited. *)
Theorem parameters_operationIds
    (fuel : nat) (self : AnsibleModuleBase.t) (l : list Descriptor) (d : Descriptor) :
  parameters fuel self = Ok l -> In d l ->
  if p_name d =? "state" then p_operationIds d = None
  else exists ids,
         p_operationIds d = Some ids
         /\ StronglySorted (le_of String.ltb) ids
         /\ ids <> []
         /\ forall x, In x ids ->
              In x (default_operationIds self)
              /\ dict_has x (r_operations (resource self)) = true.
Proof.
  intros Hl Hd. destruct (merged_facts fuel self l Hl) as [_ [_ [_ Hcases]]].
  destruct (Hcases d Hd) as [->|Hfin]; [reflexivity|].
  assert (Hn := final_not_state fuel self l Hl d Hd Hfin).
  apply String.eqb_neq in Hn. rewrite Hn.
  destruct Hfin as [[ids [Hids Hrec]] _]. exists ids. split; [assumption|exact Hrec].
Qed.

Lemma parameters_operationIds_witness :
  exists ids,
    Some ["get"; "update"] = Some ids
    /\ StronglySorted (le_of String.ltb) ids
    /\ ids <> []
    /\ forall x, In x ids ->
         In x ["update"; "get"]
         /\ dict_has x (r_operations Examples.mixed_resource) = true.
Proof.
  apply (parameters_operationIds 0 Examples.mixed_module Examples.mixed_merged
           Examples.power_state_merged).
  - vm_compute. reflexivity.
  - vm_compute. right. left. reflexivity.
Defined.

Lemma never_required_of_parameters
    (fuel : nat) (self : AnsibleModuleBase.t) (l : list Descriptor) (d : Descriptor) :
  parameters fuel self = Ok l -> In d l -> truthy_required (p_required d) = false.
Proof.
  intros Hl Hd. destruct (merged_facts fuel self l Hl) as [_ [_ [_ Hcases]]].
  destruct (Hcases d Hd) as [->|Hfin]; [reflexivity|].
  now apply (final_required self).
Qed.

(** X11: no descriptor returned by [parameters] is still marked
    required: a true flag has been turned into a sentence of the
    description and deleted, any other value is false, an empty list or
    absent. *)
Theorem parameters_never_required
    (fuel : nat) (self : AnsibleModuleBase.t) (l : list Descriptor) (d : Descriptor) :
  parameters fuel self = Ok l -> In d l -> truthy_required (p_required d) = false.
Proof.
  exact (never_required_of_parameters fuel self l d).
Qed.

Lemma parameters_never_required_witness :
  truthy_required (p_required (nth 4 Examples.mixed_merged (Examples.raw ""))) = false.
Proof.
  apply (parameters_never_required 0 Examples.mixed_module Examples.mixed_merged).
  - vm_compute. reflexivity.
  - vm_compute. do 4 right. left. reflexivity.
Defined.

(** X12: when the operation identifiers are a set, every enum of a
    descriptor returned by [parameters] is in increasing order and holds
    no value twice. *)
Theorem parameters_enums_sorted
    (fuel : nat) (self : AnsibleModuleBase.t) (l : list Descriptor)
    (d : Descriptor) (e : list string) :
  NoDup (default_operationIds self) ->
  parameters fuel self = Ok l -> In d l -> p_enum d = Some e ->
  StronglySorted (le_of String.ltb) e /\ NoDup e.
Proof.
  intros Hset Hl Hd He. destruct (merged_facts fuel self l Hl) as [_ [_ [_ Hcases]]].
  destruct (Hcases d Hd) as [->|Hfin]; [|now apply (final_enum self d)].
  simpl in He. injection He as He. subst e. split.
  - apply sorted_strings_sorted.
  - apply (Permutation_NoDup
             (Permutation_sym (sorted_perm string String.ltb (default_operationIds self)))).
    assumption.
Qed.

Lemma parameters_enums_sorted_witness :
  StronglySorted (le_of String.ltb) ["off"; "on"; "suspended"]
  /\ NoDup ["off"; "on"; "suspended"].
Proof.
  apply (parameters_enums_sorted 0 Examples.mixed_module Examples.mixed_merged
           Examples.power_state_merged).
  - repeat constructor; simpl; intuition discriminate.
  - vm_compute. reflexivity.
  - vm_compute. right. left. reflexivity.
  - reflexivity.
Defined.

(** ** What the generator makes of the list *)

Lemma named_state (fuel : nat) (self : AnsibleModuleBase.t) (l : list Descriptor)
    (d : Descriptor) :
  parameters fuel self = Ok l -> In d l ->
  (p_name d = "state" /\ d = state_parameter self)
  \/ (p_name d <> "state" /\ final self d).
Proof.
  intros Hl Hd. destruct (merged_facts fuel self l Hl) as [_ [_ [_ Hcases]]].
  destruct (Hcases d Hd) as [->|Hfin]; [left; now split|right].
  split; [|assumption]. now apply (final_not_state fuel self l Hl).
Qed.

Lemma sorted_names (l : list Descriptor) :
  StronglySorted (le_of name_lt) l -> StronglySorted (le_of String.ltb) (map p_name l).
Proof.
  induction 1 as [|a l Hs IH Ha]; simpl; constructor; [assumption|].
  apply Forall_forall. intros x Hx. apply in_map_iff in Hx.
  destruct Hx as [b [<- Hb]]. rewrite Forall_forall in Ha. exact (Ha b Hb).
Qed.

(** X13: the names returned by [in_query_parameters] are distinct and in
    increasing order, and [state] is never one of them, also when an
    operation declares a query parameter of that name. *)
Theorem in_query_parameters_sorted
    (fuel : nat) (self : AnsibleModuleBase.t) (names : list string) :
  in_query_parameters fuel self = Ok names ->
  NoDup names /\ StronglySorted (le_of String.ltb) names /\ ~ In "state" names.
Proof.
  unfold in_query_parameters. intros H.
  destruct (parameters fuel self) as [l|e] eqn:Hl; simpl in H; [|discriminate].
  injection H as H. subst names.
  destruct (merged_facts fuel self l Hl) as [Hnd [Hs _]].
  split; [now apply NoDup_map_filter|]. split.
  - apply sorted_names. now apply StronglySorted_filter.
  - intros Hin. apply in_map_iff in Hin. destruct Hin as [d [Hname Hd]].
    apply filter_In in Hd. destruct Hd as [Hd Hq].
    destruct (named_state fuel self l d Hl Hd) as [[_ ->]|[Hn _]]; [discriminate Hq|].
    contradiction.
Qed.

Lemma in_query_parameters_sorted_witness :
  in_query_parameters 0 Examples.query_module = Ok ["filter.names"]
  /\ ~ In "state" ["filter.names"].
Proof.
  split; [vm_compute; reflexivity|].
  apply (in_query_parameters_sorted 0 Examples.query_module ["filter.names"]).
  vm_compute. reflexivity.
Defined.

Lemma accepted_filter (l : list Descriptor) (operation : string) :
  AnsibleModule.accepted l operation
  = map p_name
      (filter (fun p =>
                 match p_operationIds p with
                 | Some ids =>
                     PyList.mem operation ids
                     && (negb (AnsibleModule.in_path_or_query p)
                         || PyList.mem operation ["post"; "patch"; "put"])
                 | None => false
                 end) l).
Proof.
  unfold AnsibleModule.accepted. induction l as [|p l IH]; [reflexivity|].
  cbn [flat_map filter]. rewrite IH.
  destruct (p_operationIds p) as [ids|]; [|reflexivity].
  destruct (PyList.mem operation ids); [|reflexivity].
  destruct (AnsibleModule.in_path_or_query p); cbn [negb andb orb];
    [|reflexivity].
  destruct (PyList.mem operation ["post"; "patch"; "put"]); reflexivity.
Qed.

(** X14: the fields of the request body of an operation, taken from the
    list that [parameters] returned, are distinct and already in
    increasing order (the sort of line 546 changes nothing); each of them
    is the name of a descriptor other than [state] that records the
    operation, the operation is one that the resource has, and a path or
    query parameter is a field only for post, patch and put. *)
Theorem data_accepted_fields_sorted
    (fuel : nat) (self : AnsibleModuleBase.t) (l : list Descriptor) (operation : string) :
  parameters fuel self = Ok l ->
  NoDup (AnsibleModule.accepted l operation)
  /\ PyList.sorted String.ltb (AnsibleModule.accepted l operation)
     = AnsibleModule.accepted l operation
  /\ forall n, In n (AnsibleModule.accepted l operation) ->
       n <> "state"
       /\ dict_has operation (r_operations (resource self)) = true
       /\ exists d ids,
            In d l /\ p_name d = n /\ p_operationIds d = Some ids /\ In operation ids
            /\ (AnsibleModule.in_path_or_query d = true ->
                In operation ["post"; "patch"; "put"]).
Proof.
  intros Hl. rewrite accepted_filter.
  destruct (merged_facts fuel self l Hl) as [Hnd [Hs _]].
  split; [now apply NoDup_map_filter|]. split.
  - apply sorted_of_sorted. apply sorted_names. now apply StronglySorted_filter.
  - intros n Hin. apply in_map_iff in Hin. destruct Hin as [d [Hname Hd]].
    apply filter_In in Hd. destruct Hd as [Hd Hacc].
    destruct (p_operationIds d) as [ids|] eqn:Hids; [|discriminate].
    apply andb_true_iff in Hacc. destruct Hacc as [Hmem Hbody].
    destruct (named_state fuel self l d Hl Hd) as [[_ ->]|[Hn _]]; [discriminate Hids|].
    split; [now rewrite <- Hname|]. split.
    + apply (recorded_operations fuel self l Hl d operation Hd).
      unfold ids_of. now rewrite Hids.
    + exists d, ids. repeat split; try assumption.
      * now apply mem_In.
      * intros Hq. rewrite Hq in Hbody. simpl negb in Hbody. simpl orb in Hbody.
        now apply mem_In.
Qed.

Lemma data_accepted_fields_sorted_witness :
  AnsibleModule.data_accepted_fields 0 Examples.mixed_module "update"
  = Ok ["name"; "power_state"; "tags"]
  /\ NoDup (AnsibleModule.accepted Examples.mixed_merged "update").
Proof.
  split; [vm_compute; reflexivity|].
  apply (data_accepted_fields_sorted 0 Examples.mixed_module Examples.mixed_merged "update").
  vm_compute. reflexivity.
Defined.

Lemma gen_options_from (l : list Descriptor) :
  forall (acc options : dict DocOption),
    foldM (fun options parameter =>
             option <- gen_option parameter ;;
             Ok (dict_set (p_name parameter) option options)) l acc = Ok options ->
    forall k o, In (k, o) options ->
      In (k, o) acc \/ exists p, In p l /\ p_name p = k /\ gen_option p = Ok o.
Proof.
  induction l as [|p l IH]; simpl; intros acc options H k o Hin.
  - injection H as H. subst. now left.
  - destruct (gen_option p) as [op|e] eqn:Hp; simpl in H; [|discriminate].
    destruct (IH _ _ H k o Hin) as [Hacc|[q [Hq [Hk Ho]]]].
    + apply In_dict_set in Hacc. destruct Hacc as [[-> ->]|[[_ Hacc]|[_ Hacc]]].
      * right. exists p. repeat split; [now left|assumption].
      * now left.
      * now left.
    + right. exists q. repeat split; [now right|assumption|assumption].
Qed.

Lemma gen_options_keys (l : list Descriptor) :
  forall (acc options : dict DocOption),
    NoDup (dict_keys acc ++ map p_name l)%list ->
    foldM (fun options parameter =>
             option <- gen_option parameter ;;
             Ok (dict_set (p_name parameter) option options)) l acc = Ok options ->
    dict_keys options = (dict_keys acc ++ map p_name l)%list.
Proof.
  induction l as [|p l IH]; simpl; intros acc options Hnd H.
  - injection H as H. subst. now rewrite app_nil_r.
  - destruct (gen_option p) as [op|e] eqn:Hp; simpl in H; [|discriminate].
    assert (Hkeys : dict_keys (dict_set (p_name p) op acc)
                    = (dict_keys acc ++ [p_name p])%list).
    { rewrite dict_keys_set. destruct (dict_has (p_name p) acc) eqn:E; [|reflexivity].
      apply dict_has_In in E. apply NoDup_remove_2 in Hnd. exfalso. apply Hnd.
      apply in_or_app. now left. }
    assert (Hnd' : NoDup (dict_keys (dict_set (p_name p) op acc) ++ map p_name l)%list).
    { rewrite Hkeys, <- app_assoc. exact Hnd. }
    rewrite (IH _ _ Hnd' H), Hkeys, <- app_assoc. reflexivity.
Qed.


(** X15: the argument specification generated from the list that
    [parameters] returned marks no argument as required, whatever the
    index of the list operation is. *)
Theorem arguments_never_required
    (fuel : nat) (self : AnsibleModuleBase.t) (l : list Descriptor)
    (list_index : option string) (a : string * list (string * ArgValue)) :
  parameters fuel self = Ok l -> In a (gen_arguments_py l list_index) ->
  ~ In "required" (map fst (snd a)).
Proof.
  intros Hl Ha. unfold gen_arguments_py in Ha. apply in_map_iff in Ha.
  destruct Ha as [p [<- Hp]]. unfold gen_argument. cbn [snd].
  rewrite (never_required_of_parameters fuel self l p Hl Hp).
  rewrite !map_app. intros Hin.
  repeat (apply in_app_or in Hin; destruct Hin as [Hin|Hin]).
  - destruct (PyList.mem _ _); simpl in Hin; [destruct Hin as [E|[]]; discriminate E|
                                             destruct Hin].
  - destruct Hin.
  - destruct Hin as [E|[]]. discriminate E.
  - destruct (p_enum p); simpl in Hin; [destruct Hin as [E|[]]; discriminate E|
                                       destruct Hin].
  - destruct (p_operationIds p); simpl in Hin; [destruct Hin as [E|[]]; discriminate E|
                                               destruct Hin].
Qed.

Lemma arguments_never_required_witness :
  ~ In "required"
      (map fst (snd (nth 4 (gen_arguments_py Examples.mixed_merged (Some "vm"))
                           ("", [])))).
Proof.
  apply (arguments_never_required 0 Examples.mixed_module Examples.mixed_merged (Some "vm")).
  - vm_compute. reflexivity.
  - vm_compute. do 4 right. left. reflexivity.
Defined.

(** X16: the documentation generated from the list that [parameters]
    returned has one option for each descriptor, in the order of the
    list; no option is marked required, and no line of a description
    holds a line feed (the sentence that [parameters] appended to a
    description is a line of its own). *)
Theorem documentation_of_parameters
    (fuel : nat) (self : AnsibleModuleBase.t) (l : list Descriptor)
    (name description : string) (doc : Documentation) :
  parameters fuel self = Ok l ->
  gen_documentation name description l = Ok doc ->
  dict_keys (doc_options doc) = map p_name l
  /\ forall k o, In (k, o) (doc_options doc) ->
       opt_required o = None
       /\ forall line, In line (opt_description o) ->
            Py.contains Py.line_feed line = false.
Proof.
  intros Hl Hdoc. unfold gen_documentation in Hdoc.
  destruct (foldM (fun options parameter =>
                     option <- gen_option parameter ;;
                     Ok (dict_set (p_name parameter) option options)) l [])
    as [options|e] eqn:Hopt; simpl in Hdoc; [|discriminate].
  injection Hdoc as Hdoc. subst doc. cbn [doc_options]. split.
  - apply (gen_options_keys l [] options); [|exact Hopt].
    exact (proj1 (merged_facts fuel self l Hl)).
  - intros k o Hin.
    destruct (gen_options_from l [] options Hopt k o Hin) as [[]|[p [Hp [_ Ho]]]].
    unfold gen_option in Ho.
    destruct (match p_subkeys p with
              | Some (subkey :: subkeys) =>
                  lines <- mapM subkey_line (subkey :: subkeys) ;;
                  Ok ("Validate attributes are:" :: lines)
              | _ => Ok []
              end) as [subkeys|e]; simpl in Ho; [|discriminate].
    injection Ho as Ho. subst o. cbn [opt_required opt_description]. split.
    + now rewrite (never_required_of_parameters fuel self l p Hl Hp).
    + intros line. apply normalize_description_lines.
Qed.

Lemma documentation_of_parameters_witness :
  exists doc,
    gen_documentation "vcenter_vm_by_vm_power" "Handle resource of type vcenter_vm_by_vm_power"
      Examples.mixed_merged = Ok doc
    /\ dict_keys (doc_options doc) = ["name"; "power_state"; "state"; "tags"; "vm"]
    /\ option_map opt_description (dict_get "vm" (doc_options doc))
       = Some ["Identifier of the virtual machine.";
               "Required with I(state=['get', 'update'])";
               "Used by I(state=['get', 'update'])"].
Proof.
  destruct (gen_documentation "vcenter_vm_by_vm_power"
              "Handle resource of type vcenter_vm_by_vm_power" Examples.mixed_merged)
    as [doc|e] eqn:E; [|vm_compute in E; discriminate E].
  exists doc. split; [reflexivity|]. split.
  - apply (documentation_of_parameters 0 Examples.mixed_module Examples.mixed_merged
             "vcenter_vm_by_vm_power" "Handle resource of type vcenter_vm_by_vm_power" doc).
    + vm_compute. reflexivity.
    + exact E.
  - vm_compute in E. injection E as E. subst doc. vm_compute. reflexivity.
Defined.

(** ** Operation index: what is registered *)

Lemma lookup_set (resources : dict Resource) (name : string) (r : Resource)
    (n w : string) :
  lookup (dict_set name r resources) n w
  = if n =? name then dict_get w (r_operations r) else lookup resources n w.
Proof.
  unfold lookup. destruct (String.eqb_spec n name) as [->|Hne].
  - now rewrite dict_get_set_same.
  - now rewrite dict_get_set_other.
Qed.

Lemma register_lookup (name : string) (resources resources' : dict Resource)
    (verb : string) (v : Operation) :
  SwaggerFile.register name resources (verb, v) = Ok resources' ->
  forall n w op,
    lookup resources' n w = Some op
    <-> lookup resources n w = Some op \/ (n = name /\ w = verb /\ op = v).
Proof.
  unfold SwaggerFile.register. destruct (dict_get name resources) as [r|] eqn:Hget;
    [|discriminate].
  unfold dict_has. destruct (dict_get verb (r_operations r)) eqn:Hverb; [discriminate|].
  intros H. injection H as H. subst resources'. intros n w op.
  rewrite lookup_set. cbn [r_operations]. unfold lookup.
  destruct (String.eqb_spec n name) as [->|Hne].
  - rewrite Hget. destruct (String.eqb_spec w verb) as [->|Hw].
    + rewrite dict_get_set_same, Hverb. split.
      * intros E. injection E as E. right. now subst.
      * intros [E|[_ [_ ->]]]; [discriminate|reflexivity].
    + rewrite dict_get_set_other by assumption. split; [now left|].
      intros [E|[_ [E _]]]; [assumption|contradiction].
  - split; [now left|]. intros [E|[E _]]; [assumption|contradiction].
Qed.

Lemma register_get (name : string) (resources resources' : dict Resource)
    (item : string * Operation) :
  SwaggerFile.register name resources item = Ok resources' ->
  (forall n r, dict_get n resources = Some r -> r_name r = n) ->
  (forall n r, dict_get n resources' = Some r -> r_name r = n)
  /\ dict_keys resources' = dict_keys resources.
Proof.
  destruct item as [verb v]. unfold SwaggerFile.register.
  destruct (dict_get name resources) as [r|] eqn:Hget; [|discriminate].
  destruct (dict_has verb (r_operations r)); [discriminate|].
  intros H Hnames. injection H as H. subst resources'. split.
  - intros n r0. destruct (String.eqb_spec n name) as [->|Hne].
    + rewrite dict_get_set_same. intros E. injection E as E. subst r0.
      cbn [r_name]. now apply Hnames.
    + rewrite dict_get_set_other by assumption. apply Hnames.
  - rewrite dict_keys_set. unfold dict_has. now rewrite Hget.
Qed.

Lemma register_loop_lookup (name : string) (ops : dict Operation) :
  forall resources resources',
    foldM (SwaggerFile.register name) ops resources = Ok resources' ->
    (forall n r, dict_get n resources = Some r -> r_name r = n) ->
    (forall n w op,
       lookup resources' n w = Some op
       <-> lookup resources n w = Some op \/ (n = name /\ In (w, op) ops))
    /\ (forall n r, dict_get n resources' = Some r -> r_name r = n)
    /\ dict_keys resources' = dict_keys resources.
Proof.
  induction ops as [|[verb v] ops IH]; cbn [foldM]; intros resources resources' H Hnames.
  - injection H as H. subst resources'. split; [|now split].
    intros n w op. split; [now left|]. intros [E|[_ []]]. assumption.
  - destruct (SwaggerFile.register name resources (verb, v)) as [resources1|e] eqn:Hreg;
      simpl in H; [|discriminate].
    destruct (register_get name resources resources1 (verb, v) Hreg Hnames)
      as [Hnames1 Hkeys1].
    destruct (IH resources1 resources' H Hnames1) as [Hiff [Hnames' Hkeys']].
    split; [|split; [assumption|congruence]].
    intros n w op. rewrite Hiff, (register_lookup name resources resources1 verb v Hreg).
    split.
    + intros [[E|[-> [-> ->]]]|[-> Hin]]; [now left|right|right]; (split; [reflexivity|]);
        [now left|now right].
    + intros [E|[-> [E|Hin]]]; [now left; left| |now right].
      injection E as -> ->. left. right. now repeat split.
Qed.

Lemma index_path_lookup (resources resources' : dict Resource) (p : Path) :
  SwaggerFile.index_path resources p = Ok resources' ->
  (forall n r, dict_get n resources = Some r -> r_name r = n) ->
  (forall n w op,
     lookup resources' n w = Some op
     <-> lookup resources n w = Some op
         \/ (n = path_to_name (path p) /\ In (w, op) (operations p)))
  /\ (forall n r, dict_get n resources' = Some r -> r_name r = n)
  /\ forall n, In n (dict_keys resources')
               <-> In n (dict_keys resources) \/ n = path_to_name (path p).
Proof.
  unfold SwaggerFile.index_path. set (name := path_to_name (path p)).
  intros H Hnames. destruct (dict_has name resources) eqn:Hhas.
  - destruct (register_loop_lookup name (operations p) resources resources' H Hnames)
      as [Hiff [Hnames' Hkeys]].
    split; [assumption|]. split; [assumption|]. intros n. rewrite Hkeys.
    apply dict_has_In in Hhas. split; [now left|]. intros [Hin| ->]; assumption.
  - assert (Hnames0 : forall n r,
              dict_get n (dict_set name (mkResource name []) resources) = Some r ->
              r_name r = n).
    { intros n r. destruct (String.eqb_spec n name) as [->|Hne].
      - rewrite dict_get_set_same. intros E. now injection E as <-.
      - rewrite dict_get_set_other by assumption. apply Hnames. }
    destruct (register_loop_lookup name (operations p) _ resources' H Hnames0)
      as [Hiff [Hnames' Hkeys]].
    split; [|split; [assumption|]].
    + intros n w op. rewrite Hiff, lookup_set. cbn [r_operations dict_get].
      destruct (String.eqb_spec n name) as [->|Hne]; [|reflexivity].
      unfold lookup, dict_has in *.
      destruct (dict_get name resources); [discriminate|].
      split; (intros [E|E]; [discriminate|now right]).
    + intros n. rewrite Hkeys. apply In_keys_set.
Qed.

Lemma index_loop_lookup (paths : list Path) :
  forall resources resources',
    foldM SwaggerFile.index_path paths resources = Ok resources' ->
    (forall n r, dict_get n resources = Some r -> r_name r = n) ->
    (forall n w op,
       lookup resources' n w = Some op
       <-> lookup resources n w = Some op
           \/ exists p, In p paths /\ path_to_name (path p) = n /\ In (w, op) (operations p))
    /\ (forall n r, dict_get n resources' = Some r -> r_name r = n)
    /\ forall n, In n (dict_keys resources')
                 <-> In n (dict_keys resources)
                     \/ exists p, In p paths /\ path_to_name (path p) = n.
Proof.
  induction paths as [|p paths IH]; simpl; intros resources resources' H Hnames.
  - injection H as H. subst resources'. split; [|split; [assumption|]].
    + intros n w op. split; [now left|]. intros [E|[p [[] _]]]. assumption.
    + intros n. split; [now left|]. intros [E|[p [[] _]]]. assumption.
  - destruct (SwaggerFile.index_path resources p) as [resources1|e] eqn:Hp;
      simpl in H; [|discriminate].
    destruct (index_path_lookup resources resources1 p Hp Hnames) as [H1 [Hnames1 K1]].
    destruct (IH resources1 resources' H Hnames1) as [H2 [Hnames2 K2]].
    split; [|split; [assumption|]].
    + intros n w op. rewrite H2, H1. split.
      * intros [[E|[-> Hin]]|[q [Hq [Hn Hin]]]].
        -- now left.
        -- right. exists p. split; [now left|now split].
        -- right. exists q. split; [now right|now split].
      * intros [E|[q [[<-|Hq] [Hn Hin]]]].
        -- now left; left.
        -- left. right. now split.
        -- right. exists q. now split.
    + intros n. rewrite K2, K1. split.
      * intros [[E| ->]|[q [Hq Hn]]].
        -- now left.
        -- right. exists p. split; [now left|reflexivity].
        -- right. exists q. split; [now right|assumption].
      * intros [E|[q [[<-|Hq] Hn]]].
        -- now left; left.
        -- left. right. now symmetry.
        -- right. exists q. now split.
Qed.

Lemma init_resources_index (paths : list Path) (resources : dict Resource) :
  SwaggerFile.init_resources paths = Ok resources ->
  (forall n w op,
     lookup resources n w = Some op
     <-> exists p, In p paths /\ path_to_name (path p) = n /\ In (w, op) (operations p))
  /\ (forall n r, dict_get n resources = Some r -> r_name r = n)
  /\ forall n, In n (dict_keys resources)
               <-> exists p, In p paths /\ path_to_name (path p) = n.
Proof.
  intros H.
  destruct (index_loop_lookup paths [] resources H) as [H1 [H2 H3]];
    [intros n r; discriminate|].
  split; [|split; [assumption|]].
  - intros n w op. rewrite H1. split; [|now right]. intros [E|E]; [discriminate|assumption].
  - intros n. rewrite H3. split; [|now right]. intros [[]|E]. assumption.
Qed.

(** X17: when [init_resources] returns, the operation stored for a verb
    of a resource is the one that a path entry with that derived name
    defines for the verb, and every such operation is stored (none is
    replaced); every resource carries the name it is stored under, and
    the resources are those of the derived names of the paths. *)
Theorem init_resources_lookup (paths : list Path) (resources : dict Resource) :
  SwaggerFile.init_resources paths = Ok resources ->
  (forall n w op,
     lookup resources n w = Some op
     <-> exists p, In p paths /\ path_to_name (path p) = n /\ In (w, op) (operations p))
  /\ (forall n r, dict_get n resources = Some r -> r_name r = n)
  /\ forall n, In n (dict_keys resources)
               <-> exists p, In p paths /\ path_to_name (path p) = n.
Proof.
  exact (init_resources_index paths resources).
Qed.

Lemma init_resources_lookup_witness :
  exists resources,
    SwaggerFile.init_resources Examples.distinct_paths = Ok resources
    /\ lookup resources "vcenter_vm" "delete" = Some (Examples.operation "delete" []).
Proof.
  destruct (SwaggerFile.init_resources Examples.distinct_paths) as [resources|e] eqn:E;
    [|vm_compute in E; discriminate E].
  exists resources. split; [reflexivity|].
  apply (proj1 (init_resources_lookup Examples.distinct_paths resources E)).
  exists (mkPath "/data/vcenter/vm" "/rest" [("delete", Examples.operation "delete" [])]).
  split; [right; left; reflexivity|]. split; [reflexivity|left; reflexivity].
Defined.

(** ** Operation index: the loaded document *)

Lemma fold_set_invariant {A V : Type} (key : A -> string) (val : A -> V)
    (P : string -> V -> Prop) (l : list A) :
  (forall a, In a l -> P (key a) (val a)) ->
  forall acc : dict V,
    NoDup (dict_keys acc) -> (forall k v, In (k, v) acc -> P k v) ->
    NoDup (dict_keys (fold_left (fun d a => dict_set (key a) (val a) d) l acc))
    /\ forall k v, In (k, v) (fold_left (fun d a => dict_set (key a) (val a) d) l acc) ->
                   P k v.
Proof.
  induction l as [|a l IH]; simpl; intros Hl acc Hnd Hacc; [now split|].
  apply IH.
  - intros b Hb. apply Hl. now right.
  - now apply dict_set_NoDup.
  - intros k v Hin. apply In_dict_set in Hin.
    destruct Hin as [[-> ->]|[[_ Hin]|[_ Hin]]]; [|now apply Hacc|now apply Hacc].
    apply Hl. now left.
Qed.

Lemma load_path_operations (base_path : string)
    (item : string * dict (option (list Descriptor))) :
  NoDup (dict_keys (operations (SwaggerFile.load_path base_path item)))
  /\ forall w op, In (w, op) (operations (SwaggerFile.load_path base_path item)) ->
       o_verb op = w /\ o_path op = fst item /\ o_basePath op = base_path.
Proof.
  unfold SwaggerFile.load_path. cbn [operations].
  apply (fold_set_invariant fst
           (fun vd => mkOperation (fst vd) (fst item) (or_default (snd vd) []) base_path)
           (fun w op => o_verb op = w /\ o_path op = fst item /\ o_basePath op = base_path)).
  - intros a _. now repeat split.
  - constructor.
  - intros k v [].
Qed.

Lemma load_paths_entries (paths : dict (dict (option (list Descriptor))))
    (base_path : string) :
  NoDup (dict_keys (SwaggerFile.load_paths paths base_path))
  /\ forall k p, In (k, p) (SwaggerFile.load_paths paths base_path) ->
       path p = k /\ basePath p = base_path /\ In k (dict_keys paths)
       /\ NoDup (dict_keys (operations p))
       /\ forall w op, In (w, op) (operations p) ->
            o_verb op = w /\ o_path op = k /\ o_basePath op = base_path.
Proof.
  unfold SwaggerFile.load_paths.
  apply (fold_set_invariant fst (SwaggerFile.load_path base_path)
           (fun k p => path p = k /\ basePath p = base_path /\ In k (dict_keys paths)
                       /\ NoDup (dict_keys (operations p))
                       /\ forall w op, In (w, op) (operations p) ->
                            o_verb op = w /\ o_path op = k /\ o_basePath op = base_path)).
  - intros item Hitem. split; [reflexivity|]. split; [reflexivity|]. split.
    + unfold dict_keys. now apply in_map.
    + apply load_path_operations.
  - constructor.
  - intros k v [].
Qed.

(** X18: every path object that [load_paths] returns is stored under its
    own path, which is a key of the document; its operations have
    distinct verbs, and each of them carries its verb, the path and the
    base path. *)
Theorem load_paths_operations (paths : dict (dict (option (list Descriptor))))
    (base_path : string) :
  NoDup (dict_keys (SwaggerFile.load_paths paths base_path))
  /\ loaded (dict_values (SwaggerFile.load_paths paths base_path))
  /\ forall k p, In (k, p) (SwaggerFile.load_paths paths base_path) ->
       path p = k /\ basePath p = base_path /\ In k (dict_keys paths)
       /\ forall w op, In (w, op) (operations p) ->
            o_verb op = w /\ o_path op = k /\ o_basePath op = base_path.
Proof.
  destruct (load_paths_entries paths base_path) as [Hnd Hall]. split; [assumption|]. split.
  - intros p Hp. apply In_dict_values in Hp. destruct Hp as [k Hin].
    now destruct (Hall k p Hin) as [_ [_ [_ [H _]]]].
  - intros k p Hin. destruct (Hall k p Hin) as [H1 [H2 [H3 [_ H4]]]].
    split; [assumption|]. split; [assumption|]. split; assumption.
Qed.

(** X19: in the index built from a loaded document, the operation stored
    for a verb of a resource carries that verb and the base path of the
    document, and its path is a path of the document whose derived name
    is the name of the resource. *)
Theorem index_of_document (paths : dict (dict (option (list Descriptor))))
    (base_path : string) (resources : dict Resource) (n w : string) (op : Operation) :
  SwaggerFile.init_resources (dict_values (SwaggerFile.load_paths paths base_path))
  = Ok resources ->
  lookup resources n w = Some op ->
  o_verb op = w /\ o_basePath op = base_path
  /\ path_to_name (o_path op) = n /\ In (o_path op) (dict_keys paths).
Proof.
  intros Hres Hop.
  apply (proj1 (init_resources_index _ resources Hres)) in Hop.
  destruct Hop as [p [Hp [Hn Hin]]].
  apply In_dict_values in Hp. destruct Hp as [k Hk].
  destruct (proj2 (load_paths_entries paths base_path) k p Hk)
    as [Hpath [_ [Hkey [_ Hops]]]].
  destruct (Hops w op Hin) as [H1 [H2 H3]].
  rewrite H2. rewrite <- Hpath at 1. now repeat split.
Qed.

Lemma index_of_document_witness :
  exists resources,
    SwaggerFile.init_resources
      (dict_values (SwaggerFile.load_paths Examples.document_paths "/rest"))
    = Ok resources
    /\ lookup resources "vcenter_vm" "delete"
       = Some (mkOperation "delete" "/vcenter/VM?action=list" [] "/rest")
    /\ path_to_name "/vcenter/VM?action=list" = "vcenter_vm".
Proof.
  destruct (SwaggerFile.init_resources
              (dict_values (SwaggerFile.load_paths Examples.document_paths "/rest")))
    as [resources|e] eqn:E; [|vm_compute in E; discriminate E].
  exists resources. split; [reflexivity|].
  assert (H : lookup resources "vcenter_vm" "delete"
              = Some (mkOperation "delete" "/vcenter/VM?action=list" [] "/rest")).
  { vm_compute in E. injection E as E. subst resources. reflexivity. }
  split; [exact H|].
  apply (index_of_document Examples.document_paths "/rest" resources "vcenter_vm" "delete"
           (mkOperation "delete" "/vcenter/VM?action=list" [] "/rest") E H).
Defined.

(** ** Index of the list operation *)

Lemma span_class_group (g t : string) :
  Text.all_class g = true ->
  Re.span_class (g ++ String "}" t) = (g, String "}" t).
Proof.
  induction g as [|c g IH]; simpl; intros H; [reflexivity|].
  apply andb_true_iff in H. destruct H as [Hc Hg]. rewrite Hc, (IH Hg). reflexivity.
Qed.

Lemma span_class_rest (s : string) :
  Py.contains "{" s = true -> Py.contains "{" (snd (Re.span_class s)) = true.
Proof.
  induction s as [|c s IH]; simpl; intros H; [discriminate|].
  destruct (Re.in_class c) eqn:Hc.
  - destruct (Ascii.eqb_spec c "{") as [->|Hne]; [discriminate Hc|].
    simpl in H. destruct (Re.span_class s) as [g rest]. simpl in *.
    apply IH. destruct (Ascii.eqb c "{") eqn:E; [|exact H].
    apply Ascii.eqb_eq in E. contradiction.
  - exact H.
Qed.

Lemma span_class_spec (s : string) :
  s = (fst (Re.span_class s) ++ snd (Re.span_class s))
  /\ Text.all_class (fst (Re.span_class s)) = true.
Proof.
  induction s as [|c s IH]; simpl; [now split|].
  destruct (Re.in_class c) eqn:Hc; [|now split].
  destruct (Re.span_class s) as [g rest]. simpl in *. destruct IH as [E Hg].
  split; [now rewrite <- E|]. now rewrite Hc.
Qed.

Lemma at_end_no_brace (rest : string) :
  Re.at_end rest = true -> Py.contains "{" rest = false.
Proof.
  unfold Re.at_end. intros H. apply orb_true_iff in H.
  destruct H as [H|H]; apply String.eqb_eq in H; subst rest; reflexivity.
Qed.

Lemma match_here_spec (s g : string) :
  Re.match_here s = Some g ->
  (s = "{" ++ g ++ "}" \/ s = "{" ++ g ++ "}" ++ String Py.line_feed "")
  /\ g <> "" /\ Text.all_class g = true.
Proof.
  unfold Re.match_here. destruct s as [|c s]; [discriminate|].
  destruct (Ascii.eqb_spec c "{") as [->|Hne]; [|discriminate].
  destruct (span_class_spec s) as [E Hg].
  destruct (Re.span_class s) as [g0 rest]. simpl in E, Hg.
  destruct (g0 =? "") eqn:Hempty; [discriminate|]. simpl negb. simpl andb.
  destruct (Re.at_end rest) eqn:Hend; [|discriminate].
  intros H. injection H as H. subst g0. apply String.eqb_neq in Hempty.
  split; [|now split].
  unfold Re.at_end in Hend. apply orb_true_iff in Hend.
  destruct Hend as [H|H]; apply String.eqb_eq in H; subst rest; [left|right];
    rewrite E; reflexivity.
Qed.

Lemma search_spec (s g : string) :
  Re.search s = Some g ->
  exists prefix,
    (s = prefix ++ "{" ++ g ++ "}"
     \/ s = prefix ++ "{" ++ g ++ "}" ++ String Py.line_feed "")
    /\ g <> "" /\ Text.all_class g = true.
Proof.
  induction s as [|c s IH]; intros H.
  - discriminate H.
  - cbn [Re.search] in H. destruct (Re.match_here (String c s)) as [g0|] eqn:Hm.
    + injection H as H. subst g0. exists "". exact (match_here_spec _ g Hm).
    + destruct (IH H) as [prefix [[E|E] Hg]]; exists (String c prefix);
        (split; [|exact Hg]); [left|right]; rewrite E; reflexivity.
Qed.

Lemma search_placeholder (prefix g : string) :
  g <> "" -> Text.all_class g = true ->
  Re.search (prefix ++ "{" ++ g ++ "}") = Some g.
Proof.
  intros Hne Hg. induction prefix as [|c prefix IH].
  - change ("" ++ "{" ++ g ++ "}") with (String "{" (g ++ String "}" "")).
    cbn [Re.search Re.match_here]. rewrite Ascii.eqb_refl, (span_class_group g "" Hg).
    apply String.eqb_neq in Hne. rewrite Hne. reflexivity.
  - change (String c prefix ++ "{" ++ g ++ "}")
      with (String c (prefix ++ "{" ++ g ++ "}")).
    cbn [Re.search]. rewrite IH.
    destruct (Re.match_here (String c (prefix ++ "{" ++ g ++ "}"))) as [g0|] eqn:Hm;
      [|reflexivity].
    exfalso. unfold Re.match_here in Hm.
    destruct (Ascii.eqb c "{"); [|discriminate].
    assert (Hb : Py.contains "{" (prefix ++ "{" ++ g ++ "}") = true).
    { rewrite contains_app. simpl. now rewrite orb_true_r. }
    apply span_class_rest in Hb.
    destruct (Re.span_class (prefix ++ "{" ++ g ++ "}")) as [g1 rest]. simpl in Hb.
    destruct (Re.at_end rest) eqn:Hend.
    + apply at_end_no_brace in Hend. congruence.
    + rewrite andb_false_r in Hm. discriminate.
Qed.

(** X20: on ASCII paths, an index returned by [list_index] is a
    non-empty run of hyphens and word characters between braces that ends
    the path of a [get], [update] or [delete] operation of the resource
    (a line feed may follow the closing brace). *)
Theorem list_index_found (self : AnsibleModuleBase.t) (g : string) :
  list_index self = Some g ->
  exists i op prefix,
    In i ["get"; "update"; "delete"]
    /\ dict_get i (r_operations (resource self)) = Some op
    /\ (o_path op = prefix ++ "{" ++ g ++ "}"
        \/ o_path op = prefix ++ "{" ++ g ++ "}" ++ String Py.line_feed "")
    /\ g <> "" /\ Text.all_class g = true.
Proof.
  unfold list_index. intros H.
  destruct (find (fun i => dict_has i (r_operations (resource self)))
                 ["get"; "update"; "delete"]) as [i|] eqn:Hfind; [|discriminate].
  apply find_some in Hfind. destruct Hfind as [Hi _].
  destruct (dict_get i (r_operations (resource self))) as [op|] eqn:Hop; [|discriminate].
  destruct (search_spec (o_path op) g H) as [prefix Hp].
  exists i, op, prefix. split; [assumption|]. split; [assumption|exact Hp].
Qed.

Lemma list_index_found_witness :
  exists i op prefix,
    In i ["get"; "update"; "delete"]
    /\ dict_get i (r_operations (resource Examples.by_vm_module)) = Some op
    /\ (o_path op = prefix ++ "{" ++ "vm" ++ "}"
        \/ o_path op = prefix ++ "{" ++ "vm" ++ "}" ++ String Py.line_feed "")
    /\ "vm" <> "" /\ Text.all_class "vm" = true.
Proof.
  apply (list_index_found Examples.by_vm_module "vm").
  vm_compute. reflexivity.
Defined.

(** X21: the first of [get], [update] and [delete] that the resource has
    decides alone: when its path ends in a placeholder whose name is a
    non-empty run of hyphens and word characters, that name is the index,
    whatever comes before it in the path and whatever the paths of the
    other operations are. *)
Theorem list_index_of_first (self : AnsibleModuleBase.t) (i : string) (op : Operation)
    (prefix g : string) :
  find (fun i => dict_has i (r_operations (resource self))) ["get"; "update"; "delete"]
  = Some i ->
  dict_get i (r_operations (resource self)) = Some op ->
  o_path op = prefix ++ "{" ++ g ++ "}" ->
  g <> "" -> Text.all_class g = true ->
  list_index self = Some g.
Proof.
  intros Hfind Hop Hpath Hne Hg. unfold list_index. rewrite Hfind, Hop, Hpath.
  now apply search_placeholder.
Qed.

Lemma list_index_of_first_witness :
  list_index Examples.by_vm_module = Some "vm".
Proof.
  apply (list_index_of_first Examples.by_vm_module "get"
           (mkOperation "get" "/vcenter/vm/{vm}" [] "/rest") "/vcenter/vm/" "vm");
    [reflexivity|reflexivity|reflexivity|discriminate|reflexivity].
Defined.


(** ** Nested references *)

Lemma mapM_mono {A B : Type} (f g : A -> pyresult B) (l : list A) :
  (forall a b, In a l -> f a = Ok b -> g a = Ok b) ->
  forall bs, mapM f l = Ok bs -> mapM g l = Ok bs.
Proof.
  induction l as [|a l IH]; simpl; intros H bs Hf; [assumption|].
  destruct (f a) as [b|e] eqn:Ha; simpl in Hf; [|discriminate].
  rewrite (H a b (or_introl eq_refl) Ha). simpl.
  destruct (mapM f l) as [bs'|e] eqn:Hl; simpl in Hf; [|discriminate].
  rewrite (IH (fun a b Hin => H a b (or_intror Hin)) bs' eq_refl). exact Hf.
Qed.

Lemma foldM_mono {A S : Type} (f g : S -> A -> pyresult S) (l : list A) :
  (forall s a s', f s a = Ok s' -> g s a = Ok s') ->
  forall s s', foldM f l s = Ok s' -> foldM g l s = Ok s'.
Proof.
  intros H. induction l as [|a l IH]; simpl; intros s s' Hf; [assumption|].
  destruct (f s a) as [s1|e] eqn:Ha; simpl in Hf; [|discriminate].
  rewrite (H s a s1 Ha). simpl. now apply IH.
Qed.

Lemma foldM_In {A S : Type} (f : S -> A -> pyresult S) (l : list A) (a : A) :
  In a l -> forall s s', foldM f l s = Ok s' -> exists s1 s2, f s1 a = Ok s2.
Proof.
  induction l as [|x l IH]; simpl; intros Hin s s' H; [destruct Hin|].
  destruct (f s x) as [s1|e] eqn:Hx; simpl in H; [|discriminate].
  destruct Hin as [->|Hin]; [now exists s, s1|]. now apply (IH Hin s1 s').
Qed.

Lemma expand_property_mono
    (rec1 rec2 : option (SchemaBody -> pyresult (list Descriptor)))
    (definitions : dict SchemaBody) (required_keys : list string)
    (item : string * Property) (d : Descriptor) :
  (forall f1, rec1 = Some f1 ->
     exists f2, rec2 = Some f2 /\ forall ref l, f1 ref = Ok l -> f2 ref = Ok l) ->
  expand_property rec1 definitions required_keys item = Ok d ->
  expand_property rec2 definitions required_keys item = Ok d.
Proof.
  intros Hrec. destruct item as [name v]. unfold expand_property.
  destruct (v_ref v) as [r|]; [|trivial].
  destruct (Definitions.get definitions r) as [ref|e]; simpl; [|trivial].
  destruct (d_properties ref); [|trivial].
  destruct rec1 as [f1|]; [|discriminate].
  destruct (Hrec f1 eq_refl) as [f2 [-> Hf]].
  destruct (f1 ref) as [subs|e] eqn:E; simpl; [|discriminate].
  now rewrite (Hf ref subs E).
Qed.

Lemma _property_to_parameter_step (fuel : nat) (definitions : dict SchemaBody) :
  forall prop_struct l,
    _property_to_parameter fuel prop_struct definitions = Ok l ->
    _property_to_parameter (S fuel) prop_struct definitions = Ok l.
Proof.
  induction fuel as [|fuel IH]; intros prop_struct l;
    rewrite !_property_to_parameter_unfold;
    (destruct (d_properties prop_struct) as [properties|]; [|trivial]);
    apply mapM_mono; intros a b _; apply expand_property_mono.
  - intros f1 E. discriminate E.
  - intros f1 E. injection E as <-. eexists. split; [reflexivity|].
    intros ref l0. apply IH.
Qed.

Lemma _property_to_parameter_mono (fuel fuel' : nat) (definitions : dict SchemaBody)
    (prop_struct : SchemaBody) (l : list Descriptor) :
  fuel <= fuel' ->
  _property_to_parameter fuel prop_struct definitions = Ok l ->
  _property_to_parameter fuel' prop_struct definitions = Ok l.
Proof.
  induction 1 as [|fuel' _ IH]; [trivial|].
  intros H. now apply _property_to_parameter_step, IH.
Qed.

Lemma itera_mono (fuel fuel' : nat) (self : AnsibleModuleBase.t) (o : string)
    (l : list Descriptor) :
  fuel <= fuel' -> itera fuel self o = Ok l -> itera fuel' self o = Ok l.
Proof.
  intros Hle. unfold itera. destruct (dict_get o (r_operations (resource self))) as [op|];
    [|trivial].
  unfold _flatten_parameter.
  destruct (mapM (flatten_one fuel (definitions self)) (o_parameters op))
    as [yielded|e] eqn:E; simpl; [|discriminate].
  rewrite (mapM_mono (flatten_one fuel (definitions self))
             (flatten_one fuel' (definitions self)) (o_parameters op)) with (bs := yielded);
    [trivial| |exact E].
  intros a b _. unfold flatten_one. destruct (p_schema a) as [sch|]; [|trivial].
  destruct (s_ref sch) as [r|]; [|trivial].
  destruct (Definitions.get (definitions self) r) as [schema|e]; simpl; [|trivial].
  now apply _property_to_parameter_mono.
Qed.

(** X22: the bound on the depth of nested references is only a bound: a
    list that [parameters] returns within a depth is the list it returns
    at every greater depth. *)
Theorem parameters_depth_monotone (fuel fuel' : nat) (self : AnsibleModuleBase.t)
    (l : list Descriptor) :
  fuel <= fuel' -> parameters fuel self = Ok l -> parameters fuel' self = Ok l.
Proof.
  intros Hle. unfold parameters.
  destruct (merged fuel self) as [results|e] eqn:E; simpl; [|discriminate].
  unfold merged in *.
  rewrite (foldM_mono (merge_operation fuel self) (merge_operation fuel' self)
             (default_operationIds self)) with (s' := results); [trivial| |exact E].
  intros s o s'. unfold merge_operation.
  destruct (negb (dict_has o (r_operations (resource self)))); [trivial|].
  destruct (itera fuel self o) as [yielded|e0] eqn:Hi; simpl; [|discriminate].
  now rewrite (itera_mono fuel fuel' self o yielded Hle Hi).
Qed.

Lemma parameters_depth_monotone_witness :
  parameters 1 Examples.nested_module = parameters 7 Examples.nested_module
  /\ parameters 0 Examples.nested_module = Raise RecursionError.
Proof.
  split; [|vm_compute; reflexivity].
  destruct (parameters 1 Examples.nested_module) as [l|e] eqn:E;
    [|vm_compute in E; discriminate E].
  symmetry. apply (parameters_depth_monotone 1 7 Examples.nested_module l); [lia|exact E].
Defined.

(** X23: a definition with a property that refers to the definition
    itself is never expanded, whatever the depth allowed. *)
Theorem self_reference_never_expands
    (fuel : nat) (definitions : dict SchemaBody) (name : string) (body : SchemaBody)
    (properties : dict Property) (k : string) (v : Property) (r : string) :
  dict_get name definitions = Some body ->
  d_properties body = Some properties ->
  In (k, v) properties ->
  v_ref v = Some r ->
  Definitions._ref_to_dotted r = Ok name ->
  forall l, _property_to_parameter fuel body definitions <> Ok l.
Proof.
  intros Hget Hprops Hin Hv Hr.
  assert (Hbody : Definitions.get definitions r = Ok body).
  { unfold Definitions.get. rewrite Hr. simpl. now rewrite Hget. }
  induction fuel as [|fuel IH]; intros l H; rewrite _property_to_parameter_unfold in H;
    rewrite Hprops in H;
    destruct (mapM_In _ properties l (k, v) H Hin) as [b [Hb _]];
    unfold expand_property in Hb; rewrite Hv, Hbody in Hb; simpl in Hb;
    rewrite Hprops in Hb; [discriminate Hb|].
  destruct (_property_to_parameter fuel body definitions) as [subs|e] eqn:E;
    [exact (IH subs eq_refl)|discriminate Hb].
Qed.

Lemma self_reference_never_expands_witness :
  _property_to_parameter 3 Examples.folder_definition Examples.cyclic_definitions
  = Raise RecursionError
  /\ _property_to_parameter 1000 Examples.folder_definition Examples.cyclic_definitions
     <> Ok [].
Proof.
  split; [vm_compute; reflexivity|].
  apply (self_reference_never_expands 1000 Examples.cyclic_definitions "folder"
           Examples.folder_definition
           [("name", mkProperty (Some "string") None None);
            ("parent", mkProperty None None (Some "#/definitions/folder"))]
           "parent" (mkProperty None None (Some "#/definitions/folder"))
           "#/definitions/folder").
  - reflexivity.
  - reflexivity.
  - right. left. reflexivity.
  - reflexivity.
  - reflexivity.
Defined.

(** ** What a returned list tells about the operations *)

Lemma parameters_visits (fuel : nat) (self : AnsibleModuleBase.t) (l : list Descriptor)
    (o : string) (op : Operation) :
  parameters fuel self = Ok l ->
  In o (default_operationIds self) ->
  dict_get o (r_operations (resource self)) = Some op ->
  exists yielded flat ordered,
    mapM (flatten_one fuel (definitions self)) (o_parameters op) = Ok yielded
    /\ flat = concat yielded
    /\ mapM (fun parameter =>
               if p_name parameter =? "spec" then
                 match p_subkeys parameter with
                 | Some subkeys => Ok subkeys
                 | None => Raise (KeyError "subkeys")
                 end
               else Ok [parameter]) flat = Ok ordered
    /\ exists sorted, PyList.sortedM key_lt (concat ordered) = Ok sorted.
Proof.
  unfold parameters, merged. intros Hl Ho Hop.
  destruct (foldM (merge_operation fuel self) (default_operationIds self) [])
    as [results|e] eqn:Hm; simpl in Hl; [|discriminate].
  destruct (foldM_In _ _ o Ho _ _ Hm) as [s1 [s2 Hstep]].
  unfold merge_operation, dict_has in Hstep. rewrite Hop in Hstep. simpl negb in Hstep.
  cbv iota in Hstep. unfold itera in Hstep. rewrite Hop in Hstep.
  unfold _flatten_parameter in Hstep.
  destruct (mapM (flatten_one fuel (definitions self)) (o_parameters op))
    as [yielded|e] eqn:Hy; simpl in Hstep; [|discriminate].
  match type of Hstep with
  | context [mapM ?f (concat yielded)] =>
      destruct (mapM f (concat yielded)) as [ordered|e] eqn:Hord; simpl in Hstep;
        [|discriminate]
  end.
  destruct (PyList.sortedM key_lt (concat ordered)) as [sorted|e] eqn:Hs;
    simpl in Hstep; [|discriminate].
  exists yielded, (concat yielded), ordered. split; [reflexivity|].
  split; [reflexivity|]. split; [exact Hord|]. now exists sorted.
Qed.

Lemma In_concat {A : Type} (x : A) (l : list A) (ls : list (list A)) :
  In l ls -> In x l -> In x (concat ls).
Proof.
  intros Hl Hx. apply in_concat. now exists l.
Qed.

(** X24: when [parameters] returns, every schema reference of a
    parameter of a visited operation names a definition of the table that
    expands within the depth allowed, and every parameter named [spec]
    that has no schema brings its subkeys. *)
Theorem parameters_needs_references
    (fuel : nat) (self : AnsibleModuleBase.t) (l : list Descriptor)
    (o : string) (op : Operation) (i : Descriptor) :
  parameters fuel self = Ok l ->
  In o (default_operationIds self) ->
  dict_get o (r_operations (resource self)) = Some op ->
  In i (o_parameters op) ->
  (forall sch r, p_schema i = Some sch -> s_ref sch = Some r ->
     exists schema expanded,
       Definitions.get (definitions self) r = Ok schema
       /\ _property_to_parameter fuel schema (definitions self) = Ok expanded)
  /\ (p_schema i = None -> p_name i = "spec" -> p_subkeys i <> None).
Proof.
  intros Hl Ho Hop Hi.
  destruct (parameters_visits fuel self l o op Hl Ho Hop)
    as [yielded [flat [ordered [Hy [-> [Hord _]]]]]].
  destruct (mapM_In _ _ yielded i Hy Hi) as [b [Hb Hin]]. split.
  - intros sch r Hsch Hr. unfold flatten_one in Hb. rewrite Hsch, Hr in Hb.
    destruct (Definitions.get (definitions self) r) as [schema|e]; simpl in Hb;
      [|discriminate].
    now exists schema, b.
  - intros Hsch Hname Hsub. unfold flatten_one in Hb. rewrite Hsch in Hb.
    injection Hb as Hb. subst b.
    assert (Hflat : In i (concat yielded)) by (apply (In_concat i [i]); [assumption|now left]).
    destruct (mapM_In _ _ ordered i Hord Hflat) as [b [Hb _]].
    apply String.eqb_eq in Hname. rewrite Hname, Hsub in Hb. discriminate Hb.
Qed.

Lemma parameters_needs_references_witness :
  (forall sch r, p_schema Examples.spec_parameter = Some sch -> s_ref sch = Some r ->
     exists schema expanded,
       Definitions.get Examples.spec_definitions r = Ok schema
       /\ _property_to_parameter 0 schema Examples.spec_definitions = Ok expanded)
  /\ (p_schema Examples.spec_parameter = None -> p_name Examples.spec_parameter = "spec" ->
      p_subkeys Examples.spec_parameter <> None).
Proof.
  destruct (parameters 0 Examples.spec_module) as [l|e] eqn:E;
    [|vm_compute in E; discriminate E].
  apply (parameters_needs_references 0 Examples.spec_module l
           "post" Examples.spec_operation Examples.spec_parameter).
  - exact E.
  - left. reflexivity.
  - reflexivity.
  - left. reflexivity.
Defined.

(** ** Ordering the parameters of one operation *)

Lemma key_lt_true (y x : Descriptor) : key_lt y x = Ok true -> le_of name_lt y x.
Proof.
  unfold key_lt, le_of, name_lt. destruct (String.eqb_spec (p_name y) (p_name x)) as [E|Hne].
  - intros _. rewrite E. apply ltb_irrefl.
  - intros H. injection H as H. now apply ltb_asym.
Qed.

Lemma key_lt_false (z x : Descriptor) : key_lt z x = Ok false -> le_of name_lt x z.
Proof.
  unfold key_lt, le_of, name_lt. destruct (String.eqb_spec (p_name z) (p_name x)) as [E|Hne].
  - intros _. rewrite E. apply ltb_irrefl.
  - intros H. now injection H as H.
Qed.

Lemma key_lt_same (y x : Descriptor) (c : bool) :
  key_lt y x = Ok c -> p_name y = p_name x ->
  (p_description y = None <-> p_description x = None).
Proof.
  unfold key_lt. intros H E. apply String.eqb_eq in E. rewrite E in H.
  destruct (p_description y), (p_description x); try discriminate H;
    split; intros E'; try discriminate E'; reflexivity.
Qed.

Lemma insertM_spec (x : Descriptor) (r : list Descriptor) :
  StronglySorted (le_of name_lt) r ->
  forall r', PyList.insertM key_lt x r = Ok r' ->
    StronglySorted (le_of name_lt) r'
    /\ Permutation r' (x :: r)
    /\ forall b, In b r -> p_name b = p_name x ->
         exists c, In c r /\ p_name c = p_name x
                   /\ (p_description c = None <-> p_description x = None).
Proof.
  induction 1 as [|y r Hs IH Hy]; cbn [PyList.insertM]; intros r' H.
  - injection H as H. subst r'. split; [repeat constructor|]. split; [reflexivity|].
    intros b [].
  - destruct (key_lt y x) as [c|e] eqn:Hc; simpl in H; [|discriminate].
    rewrite Forall_forall in Hy. destruct c.
    + destruct (PyList.insertM key_lt x r) as [r1|e] eqn:Hr; simpl in H; [|discriminate].
      injection H as H. subst r'. destruct (IH r1 eq_refl) as [Hs1 [Hp1 Hd1]].
      split; [|split].
      * constructor; [assumption|]. apply Forall_forall. intros z Hz.
        apply (Permutation_in _ Hp1) in Hz. destruct Hz as [<-|Hz];
          [now apply key_lt_true|now apply Hy].
      * rewrite Hp1. apply perm_swap.
      * intros b [<-|Hb] Hname.
        -- exists y. split; [now left|]. split; [assumption|].
           now apply (key_lt_same y x true).
        -- destruct (Hd1 b Hb Hname) as [c [Hin Hc']]. exists c. split; [now right|assumption].
    + injection H as H. subst r'. assert (Hxy := key_lt_false y x Hc). split; [|split].
      * constructor; [now constructor; [|apply Forall_forall]|]. constructor; [assumption|].
        apply Forall_forall. intros z Hz. apply (name_le_trans x y z Hxy). now apply Hy.
      * reflexivity.
      * intros b Hb Hname. destruct (String.eqb_spec (p_name y) (p_name x)) as [E|Hne].
        -- exists y. split; [now left|]. split; [assumption|].
           now apply (key_lt_same y x false).
        -- exfalso. destruct Hb as [<-|Hb]; [contradiction|].
           apply Hne. assert (Hyb := Hy b Hb). unfold le_of, name_lt in Hxy, Hyb.
           rewrite Hname in Hyb. now apply ltb_antisym.
Qed.

Lemma sortedM_spec (l : list Descriptor) :
  forall r, PyList.sortedM key_lt l = Ok r ->
    StronglySorted (le_of name_lt) r
    /\ Permutation r l
    /\ forall a b, In a l -> In b l -> p_name a = p_name b ->
         (p_description a = None <-> p_description b = None).
Proof.
  induction l as [|x l IH]; cbn [PyList.sortedM]; intros r H.
  - injection H as H. subst r. split; [constructor|]. split; [reflexivity|].
    intros a b [].
  - destruct (PyList.sortedM key_lt l) as [r0|e] eqn:Hr0; simpl in H; [|discriminate].
    destruct (IH r0 eq_refl) as [Hs0 [Hp0 Hd0]].
    destruct (insertM_spec x r0 Hs0 r H) as [Hs [Hp Hd]].
    split; [assumption|]. split; [rewrite Hp; now constructor|].
    assert (Hx : forall b, In b l -> p_name b = p_name x ->
                   (p_description b = None <-> p_description x = None)).
    { intros b Hb Hname.
      destruct (Hd b (Permutation_in _ (Permutation_sym Hp0) Hb) Hname)
        as [c [Hc [Hcn Hcd]]].
      apply (Permutation_in _ Hp0) in Hc.
      rewrite <- Hcd. apply Hd0; [assumption|assumption|congruence]. }
    intros a b [<-|Ha] [<-|Hb] Hname.
    + reflexivity.
    + symmetry. apply Hx; [assumption|now symmetry].
    + now apply Hx.
    + now apply Hd0.
Qed.

(** X25: when [parameters] returns, two parameters of one visited
    operation that have the same name (other than [spec]) and no schema
    either both have a description or both have none: the sort of line 220
    cannot order a description and [None]. *)
Theorem parameters_needs_uniform_descriptions
    (fuel : nat) (self : AnsibleModuleBase.t) (l : list Descriptor)
    (o : string) (op : Operation) (a b : Descriptor) :
  parameters fuel self = Ok l ->
  In o (default_operationIds self) ->
  dict_get o (r_operations (resource self)) = Some op ->
  In a (o_parameters op) -> In b (o_parameters op) ->
  p_schema a = None -> p_schema b = None ->
  p_name a = p_name b -> p_name a <> "spec" ->
  (p_description a = None <-> p_description b = None).
Proof.
  intros Hl Ho Hop Ha Hb Hsa Hsb Hname Hspec.
  destruct (parameters_visits fuel self l o op Hl Ho Hop)
    as [yielded [flat [ordered [Hy [-> [Hord [sorted Hsorted]]]]]]].
  assert (Hin : forall i, In i (o_parameters op) -> p_schema i = None ->
                  p_name i <> "spec" -> In i (concat ordered)).
  { intros i Hi Hsch Hn.
    destruct (mapM_In _ _ yielded i Hy Hi) as [y [Hfy Hyin]].
    unfold flatten_one in Hfy. rewrite Hsch in Hfy. injection Hfy as Hfy. subst y.
    assert (Hflat : In i (concat yielded))
      by (apply (In_concat i [i]); [assumption|now left]).
    destruct (mapM_In _ _ ordered i Hord Hflat) as [y [Hfy Hyin']].
    apply String.eqb_neq in Hn. rewrite Hn in Hfy. injection Hfy as Hfy. subst y.
    apply (In_concat i [i]); [assumption|now left]. }
  destruct (sortedM_spec (concat ordered) sorted Hsorted) as [_ [_ Hd]].
  apply Hd; [apply Hin|apply Hin|]; try assumption. now rewrite <- Hname.
Qed.

Lemma parameters_needs_uniform_descriptions_witness :
  p_description (Examples.in_ "path" (Examples.raw "vm")) = None
  <-> p_description (Examples.in_ "query" (Examples.raw "vm")) = None.
Proof.
  destruct (parameters 0 (AnsibleModule.init Examples.twice_resource [] ["get"]))
    as [l|e] eqn:E; [|vm_compute in E; discriminate E].
  apply (parameters_needs_uniform_descriptions 0
           (AnsibleModule.init Examples.twice_resource [] ["get"]) l "get"
           (Examples.operation "get" [Examples.in_ "path" (Examples.raw "vm");
                                      Examples.in_ "query" (Examples.raw "vm")])).
  - exact E.
  - left. reflexivity.
  - reflexivity.
  - left. reflexivity.
  - right. left. reflexivity.
  - reflexivity.
  - reflexivity.
  - reflexivity.
  - discriminate.
Defined.
